(** * trackle-utils-esp-idf: properties and notifications registries

    Shallow embedding of [src/trackle_utils_properties.c] and
    [src/trackle_utils_notifications.c].

    Conventions of the embedding:
    - C integers are values of [Z]; the unsigned 32-bit wrap-around of the
      millisecond clock is written out with [Int.u32];
    - the static arrays [props], [propGroups], [notifications] are lists of
      fixed length (their declared capacity), read and written by index;
    - a [char *] that may be [NULL] is an [option string]; character
      buffers are strings, and the two bounded copies of the source
      ([strncpy], [snprintf]) truncate explicitly; the buffers the sources
      fill with [sprintf] and [strcat] without a bound ([jsonBuffer],
      [valueBuffer], [messageBuffer]) are given the text written, which is
      what they hold as long as it fits: the statements about a text
      handed to a publish call, or left in [valueBuffer], assume that it
      does ([Bounds]);
    - the collaborators of the firmware (clock, connectivity, publish calls,
      [malloc], libc's floating point formatting) are arguments of the
      functions that call them.

    The first part of the file holds the embedding, the second part the
    properties proved about it. *)

From Stdlib Require Import ZArith Lia Bool List String Ascii.
From Stdlib Require Import Numbers.DecimalString.
From stdpp Require Import base tactics option list.

Local Open Scope Z_scope.

(** String concatenation, kept apart from list concatenation. *)
Local Infix "+++" := String.append (at level 60, right associativity).

(* ================================================================== *)
(** * Part I: the embedding                                             *)
(* ================================================================== *)

(** ** Machine integers *)

Module Int.

Definition UINT32_MAX : Z := 4294967295.
Definition modulus32 : Z := 4294967296.

(** Result of an unsigned 32-bit operation, also the cast [(uint32_t)]. *)
Definition u32 (z : Z) : Z := z mod modulus32.

Definition in_u32 (z : Z) : Prop := 0 <= z < modulus32.
Definition in_i32 (z : Z) : Prop := -2147483648 <= z <= 2147483647.

End Int.

(** ** The part of libc the sources call *)

Module Libc.

Definition dquote : string := String (ascii_of_nat 34) EmptyString.

(** A string between two double quotes. *)
Definition quoted (s : string) : string := dquote +++ s +++ dquote.

Definition strlen (s : string) : Z := Z.of_nat (String.length s).

(** [strcmp(a, b) == 0] *)
Definition streq (a b : string) : bool := String.eqb a b.

(** [strncpy(dst, src, n); dst[n] = 0]: the first [n] characters. *)
Definition strncpy (src : string) (n : Z) : string :=
  String.substring 0 (Z.to_nat n) src.

(** [snprintf(buf, size, ...)] keeps [size - 1] characters of the output. *)
Definition snprintf_trunc (size : Z) (out : string) : string :=
  String.substring 0 (Z.to_nat (size - 1)) out.

(** Conversions [%d] / [PRIi32] and [%u] / [PRIu32]. The argument of the
    unsigned conversion is reinterpreted modulo 2^32. *)
Definition print_signed (v : Z) : string :=
  NilZero.string_of_int (Z.to_int v).

Definition print_unsigned (v : Z) : string :=
  NilZero.string_of_int (Z.to_int (Int.u32 v)).

(** Floating point is outside the embedding: [sprintf_fixed n v s] stands for
    the text produced by [sprintf(buf, "%.<n>f", ((double) v) / s)]. *)
Class FloatFormat := { sprintf_fixed : Z -> Z -> Z -> string }.

(** The three arguments [makeMessageStringFromNotification] hands to
    [sprintf]: key, level and value text. *)
Inductive arg := AStr (s : string) | AUInt (n : Z).

(** [sprintf(out, format, args...)] for the conversions the header
    documents for a notification format: [%s], [%u] (also [%d]) and the
    escape [%%]. Any other conversion, a conversion without a matching
    argument or of the wrong kind has no meaning here ([None]). *)
Fixpoint sprintf (format : string) (args : list arg) : option string :=
  match format with
  | EmptyString => Some EmptyString
  | String c rest =>
      if Ascii.eqb c "%"%char then
        match rest with
        | String d rest' =>
            if Ascii.eqb d "%"%char then
              option_map (String "%"%char) (sprintf rest' args)
            else if Ascii.eqb d "s"%char then
              match args with
              | AStr s :: args' => option_map (String.append s) (sprintf rest' args')
              | _ => None
              end
            else if Ascii.eqb d "u"%char || Ascii.eqb d "d"%char then
              match args with
              | AUInt n :: args' =>
                  option_map (String.append (print_unsigned n)) (sprintf rest' args')
              | _ => None
              end
            else None
        | EmptyString => None
        end
      else option_map (String c) (sprintf rest args)
  end.

End Libc.

(** ** Static arrays

    Reads and writes by a C [int] index. The sources mean to index inside
    the array (an access is guarded by a range check on the handle or uses
    an index stored after such a check). Outside it, where C gives no
    meaning, the read gives the default and the write is dropped; the one
    read the sources do make past an array, in
    [Trackle_PropGroup_addProp], is modelled apart. *)

Definition aget {A} (d : A) (a : list A) (i : Z) : A :=
  if i <? 0 then d else default d (a !! Z.to_nat i).

Definition aset {A} (a : list A) (i : Z) (x : A) : list A :=
  if i <? 0 then a else <[Z.to_nat i := x]> a.

(** A [for (i = 0; i < n; i++)] loop threading a state. *)
Definition for_loop {S} (n : Z) (body : S -> Z -> S) (init : S) : S :=
  fold_left body (seqZ 0 n) init.

(** ** Properties ([trackle_utils_properties.c]) *)

Module Props.

Import Int Libc.

(** Constants of [trackle_utils_properties.h], which is not part of the
    sources at hand: capacities, the key length and the two error handles
    are parameters of the development. *)
Class Config := {
  TRACKLE_MAX_PROP_NAME_LENGTH : Z;
  TRACKLE_MAX_PROPS_NUM : Z;
  TRACKLE_MAX_PROPGROUPS_NUM : Z;
  Trackle_PropID_ERROR : Z;
  Trackle_PropGroupID_ERROR : Z
}.

Definition JSON_BUFFER_LEN : Z := 1024.
Definition TRACKLE_PROPERTIES_TASK_PERIOD_MS : Z := 100.

(** [Prop_t] *)
Record Prop_t := mkProp {
  key : string;
  changed : bool;
  sign : bool;
  lastPubValue : Z;
  setValue : Z;
  scale : Z;
  disabled : bool;
  numDecimals : Z;
  setToPublish : bool;
  lastPubStringValue : option string;
  setStringValue : option string;
  stringValueMaxLength : Z;
  debouncing : bool;
  latestSetTimeMs : Z;
  debounceDelayMs : Z
}.

(** [PropGroup_t] *)
Record PropGroup_t := mkGroup {
  onlyIfChanged : bool;
  propsIndexes : list Z;
  propsWithin : Z;
  periodMs : Z;
  latestWakeTimeMs : Z
}.

(** The file-scope variables. *)
Record State := mkState {
  propGroups : list PropGroup_t;
  numPropGroupsCreated : Z;
  props : list Prop_t;
  numPropsCreated : Z;
  defaultValue : Z;
  defaultChanged : bool
}.

(** Field assignments [p.f = v]. *)
Definition set_key (v : string) (p : Prop_t) : Prop_t :=
  mkProp v (changed p) (sign p) (lastPubValue p) (setValue p) (scale p)
    (disabled p) (numDecimals p) (setToPublish p) (lastPubStringValue p)
    (setStringValue p) (stringValueMaxLength p) (debouncing p)
    (latestSetTimeMs p) (debounceDelayMs p).
Definition set_changed (v : bool) (p : Prop_t) : Prop_t :=
  mkProp (key p) v (sign p) (lastPubValue p) (setValue p) (scale p)
    (disabled p) (numDecimals p) (setToPublish p) (lastPubStringValue p)
    (setStringValue p) (stringValueMaxLength p) (debouncing p)
    (latestSetTimeMs p) (debounceDelayMs p).
Definition set_sign (v : bool) (p : Prop_t) : Prop_t :=
  mkProp (key p) (changed p) v (lastPubValue p) (setValue p) (scale p)
    (disabled p) (numDecimals p) (setToPublish p) (lastPubStringValue p)
    (setStringValue p) (stringValueMaxLength p) (debouncing p)
    (latestSetTimeMs p) (debounceDelayMs p).
Definition set_lastPubValue (v : Z) (p : Prop_t) : Prop_t :=
  mkProp (key p) (changed p) (sign p) v (setValue p) (scale p)
    (disabled p) (numDecimals p) (setToPublish p) (lastPubStringValue p)
    (setStringValue p) (stringValueMaxLength p) (debouncing p)
    (latestSetTimeMs p) (debounceDelayMs p).
Definition set_setValue (v : Z) (p : Prop_t) : Prop_t :=
  mkProp (key p) (changed p) (sign p) (lastPubValue p) v (scale p)
    (disabled p) (numDecimals p) (setToPublish p) (lastPubStringValue p)
    (setStringValue p) (stringValueMaxLength p) (debouncing p)
    (latestSetTimeMs p) (debounceDelayMs p).
Definition set_scale (v : Z) (p : Prop_t) : Prop_t :=
  mkProp (key p) (changed p) (sign p) (lastPubValue p) (setValue p) v
    (disabled p) (numDecimals p) (setToPublish p) (lastPubStringValue p)
    (setStringValue p) (stringValueMaxLength p) (debouncing p)
    (latestSetTimeMs p) (debounceDelayMs p).
Definition set_disabled (v : bool) (p : Prop_t) : Prop_t :=
  mkProp (key p) (changed p) (sign p) (lastPubValue p) (setValue p) (scale p)
    v (numDecimals p) (setToPublish p) (lastPubStringValue p)
    (setStringValue p) (stringValueMaxLength p) (debouncing p)
    (latestSetTimeMs p) (debounceDelayMs p).
Definition set_numDecimals (v : Z) (p : Prop_t) : Prop_t :=
  mkProp (key p) (changed p) (sign p) (lastPubValue p) (setValue p) (scale p)
    (disabled p) v (setToPublish p) (lastPubStringValue p)
    (setStringValue p) (stringValueMaxLength p) (debouncing p)
    (latestSetTimeMs p) (debounceDelayMs p).
Definition set_setToPublish (v : bool) (p : Prop_t) : Prop_t :=
  mkProp (key p) (changed p) (sign p) (lastPubValue p) (setValue p) (scale p)
    (disabled p) (numDecimals p) v (lastPubStringValue p)
    (setStringValue p) (stringValueMaxLength p) (debouncing p)
    (latestSetTimeMs p) (debounceDelayMs p).
Definition set_lastPubStringValue (v : option string) (p : Prop_t) : Prop_t :=
  mkProp (key p) (changed p) (sign p) (lastPubValue p) (setValue p) (scale p)
    (disabled p) (numDecimals p) (setToPublish p) v
    (setStringValue p) (stringValueMaxLength p) (debouncing p)
    (latestSetTimeMs p) (debounceDelayMs p).
Definition set_setStringValue (v : option string) (p : Prop_t) : Prop_t :=
  mkProp (key p) (changed p) (sign p) (lastPubValue p) (setValue p) (scale p)
    (disabled p) (numDecimals p) (setToPublish p) (lastPubStringValue p)
    v (stringValueMaxLength p) (debouncing p)
    (latestSetTimeMs p) (debounceDelayMs p).
Definition set_stringValueMaxLength (v : Z) (p : Prop_t) : Prop_t :=
  mkProp (key p) (changed p) (sign p) (lastPubValue p) (setValue p) (scale p)
    (disabled p) (numDecimals p) (setToPublish p) (lastPubStringValue p)
    (setStringValue p) v (debouncing p)
    (latestSetTimeMs p) (debounceDelayMs p).
Definition set_debouncing (v : bool) (p : Prop_t) : Prop_t :=
  mkProp (key p) (changed p) (sign p) (lastPubValue p) (setValue p) (scale p)
    (disabled p) (numDecimals p) (setToPublish p) (lastPubStringValue p)
    (setStringValue p) (stringValueMaxLength p) v
    (latestSetTimeMs p) (debounceDelayMs p).
Definition set_latestSetTimeMs (v : Z) (p : Prop_t) : Prop_t :=
  mkProp (key p) (changed p) (sign p) (lastPubValue p) (setValue p) (scale p)
    (disabled p) (numDecimals p) (setToPublish p) (lastPubStringValue p)
    (setStringValue p) (stringValueMaxLength p) (debouncing p)
    v (debounceDelayMs p).
Definition set_debounceDelayMs (v : Z) (p : Prop_t) : Prop_t :=
  mkProp (key p) (changed p) (sign p) (lastPubValue p) (setValue p) (scale p)
    (disabled p) (numDecimals p) (setToPublish p) (lastPubStringValue p)
    (setStringValue p) (stringValueMaxLength p) (debouncing p)
    (latestSetTimeMs p) v.

Definition set_latestWakeTimeMs (v : Z) (g : PropGroup_t) : PropGroup_t :=
  mkGroup (onlyIfChanged g) (propsIndexes g) (propsWithin g) (periodMs g) v.

Definition with_props (ps : list Prop_t) (s : State) : State :=
  mkState (propGroups s) (numPropGroupsCreated s) ps (numPropsCreated s)
    (defaultValue s) (defaultChanged s).
Definition with_propGroups (gs : list PropGroup_t) (s : State) : State :=
  mkState gs (numPropGroupsCreated s) (props s) (numPropsCreated s)
    (defaultValue s) (defaultChanged s).

Section WithConfig.

Context {cfg : Config}.

(** Zero-initialised array elements ([= {0}]). *)
Definition zeroProp : Prop_t :=
  mkProp EmptyString false false 0 0 0 false 0 false None None 0 false 0 0.

Definition zeroGroup : PropGroup_t :=
  mkGroup false (replicate (Z.to_nat TRACKLE_MAX_PROPS_NUM) 0) 0 0 0.

(** The file-scope variables at program start. *)
Definition initial : State :=
  mkState (replicate (Z.to_nat TRACKLE_MAX_PROPGROUPS_NUM) zeroGroup) 0
          (replicate (Z.to_nat TRACKLE_MAX_PROPS_NUM) zeroProp) 0
          0 true.

Definition prop_at (ps : list Prop_t) (i : Z) : Prop_t := aget zeroProp ps i.
Definition group_at (gs : list PropGroup_t) (i : Z) : PropGroup_t :=
  aget zeroGroup gs i.

(** [props[i].f = v] *)
Definition upd_prop (ps : list Prop_t) (i : Z) (f : Prop_t -> Prop_t) : list Prop_t :=
  aset ps i (f (prop_at ps i)).

(** [Trackle_PropGroup_create] (properties.c:65) *)
Definition Trackle_PropGroup_create (s : State) (periodMs_ : Z) (onlyIfChanged_ : bool)
  : State * Z :=
  if numPropGroupsCreated s <? TRACKLE_MAX_PROPGROUPS_NUM then
    let newPropGroupIndex := numPropGroupsCreated s in
    let g := group_at (propGroups s) newPropGroupIndex in
    let g' := mkGroup onlyIfChanged_ (propsIndexes g) 0 periodMs_ 0 in
    (mkState (aset (propGroups s) newPropGroupIndex g')
             (numPropGroupsCreated s + 1)
             (props s) (numPropsCreated s) (defaultValue s) (defaultChanged s),
     newPropGroupIndex + 1)
  else (s, Trackle_PropGroupID_ERROR).

(** The search loop of [Trackle_PropGroup_addProp]: is [propIndex] among the
    first [n] entries of the group's index array? *)
Definition group_contains (g : PropGroup_t) (n : Z) (propIndex : Z) : bool :=
  existsb (fun i => aget 0 (propsIndexes g) i =? propIndex) (seqZ 0 n).

(** [Trackle_PropGroup_addProp] (properties.c:80).

    The capacity test reads [propGroups[propGroupId]], the element after the
    group being extended. For the last handle this read is past the end of
    the array, where C gives it no meaning: the result is then [None]. *)
Definition Trackle_PropGroup_addProp (s : State) (propId propGroupId : Z)
  : option (State * bool) :=
  let propIndex := propId - 1 in
  let propGroupIndex := propGroupId - 1 in
  if (0 <=? propGroupIndex) && (propGroupIndex <? numPropGroupsCreated s)
     && (propIndex <? numPropsCreated s) && (0 <=? propIndex) then
    match propGroups s !! Z.to_nat propGroupId with
    | None => None
    | Some gnext =>
        if propsWithin gnext <? TRACKLE_MAX_PROPS_NUM - 1 then
          let g := group_at (propGroups s) propGroupIndex in
          let propsWithin_ := propsWithin g in
          if group_contains g propsWithin_ propIndex then Some (s, false)
          else
            let g' := mkGroup (onlyIfChanged g)
                              (aset (propsIndexes g) propsWithin_ propIndex)
                              (propsWithin g + 1) (periodMs g) (latestWakeTimeMs g) in
            Some (with_propGroups (aset (propGroups s) propGroupIndex g') s, true)
        else Some (s, false)
    end
  else Some (s, false).

Context {ff : FloatFormat}.

(** Text of one member, [sprintf]'s output in [appendPropertyToJsonString]
    (properties.c:113-133). *)
Definition member_text (p : Prop_t) : string :=
  match setStringValue p with
  | Some sv => quoted (key p) +++ ":" +++ quoted sv
  | None =>
      if scale p =? 1 then
        if sign p
        then quoted (key p) +++ ":" +++ print_unsigned (setValue p)
        else quoted (key p) +++ ":" +++ print_signed (setValue p)
      else
        quoted (key p) +++ ":"
          +++ sprintf_fixed (numDecimals p) (setValue p) (scale p)
  end.

(** [appendPropertyToJsonString] (properties.c:106): the text the buffer
    holds after the two [sprintf], as long as it stays inside the
    [JSON_BUFFER_LEN] bytes of the buffer ([Bounds.json_fits]). *)
Definition appendPropertyToJsonString (ps : list Prop_t) (jsonBuffer : string)
  (propIndex : Z) : string :=
  let jsonBuffer1 :=
    if 1 <? strlen jsonBuffer then jsonBuffer +++ "," else jsonBuffer in
  jsonBuffer1 +++ member_text (prop_at ps propIndex).

(** [isSetValueEqualToLastSent] (properties.c:136). A string property owns
    both of its buffers, so the comparison never meets a null
    [lastPubStringValue]. *)
Definition isSetValueEqualToLastSent (ps : list Prop_t) (propIndex : Z) : bool :=
  let p := prop_at ps propIndex in
  match setStringValue p with
  | Some sv =>
      match lastPubStringValue p with
      | Some lv => streq sv lv
      | None => false
      end
  | None => setValue p =? lastPubValue p
  end.

(** [updateLastSentToSetValue] (properties.c:146) *)
Definition updateLastSentToSetValue (ps : list Prop_t) (propIndex : Z) : list Prop_t :=
  let p := prop_at ps propIndex in
  match setStringValue p with
  | Some sv => upd_prop ps propIndex (set_lastPubStringValue (Some sv))
  | None => upd_prop ps propIndex (set_lastPubValue (setValue p))
  end.

(** [isMsElapsed] (properties.c:154). Every operation is on [uint32_t],
    hence wraps. *)
Definition isMsElapsed (now start delay : Z) : bool :=
  if now <? start
  then delay <=? u32 (u32 (u32 (now + UINT32_MAX) - start) + 1)
  else delay <=? u32 (now - start).

(** *** The periodic task ([tracklePropertiesTaskCode], properties.c:161) *)

(** Its local variables that live across iterations. *)
Record Task := mkTask {
  jsonBuffer : string;
  first_run : bool
}.

(** What the staging loops thread: the two arrays, the buffer and the
    local [propsToPublish]. *)
Record Staging := mkStaging {
  st_groups : list PropGroup_t;
  st_props : list Prop_t;
  st_buffer : string;
  st_toPublish : bool
}.

(** Before the endless loop: the buffer is emptied, [first_run] is set and
    every group's [latestWakeTimeMs] is the time of the start. *)
Definition task_start (s : State) (startMs : Z) : State * Task :=
  (with_propGroups
     (for_loop (numPropGroupsCreated s)
        (fun gs pgIdx => aset gs pgIdx (set_latestWakeTimeMs startMs (group_at gs pgIdx)))
        (propGroups s)) s,
   mkTask EmptyString true).

(** Body of the loop over the members of a due group (properties.c:201-221),
    for the member at [propIdx]. *)
Definition member_body (nowMs : Z) (onlyIfChanged_ first_run_ : bool)
  (st : list Prop_t * string * bool) (propIdx : Z) : list Prop_t * string * bool :=
  let '(ps, buf, propsToPublish) := st in
  let ps1 :=
    if debouncing (prop_at ps propIdx)
       && isMsElapsed nowMs (latestSetTimeMs (prop_at ps propIdx))
                      (debounceDelayMs (prop_at ps propIdx))
    then upd_prop (upd_prop ps propIdx (set_debouncing false)) propIdx (set_changed true)
    else ps in
  if negb (disabled (prop_at ps1 propIdx))
     && ((changed (prop_at ps1 propIdx) && negb (isSetValueEqualToLastSent ps1 propIdx))
         || negb onlyIfChanged_ || first_run_)
  then
    let buf1 := if propsToPublish then buf else buf +++ "{" in
    let buf2 := appendPropertyToJsonString ps1 buf1 propIdx in
    let ps2 := upd_prop ps1 propIdx (set_setToPublish true) in
    (updateLastSentToSetValue ps2 propIdx, buf2, true)
  else (ps1, buf, propsToPublish).

(** Body of the loop over the groups (properties.c:186-224). The member
    loop reads the index array of the group, which nothing in the loop
    writes. *)
Definition group_body (nowMs : Z) (first_run_ : bool) (st : Staging) (pgIdx : Z)
  : Staging :=
  let g := group_at (st_groups st) pgIdx in
  let propsWithin_ := propsWithin g in
  let onlyIfChanged_ := onlyIfChanged g in
  if isMsElapsed nowMs (latestWakeTimeMs g) (periodMs g) || first_run_ then
    let gs1 := aset (st_groups st) pgIdx (set_latestWakeTimeMs nowMs g) in
    let '(ps, buf, toPub) :=
      for_loop propsWithin_
        (fun acc i =>
           member_body nowMs onlyIfChanged_ first_run_ acc
             (aget 0 (propsIndexes (group_at gs1 pgIdx)) i))
        (st_props st, st_buffer st, st_toPublish st) in
    mkStaging gs1 ps buf toPub
  else st.

(** The loop over the groups. *)
Definition staging (nowMs : Z) (s : State) (t : Task) : Staging :=
  for_loop (numPropGroupsCreated s) (group_body nowMs (first_run t))
    (mkStaging (propGroups s) (props s) (jsonBuffer t) false).

(** The two loops after the publication (properties.c:233-245). *)
Definition clear_changed_of_staged (n : Z) (ps : list Prop_t) : list Prop_t :=
  for_loop n
    (fun ps pIdx =>
       if setToPublish (prop_at ps pIdx) then upd_prop ps pIdx (set_changed false) else ps)
    ps.

Definition clear_setToPublish (n : Z) (ps : list Prop_t) : list Prop_t :=
  for_loop n (fun ps pIdx => upd_prop ps pIdx (set_setToPublish false)) ps.

(** One iteration of the endless loop, after [vTaskDelayUntil] returned:
    [connected] is the answer of [trackleConnected], [nowMs] the clock, and
    [trackleSyncStateSecure] the publish call. The third component is the
    payload handed to the publish call, if it was called. *)
Definition tick (connected : bool) (trackleSyncStateSecure : string -> bool)
  (nowMs : Z) (s : State) (t : Task) : State * Task * option string :=
  if connected then
    let st := staging nowMs s t in
    if st_toPublish st then
      let payload := st_buffer st +++ "}" in
      let publishedSuccessfully := trackleSyncStateSecure payload in
      let ps1 :=
        if publishedSuccessfully
        then clear_changed_of_staged (numPropsCreated s) (st_props st)
        else st_props st in
      let first_run1 := if publishedSuccessfully then false else first_run t in
      let ps2 := clear_setToPublish (numPropsCreated s) ps1 in
      (with_props ps2 (with_propGroups (st_groups st) s),
       mkTask EmptyString first_run1, Some payload)
    else
      (with_props (st_props st) (with_propGroups (st_groups st) s),
       mkTask (st_buffer st) (first_run t), None)
  else (s, t, None).

(** [Trackle_Props_getNumber] (properties.c:277) *)
Definition Trackle_Props_getNumber (s : State) : Z := numPropsCreated s.

(** The duplicate-name loop of the two constructors. *)
Definition name_in_use (s : State) (name : string) : bool :=
  existsb (fun pIdx => streq name (key (prop_at (props s) pIdx)))
          (seqZ 0 (numPropsCreated s)).

(** [Trackle_Prop_create] (properties.c:282) *)
Definition Trackle_Prop_create (s : State) (name : string) (scale_ numDecimals_ : Z)
  (sign_ : bool) : State * Z :=
  if numPropsCreated s <? TRACKLE_MAX_PROPS_NUM then
    let newPropIndex := numPropsCreated s in
    if name_in_use s name then (s, Trackle_PropID_ERROR)
    else if strlen name <? TRACKLE_MAX_PROP_NAME_LENGTH then
      let p :=
        mkProp name (defaultChanged s) sign_ (defaultValue s) (defaultValue s)
               scale_ false numDecimals_ false None None 0 false 0 0 in
      (mkState (propGroups s) (numPropGroupsCreated s)
               (aset (props s) newPropIndex p) (numPropsCreated s + 1)
               (defaultValue s) (defaultChanged s),
       newPropIndex + 1)
    else (s, Trackle_PropID_ERROR)
  else (s, Trackle_PropID_ERROR).

(** [Trackle_Prop_createString] (properties.c:322). [malloc1_ok] and
    [malloc2_ok] tell whether the two allocations succeed; when one fails
    the slot keeps the fields written so far and the counter is not
    advanced. *)
Definition Trackle_Prop_createString (malloc1_ok malloc2_ok : bool) (s : State)
  (name : string) (maxLength : Z) : State * Z :=
  if numPropsCreated s <? TRACKLE_MAX_PROPS_NUM then
    let newPropIndex := numPropsCreated s in
    if name_in_use s name then (s, Trackle_PropID_ERROR)
    else if strlen name <? TRACKLE_MAX_PROP_NAME_LENGTH then
      let p0 := prop_at (props s) newPropIndex in
      let p1 :=
        set_setToPublish false (set_changed (defaultChanged s) (set_disabled false
          (set_numDecimals 0 (set_sign false (set_scale 1
            (set_setValue (defaultValue s) (set_lastPubValue (defaultValue s)
              (set_key name p0)))))))) in
      if negb malloc1_ok then
        (with_props (aset (props s) newPropIndex (set_lastPubStringValue None p1)) s,
         Trackle_PropID_ERROR)
      else
        let p2 := set_lastPubStringValue (Some EmptyString) p1 in
        if negb malloc2_ok then
          (with_props (aset (props s) newPropIndex (set_setStringValue None p2)) s,
           Trackle_PropID_ERROR)
        else
          let p3 :=
            set_debounceDelayMs 0 (set_latestSetTimeMs 0 (set_debouncing false
              (set_stringValueMaxLength maxLength
                (set_setStringValue (Some EmptyString) p2)))) in
          (mkState (propGroups s) (numPropGroupsCreated s)
                   (aset (props s) newPropIndex p3) (numPropsCreated s + 1)
                   (defaultValue s) (defaultChanged s),
           newPropIndex + 1)
    else (s, Trackle_PropID_ERROR)
  else (s, Trackle_PropID_ERROR).

(** The handle test shared by all the handle-addressed functions. *)
Definition valid_index (s : State) (propIndex : Z) : bool :=
  (0 <=? propIndex) && (propIndex <? numPropsCreated s).

(** [Trackle_Prop_update] (properties.c:368); [nowMs] is the clock read
    when the value changes. *)
Definition Trackle_Prop_update (nowMs : Z) (s : State) (propID : Z) (newValue : Z)
  : State * bool :=
  let propIndex := propID - 1 in
  if valid_index s propIndex then
    if negb (setValue (prop_at (props s) propIndex) =? newValue) then
      let ps1 := upd_prop (props s) propIndex (set_debouncing true) in
      let ps2 := upd_prop ps1 propIndex (set_latestSetTimeMs nowMs) in
      let ps3 := upd_prop ps2 propIndex (set_setValue newValue) in
      (with_props ps3 s, true)
    else (s, false)
  else (s, false).

(** [Trackle_Prop_updateString] (properties.c:385); [newValue] may be a null
    pointer. *)
Definition Trackle_Prop_updateString (nowMs : Z) (s : State) (propID : Z)
  (newValue : option string) : State * bool :=
  let propIndex := propID - 1 in
  if valid_index s propIndex then
    match setStringValue (prop_at (props s) propIndex), newValue with
    | Some cur, Some new =>
        if negb (streq cur new) then
          let ps1 := upd_prop (props s) propIndex (set_debouncing true) in
          let ps2 := upd_prop ps1 propIndex (set_latestSetTimeMs nowMs) in
          let ps3 :=
            upd_prop ps2 propIndex
              (set_setStringValue
                 (Some (strncpy new (stringValueMaxLength (prop_at ps2 propIndex))))) in
          (with_props ps3 s, true)
        else (s, false)
    | _, _ => (s, false)
    end
  else (s, false).

(** [Trackle_Prop_setDisabled] (properties.c:403) *)
Definition Trackle_Prop_setDisabled (s : State) (propID : Z) (isDisabled : bool)
  : State * bool :=
  let propIndex := propID - 1 in
  if valid_index s propIndex
  then (with_props (upd_prop (props s) propIndex (set_disabled isDisabled)) s, true)
  else (s, false).

(** [Trackle_Prop_setDebounceDelay] (properties.c:414) *)
Definition Trackle_Prop_setDebounceDelay (s : State) (propID : Z) (debounceDelayMs_ : Z)
  : State * bool :=
  let propIndex := propID - 1 in
  if valid_index s propIndex
  then (with_props (upd_prop (props s) propIndex (set_debounceDelayMs debounceDelayMs_)) s,
        true)
  else (s, false).

(** The accessors (properties.c:425-498). *)
Definition Trackle_Prop_isDisabled (s : State) (propID : Z) : bool :=
  let propIndex := propID - 1 in
  if valid_index s propIndex then disabled (prop_at (props s) propIndex) else false.

Definition Trackle_Prop_getKey (s : State) (propID : Z) : string :=
  let propIndex := propID - 1 in
  if valid_index s propIndex then key (prop_at (props s) propIndex) else EmptyString.

Definition Trackle_Prop_getValue (s : State) (propID : Z) : Z :=
  let propIndex := propID - 1 in
  if valid_index s propIndex then setValue (prop_at (props s) propIndex) else -1.

(** The second component is what the function leaves in [retValue]; [None]
    when it does not write to it. *)
Definition Trackle_Prop_getStringValue (s : State) (propID : Z) (retValueMaxLen : Z)
  : bool * option string :=
  let propIndex := propID - 1 in
  if valid_index s propIndex then
    match setStringValue (prop_at (props s) propIndex) with
    | Some sv => (true, Some (strncpy sv retValueMaxLen))
    | None => (false, None)
    end
  else (false, None).

Definition Trackle_Prop_getScale (s : State) (propID : Z) : Z :=
  let propIndex := propID - 1 in
  if valid_index s propIndex then scale (prop_at (props s) propIndex) else 0.

Definition Trackle_Prop_getNumberOfDecimals (s : State) (propID : Z) : Z :=
  let propIndex := propID - 1 in
  if valid_index s propIndex then numDecimals (prop_at (props s) propIndex) else 0.

Definition Trackle_Prop_isSigned (s : State) (propID : Z) : bool :=
  let propIndex := propID - 1 in
  if valid_index s propIndex then sign (prop_at (props s) propIndex) else false.

(** [Trackle_Prop_setDefaults] (properties.c:500) *)
Definition Trackle_Prop_setDefaults (s : State) (value : Z) (changed_ : bool) : State :=
  mkState (propGroups s) (numPropGroupsCreated s) (props s) (numPropsCreated s)
          value changed_.

End WithConfig.

End Props.

(** ** Notifications ([trackle_utils_notifications.c]) *)

Module Notifications.

Import Int Libc.

(** [trackle_utils_notifications.h] *)
Definition TRACKLE_MAX_NOTIFICATIONS_NUM : Z := 20.
Definition Trackle_NotificationID_ERROR : Z := -1.

Definition MESSAGE_BUFFER_LEN : Z := 1024.
Definition VALUE_BUFFER_LEN : Z := 32.
Definition NOTIFICATION_NAME_LENGTH : Z := 64.
Definition NOTIFICATION_EVENT_LENGTH : Z := 64.
Definition NOTIFICATION_FORMAT_LENGTH : Z := 128.

(** [Notification_t]. The value map is a pointer to an array of strings,
    each of which may be null; the pointer itself may be null. *)
Record Notification_t := mkNotification {
  key : string;
  event : string;
  format : string;
  changed : bool;
  sign : bool;
  value : Z;
  scale : Z;
  numDecimals : Z;
  level : Z;
  valueMap : option (list (option string));
  valueMapSize : Z
}.

Record State := mkState {
  notifications : list Notification_t;
  numNotificationsCreated : Z
}.

Definition zeroNotification : Notification_t :=
  mkNotification EmptyString EmptyString EmptyString false false 0 0 0 0 None 0.

Definition initial : State :=
  mkState (replicate (Z.to_nat TRACKLE_MAX_NOTIFICATIONS_NUM) zeroNotification) 0.

Definition notification_at (ns : list Notification_t) (i : Z) : Notification_t :=
  aget zeroNotification ns i.

(** Text of the value by the integer conversions [%d] and [%u]. *)
Definition integer_text (n : Notification_t) : string :=
  if sign n then print_signed (value n) else print_unsigned (value n).

(** Content of [valueBuffer] before the final [sprintf]
    (notifications.c:52-93). Reading the map at an index the caller's array
    does not have is given no meaning ([None]). Only the mapped string is
    written with a bound; the numeric texts are what the buffer holds as
    long as they stay inside its [VALUE_BUFFER_LEN] bytes
    ([Bounds.value_fits]). *)
Definition valueBuffer {ff : FloatFormat} (n : Notification_t) : option string :=
  match valueMap n with
  | Some map =>
      if (0 <? valueMapSize n) && (0 <=? value n) && (value n <? valueMapSize n) then
        match map !! Z.to_nat (value n) with
        | Some (Some mappedString) =>
            Some (snprintf_trunc VALUE_BUFFER_LEN (quoted mappedString))
        | Some None => Some (integer_text n)
        | None => None
        end
      else if scale n =? 1 then Some (integer_text n)
      else Some (sprintf_fixed (numDecimals n) (value n) (scale n))
  | None =>
      if scale n =? 1 then Some (integer_text n)
      else Some (sprintf_fixed (numDecimals n) (value n) (scale n))
  end.

(** [makeMessageStringFromNotification] (notifications.c:45): the message
    left in [messageBuffer]. *)
Definition makeMessageStringFromNotification {ff : FloatFormat}
  (ns : list Notification_t) (notificationIndex : Z) : option string :=
  let n := notification_at ns notificationIndex in
  match valueBuffer n with
  | Some vb => sprintf (format n) [AStr (key n); AUInt (level n); AStr vb]
  | None => None
  end.

(** [Trackle_Notification_createWithValueMap] (notifications.c:161) *)
Definition Trackle_Notification_createWithValueMap (s : State)
  (name eventName format_ : string) (scale_ numDecimals_ : Z) (sign_ : bool)
  (valueMap_ : option (list (option string))) (valueMapSize_ : Z) : State * Z :=
  if numNotificationsCreated s <? TRACKLE_MAX_NOTIFICATIONS_NUM then
    let newNotificationIndex := numNotificationsCreated s in
    if existsb (fun aIdx => streq name (key (notification_at (notifications s) aIdx)))
               (seqZ 0 (numNotificationsCreated s))
    then (s, Trackle_NotificationID_ERROR)
    else if strlen name <? NOTIFICATION_NAME_LENGTH then
      let n0 := notification_at (notifications s) newNotificationIndex in
      let n1 := mkNotification name (event n0) (format n0) (changed n0) (sign n0)
                  (value n0) (scale n0) (numDecimals n0) (level n0) (valueMap n0)
                  (valueMapSize n0) in
      if strlen eventName <? NOTIFICATION_EVENT_LENGTH then
        let n2 := mkNotification (key n1) eventName (format n1) (changed n1) (sign n1)
                    (value n1) (scale n1) (numDecimals n1) (level n1) (valueMap n1)
                    (valueMapSize n1) in
        if strlen format_ <? NOTIFICATION_FORMAT_LENGTH then
          let n3 := mkNotification name eventName format_ false sign_ (-1) scale_
                      numDecimals_ 0 valueMap_ valueMapSize_ in
          (mkState (aset (notifications s) newNotificationIndex n3)
                   (numNotificationsCreated s + 1),
           newNotificationIndex + 1)
        else (mkState (aset (notifications s) newNotificationIndex n2)
                      (numNotificationsCreated s),
              Trackle_NotificationID_ERROR)
      else (mkState (aset (notifications s) newNotificationIndex n1)
                    (numNotificationsCreated s),
            Trackle_NotificationID_ERROR)
    else (s, Trackle_NotificationID_ERROR)
  else (s, Trackle_NotificationID_ERROR).

(** [Trackle_Notification_create] (notifications.c:156) *)
Definition Trackle_Notification_create (s : State) (name eventName format_ : string)
  (scale_ numDecimals_ : Z) (sign_ : bool) : State * Z :=
  Trackle_Notification_createWithValueMap s name eventName format_ scale_ numDecimals_
    sign_ None 0.

Definition valid_index (s : State) (notificationIndex : Z) : bool :=
  (0 <=? notificationIndex) && (notificationIndex <? numNotificationsCreated s).

(** [Trackle_Notification_update] (notifications.c:211) *)
Definition Trackle_Notification_update (s : State) (notificationID : Z)
  (newLevel : Z) (value_ : Z) : State * bool :=
  let notificationIndex := notificationID - 1 in
  if valid_index s notificationIndex then
    let n := notification_at (notifications s) notificationIndex in
    if negb (level n =? newLevel) then
      let n' := mkNotification (key n) (event n) (format n) true (sign n) value_
                  (scale n) (numDecimals n) newLevel (valueMap n) (valueMapSize n) in
      (mkState (aset (notifications s) notificationIndex n') (numNotificationsCreated s),
       true)
    else (s, true)
  else (s, false).

(** The accessors (notifications.c:227-255). *)
Definition Trackle_Notification_getKey (s : State) (notificationID : Z) : string :=
  let notificationIndex := notificationID - 1 in
  if valid_index s notificationIndex
  then key (notification_at (notifications s) notificationIndex) else EmptyString.

Definition Trackle_Notification_getLevel (s : State) (notificationID : Z) : Z :=
  let notificationIndex := notificationID - 1 in
  if valid_index s notificationIndex
  then level (notification_at (notifications s) notificationIndex) else -1.

Definition Trackle_Notification_getValue (s : State) (notificationID : Z) : Z :=
  let notificationIndex := notificationID - 1 in
  if valid_index s notificationIndex
  then value (notification_at (notifications s) notificationIndex) else -1.

(** One pass of [trackleNotificationsTaskCode] over the registry
    (notifications.c:114-127): each changed notification is rendered and
    handed to [tracklePublishSecure]; the list is what was handed over, in
    order. The pass has a result as long as every rendering has one. *)
Definition notification_body {ff : FloatFormat}
  (tracklePublishSecure : string -> string -> bool)
  (acc : option (list Notification_t * list (string * string))) (aIdx : Z)
  : option (list Notification_t * list (string * string)) :=
  match acc with
  | None => None
  | Some (ns, out) =>
      let n := notification_at ns aIdx in
      if changed n then
        match makeMessageStringFromNotification ns aIdx with
        | Some messageBuffer =>
            let success := tracklePublishSecure (event n) messageBuffer in
            let ns' :=
              if success then
                aset ns aIdx
                  (mkNotification (key n) (event n) (format n) false (sign n)
                     (value n) (scale n) (numDecimals n) (level n) (valueMap n)
                     (valueMapSize n))
              else ns in
            Some (ns', out ++ [(event n, messageBuffer)])
        | None => None
        end
      else Some (ns, out)
  end.

Definition tick {ff : FloatFormat} (tracklePublishSecure : string -> string -> bool)
  (s : State) : option (State * list (string * string)) :=
  match for_loop (numNotificationsCreated s) (notification_body tracklePublishSecure)
                 (Some (notifications s, [])) with
  | Some (ns, out) => Some (mkState ns (numNotificationsCreated s), out)
  | None => None
  end.

End Notifications.

(** ** Vocabulary of the statements *)

(** What an accessor hands back, and the sentinels the interface documents
    for a handle that names nothing: the empty string, -1 and false. *)
Inductive retval :=
  | RString (s : string)
  | RInt (z : Z)
  | RBool (b : bool).

Definition documented_sentinel (r : retval) : bool :=
  match r with
  | RString s => String.eqb s EmptyString
  | RInt z => z =? -1
  | RBool b => negb b
  end.



(** Numeric rendering of a notification's value: an integer by the sign
    flag when the scale is 1, the fixed point formatting otherwise. *)
Definition numeric_rendering {ff : Libc.FloatFormat} (n : Notifications.Notification_t)
  : string :=
  if Notifications.scale n =? 1 then Notifications.integer_text n
  else Libc.sprintf_fixed (Notifications.numDecimals n) (Notifications.value n)
         (Notifications.scale n).

(** Vocabulary for one pass of the properties task: which members the pass
    visits and which of them it stages, told from the registry as it is
    when the pass begins. *)
Module Batch.

Import Libc Props.

Section WithConfig.

Context {cfg : Config} {ff : FloatFormat}.

(** The debounce promotion: a pending change whose delay has elapsed
    becomes a changed flag. *)
Definition promoted (nowMs : Z) (p : Prop_t) : Prop_t :=
  if debouncing p && isMsElapsed nowMs (latestSetTimeMs p) (debounceDelayMs p)
  then set_changed true (set_debouncing false p)
  else p.

(** The current value differs from the last published one. *)
Definition value_differs (p : Prop_t) : bool :=
  match setStringValue p with
  | Some sv =>
      match lastPubStringValue p with
      | Some lv => negb (streq sv lv)
      | None => true
      end
  | None => negb (setValue p =? lastPubValue p)
  end.

(** The inclusion rule: not disabled, and changed with a value that differs
    from the last published one, or a group that always publishes, or the
    first pass. *)
Definition must_stage (onlyIfChanged_ first_run_ : bool) (p : Prop_t) : bool :=
  negb (disabled p)
  && ((changed p && value_differs p) || negb onlyIfChanged_ || first_run_).

(** A group is due when its period has elapsed or on the first pass. *)
Definition is_due (nowMs : Z) (first_run_ : bool) (g : PropGroup_t) : bool :=
  isMsElapsed nowMs (latestWakeTimeMs g) (periodMs g) || first_run_.

(** The members of a group, in the order of its index array. *)
Definition members (g : PropGroup_t) : list Z :=
  map (aget 0 (propsIndexes g)) (seqZ 0 (propsWithin g)).

(** The members a pass visits in one group, each with the policy of the
    group: all of them when the group is due, none otherwise. *)
Definition group_visits (nowMs : Z) (first_run_ : bool) (g : PropGroup_t)
  : list (bool * Z) :=
  if is_due nowMs first_run_ g then map (pair (onlyIfChanged g)) (members g) else [].

Definition visits (nowMs : Z) (first_run_ : bool) (gs : list PropGroup_t)
  (indices : list Z) : list (bool * Z) :=
  flat_map (fun pgIdx => group_visits nowMs first_run_ (group_at gs pgIdx)) indices.

(** The members of all the due groups, in the order of the pass. *)
Definition due_members (nowMs : Z) (s : State) (t : Task) : list (bool * Z) :=
  visits nowMs (first_run t) (propGroups s) (seqZ 0 (numPropGroupsCreated s)).

Definition stages (nowMs : Z) (first_run_ : bool) (ps : list Prop_t) (v : bool * Z)
  : bool :=
  must_stage (fst v) first_run_ (promoted nowMs (prop_at ps (snd v))).

(** Membership in a list of indexes. *)
Definition mem (k : Z) (l : list Z) : bool := existsb (Z.eqb k) l.

(** The inclusion rule at one visit of a pass, told from the registry as
    the pass found it. [already] lists the members staged by earlier
    visits of the same pass: staging records the current value as the last
    published one, so for them the two no longer differ. *)
Definition stages_at (nowMs : Z) (first_run_ : bool) (ps : list Prop_t)
  (already : list Z) (v : bool * Z) : bool :=
  let p := promoted nowMs (prop_at ps (snd v)) in
  negb (disabled p)
  && ((changed p && (value_differs p && negb (mem (snd v) already)))
      || negb (fst v) || first_run_).

(** The members a run of visits stages, in the order of the visits. *)
Fixpoint staged_visits (nowMs : Z) (first_run_ : bool) (ps : list Prop_t)
  (already : list Z) (vs : list (bool * Z)) : list Z :=
  match vs with
  | [] => []
  | v :: vs' =>
      if stages_at nowMs first_run_ ps already v
      then snd v :: staged_visits nowMs first_run_ ps (snd v :: already) vs'
      else staged_visits nowMs first_run_ ps already vs'
  end.

(** The members a pass stages. *)
Definition staged (nowMs : Z) (s : State) (t : Task) : list Z :=
  staged_visits nowMs (first_run t) (props s) [] (due_members nowMs s t).

(** A flat JSON object with the given members. *)
Definition json_object (members_ : list string) : string :=
  "{" +++ String.concat "," members_ +++ "}".

(** What staging does to the record of a member, and to the buffer. *)
Definition snapshot (p : Prop_t) : Prop_t :=
  match setStringValue p with
  | Some sv => set_lastPubStringValue (Some sv) p
  | None => set_lastPubValue (setValue p) p
  end.

Definition stage_record (p : Prop_t) : Prop_t :=
  snapshot (set_setToPublish true p).

(** The record of a property during a pass, from its record [p0] when the
    pass began: staged, visited without being staged, or not visited. *)
Definition record_after (nowMs : Z) (p0 : Prop_t) (was_staged was_visited : bool)
  : Prop_t :=
  if was_staged then stage_record (promoted nowMs p0)
  else if was_visited then promoted nowMs p0
  else p0.

(** Appending the text of one member to the buffer. *)
Definition emit (acc : string * bool) (text : string) : string * bool :=
  let buf1 := if snd acc then fst acc else fst acc +++ "{" in
  ((if 1 <? strlen buf1 then buf1 +++ "," else buf1) +++ text, true).

(** An index inside the array of the properties. *)
Definition in_range (ps : list Prop_t) (k : Z) : Prop :=
  0 <= k < Z.of_nat (length ps).

(** The part of the staging state the member loop threads. *)
Definition threaded (st : Staging) : list Prop_t * string * bool :=
  (st_props st, st_buffer st, st_toPublish st).

(** One visit, as the body of the member loop performs it. *)
Definition visit (nowMs : Z) (first_run_ : bool) (acc : list Prop_t * string * bool)
  (v : bool * Z) : list Prop_t * string * bool :=
  member_body nowMs (fst v) first_run_ acc (snd v).

End WithConfig.

End Batch.

(** The firmware as a whole, as far as the properties are concerned: the
    registry and, once [Trackle_Props_startTask] has run, the task. A run
    is a sequence of calls of the interface by the application, interleaved
    with the passes of the task. *)
Module System.

Import Libc Props Batch.

Record System := mkSystem {
  registry : State;
  task : option Task
}.

Inductive call :=
  | PropCreate (name : string) (scale_ numDecimals_ : Z) (sign_ : bool)
  | PropCreateString (malloc1_ok malloc2_ok : bool) (name : string) (maxLength : Z)
  | GroupCreate (periodMs_ : Z) (onlyIfChanged_ : bool)
  | GroupAddProp (propId propGroupId : Z)
  | Update (nowMs propID newValue : Z)
  | UpdateString (nowMs propID : Z) (newValue : option string)
  | SetDisabled (propID : Z) (isDisabled : bool)
  | SetDebounceDelay (propID debounceDelayMs_ : Z)
  | SetDefaults (value : Z) (changed_ : bool)
  | StartTask (startMs : Z)
  | Pass (connected : bool) (trackleSyncStateSecure : string -> bool) (nowMs : Z).

Section WithConfig.

Context {cfg : Config} {ff : FloatFormat}.

Definition boot : System := mkSystem initial None.

(** The effect of one call. There is none ([None]) where the source has no
    defined behaviour (the read past the group table) and for a pass of a
    task that was not started. *)
Definition perform (c : call) (sys : System) : option System :=
  let s := registry sys in
  match c with
  | PropCreate name scale_ numDecimals_ sign_ =>
      Some (mkSystem (fst (Trackle_Prop_create s name scale_ numDecimals_ sign_)) (task sys))
  | PropCreateString m1 m2 name maxLength =>
      Some (mkSystem (fst (Trackle_Prop_createString m1 m2 s name maxLength)) (task sys))
  | GroupCreate periodMs_ onlyIfChanged_ =>
      Some (mkSystem (fst (Trackle_PropGroup_create s periodMs_ onlyIfChanged_)) (task sys))
  | GroupAddProp propId propGroupId =>
      match Trackle_PropGroup_addProp s propId propGroupId with
      | Some (s', _) => Some (mkSystem s' (task sys))
      | None => None
      end
  | Update nowMs propID newValue =>
      Some (mkSystem (fst (Trackle_Prop_update nowMs s propID newValue)) (task sys))
  | UpdateString nowMs propID newValue =>
      Some (mkSystem (fst (Trackle_Prop_updateString nowMs s propID newValue)) (task sys))
  | SetDisabled propID isDisabled =>
      Some (mkSystem (fst (Trackle_Prop_setDisabled s propID isDisabled)) (task sys))
  | SetDebounceDelay propID debounceDelayMs_ =>
      Some (mkSystem (fst (Trackle_Prop_setDebounceDelay s propID debounceDelayMs_))
                     (task sys))
  | SetDefaults value changed_ =>
      Some (mkSystem (Trackle_Prop_setDefaults s value changed_) (task sys))
  | StartTask startMs =>
      match task sys with
      | None =>
          Some (mkSystem (fst (task_start s startMs)) (Some (snd (task_start s startMs))))
      | Some _ => None
      end
  | Pass connected trackleSyncStateSecure nowMs =>
      match task sys with
      | Some t =>
          let r := tick connected trackleSyncStateSecure nowMs s t in
          Some (mkSystem (fst (fst r)) (Some (snd (fst r))))
      | None => None
      end
  end.

Fixpoint run (cs : list call) (sys : System) : option System :=
  match cs with
  | [] => Some sys
  | c :: cs' =>
      match perform c sys with
      | Some sys' => run cs' sys'
      | None => None
      end
  end.

(** The states a run can reach from the start of the program. *)
Definition reachable (sys : System) : Prop :=
  exists cs, run cs boot = Some sys.

(** Every member of a created group is the index of a created property. *)
Definition members_valid (s : State) : Prop :=
  forall pgIdx k,
    0 <= pgIdx < numPropGroupsCreated s ->
    In k (members (group_at (propGroups s) pgIdx)) ->
    0 <= k < numPropsCreated s.

(** What holds of the registry between two calls. *)
Definition registry_wf (s : State) : Prop :=
  Z.of_nat (length (props s)) = TRACKLE_MAX_PROPS_NUM
  /\ Z.of_nat (length (propGroups s)) = TRACKLE_MAX_PROPGROUPS_NUM
  /\ 0 <= numPropsCreated s <= TRACKLE_MAX_PROPS_NUM
  /\ 0 <= numPropGroupsCreated s <= TRACKLE_MAX_PROPGROUPS_NUM
  /\ members_valid s
  /\ (forall k, setToPublish (prop_at (props s) k) = false).

Definition invariant (sys : System) : Prop :=
  registry_wf (registry sys)
  /\ (forall t, task sys = Some t -> jsonBuffer t = EmptyString).

End WithConfig.

End System.

(** A build configuration and a stand-in for the floating point formatter,
    used where a statement is checked on concrete data. *)
Module Demo.

Definition cfg : Props.Config :=
  {| Props.TRACKLE_MAX_PROP_NAME_LENGTH := 32;
     Props.TRACKLE_MAX_PROPS_NUM := 4;
     Props.TRACKLE_MAX_PROPGROUPS_NUM := 3;
     Props.Trackle_PropID_ERROR := -1;
     Props.Trackle_PropGroupID_ERROR := -1 |}.

Definition ff : Libc.FloatFormat :=
  {| Libc.sprintf_fixed := fun _ _ _ => "0.00"%string |}.

Import Props.

#[local] Existing Instance cfg.
#[local] Existing Instance ff.

(** The scenario of the specification: a property [speed] (plain integer,
    unsigned) in one group published every second, only when changed, and
    a string property [label] outside of any group. *)
Definition with_speed : State :=
  fst (Trackle_Prop_create initial "speed" 1 0 false).

Definition with_label : State :=
  fst (Trackle_Prop_createString true true with_speed "label" 8).

Definition with_group : State :=
  fst (Trackle_PropGroup_create with_label 1000 true).

Definition registry : State :=
  match Trackle_PropGroup_addProp with_group 1 1 with
  | Some (s, _) => s
  | None => with_group
  end.

(** The periodic task on [registry]: started at time 0; a first pass at
    100 ms is published; the application then sets [speed] to 120; the
    pass at 1100 ms stages it and its publication fails; the group is due
    again at 2100 ms. *)
Definition run0 : State * Task := task_start registry 0.

Definition pass1 : State * Task * option string :=
  tick true (fun _ => true) 100 (fst run0) (snd run0).

Definition after_update : State :=
  fst (Trackle_Prop_update 150 (fst (fst pass1)) 1 120).

Definition pass2_failed : State * Task * option string :=
  tick true (fun _ => false) 1100 after_update (snd (fst pass1)).

Definition pass3 : State * Task * option string :=
  tick true (fun _ => true) 2100 (fst (fst pass2_failed)) (snd (fst pass2_failed)).

(** Two plain integers in an always-publish group: [temp] created signed,
    [count] created unsigned, both set to -5. *)
Definition sensors : State :=
  let s1 := fst (Trackle_Prop_create initial "temp" 1 0 true) in
  let s2 := fst (Trackle_Prop_create s1 "count" 1 0 false) in
  let s3 := fst (Trackle_PropGroup_create s2 1000 false) in
  let s4 := match Trackle_PropGroup_addProp s3 1 1 with Some (s, _) => s | None => s3 end in
  let s5 := match Trackle_PropGroup_addProp s4 2 1 with Some (s, _) => s | None => s4 end in
  let s6 := fst (Trackle_Prop_update 10 s5 1 (-5)) in
  fst (Trackle_Prop_update 10 s6 2 (-5)).

(** Three properties and two groups; the three properties are put in the
    second group, the first group stays empty. *)
Definition crowded : State :=
  let s1 := fst (Trackle_Prop_create initial "a" 1 0 false) in
  let s2 := fst (Trackle_Prop_create s1 "b" 1 0 false) in
  let s3 := fst (Trackle_Prop_create s2 "c" 1 0 false) in
  let s4 := fst (Trackle_PropGroup_create s3 1000 true) in
  let s5 := fst (Trackle_PropGroup_create s4 5000 true) in
  let s6 := match Trackle_PropGroup_addProp s5 1 2 with Some (s, _) => s | None => s5 end in
  let s7 := match Trackle_PropGroup_addProp s6 2 2 with Some (s, _) => s | None => s6 end in
  match Trackle_PropGroup_addProp s7 3 2 with Some (s, _) => s | None => s7 end.

Definition sensors_pass : State * Task * option string :=
  tick true (fun _ => true) 100 (fst (task_start sensors 0)) (snd (task_start sensors 0)).

(** A notification holding -5, created signed or unsigned. *)
Definition alarm (sign_ : bool) : Notifications.Notification_t :=
  Notifications.mkNotification "alarm" "ev" "%s:%u:%s" true sign_ (-5) 1 0 1 None 0.

(** The notification of the specification's scenario, and its first
    update. *)
Definition over_created : Notifications.State * Z :=
  Notifications.Trackle_Notification_create Notifications.initial
    "over" "machine/over" "%s:%u:%s" 1 0 false.

Definition over_raised : Notifications.State :=
  fst (Notifications.Trackle_Notification_update (fst over_created) 1 1 5).

(** Notifications with a value map: a state name of 30 characters, an
    entry that is a null pointer under a scale of 100, and a short name. *)
Definition long_name : string := "abcdefghijklmnopqrstuvwxyz0123".

Definition mapped_long : Notifications.Notification_t :=
  Notifications.mkNotification "mode" "ev" "%s:%u:%s" true false 0 1 0 1
    (Some [Some long_name]) 1.

Definition mapped_null : Notifications.Notification_t :=
  Notifications.mkNotification "mode" "ev" "%s:%u:%s" true true 0 100 2 1
    (Some [None]) 1.

(** A map whose second entry is a null pointer, read at that entry under
    a scale of 100 with two decimals: the value 1 stands for 0.01. *)
Definition mapped_gap : Notifications.Notification_t :=
  Notifications.mkNotification "mode" "ev" "%s:%u:%s" true true 1 100 2 1
    (Some [Some "idle"%string; None]) 2.

Definition mapped_short : Notifications.Notification_t :=
  Notifications.mkNotification "mode" "ev" "%s:%u:%s" true false 1 1 0 1
    (Some [Some "idle"%string; Some "running"%string]) 2.

Definition unmapped_scaled : Notifications.Notification_t :=
  Notifications.mkNotification "temp" "ev" "%s:%u:%s" true true 8750 100 2 1 None 0.

(** A registry with two groups sharing no member: [speed] and the string
    [label] in a group published every second only if changed, [temp]
    (two decimals) in a group always published every half second, and
    [spare] in no group. After a first published pass at 100 ms the three
    grouped values are updated and [label] is disabled. *)
Definition plant_registry : State :=
  let s1 := fst (Trackle_Prop_create initial "speed" 1 0 false) in
  let s2 := fst (Trackle_Prop_createString true true s1 "label" 8) in
  let s3 := fst (Trackle_Prop_create s2 "temp" 100 2 true) in
  let s4 := fst (Trackle_Prop_create s3 "spare" 1 0 false) in
  let s5 := fst (Trackle_PropGroup_create s4 1000 true) in
  let s6 := fst (Trackle_PropGroup_create s5 500 false) in
  let s7 := match Trackle_PropGroup_addProp s6 1 1 with Some (s, _) => s | None => s6 end in
  let s8 := match Trackle_PropGroup_addProp s7 2 1 with Some (s, _) => s | None => s7 end in
  match Trackle_PropGroup_addProp s8 3 2 with Some (s, _) => s | None => s8 end.

Definition plant_pass1 : State * Task * option string :=
  tick true (fun _ => true) 100
    (fst (task_start plant_registry 0)) (snd (task_start plant_registry 0)).

Definition plant : State :=
  let s1 := fst (Trackle_Prop_update 150 (fst (fst plant_pass1)) 1 120) in
  let s2 := fst (Trackle_Prop_updateString 160 s1 2 (Some "running"%string)) in
  let s3 := fst (Trackle_Prop_update 170 s2 3 8750) in
  let s4 := fst (Trackle_Prop_update 180 s3 4 7) in
  fst (Trackle_Prop_setDisabled s4 2 true).

Definition plant_task : Task := snd (fst plant_pass1).

(** The calls that lead from the start of the program to [plant] with the
    task between its first and second pass. *)
Definition plant_calls : list System.call :=
  [ System.PropCreate "speed" 1 0 false;
    System.PropCreateString true true "label" 8;
    System.PropCreate "temp" 100 2 true;
    System.PropCreate "spare" 1 0 false;
    System.GroupCreate 1000 true;
    System.GroupCreate 500 false;
    System.GroupAddProp 1 1;
    System.GroupAddProp 2 1;
    System.GroupAddProp 3 2;
    System.StartTask 0;
    System.Pass true (fun _ => true) 100;
    System.Update 150 1 120;
    System.UpdateString 160 2 (Some "running"%string);
    System.Update 170 3 8750;
    System.Update 180 4 7;
    System.SetDisabled 2 true ].

Definition plant_system : System.System :=
  System.mkSystem plant (Some plant_task).

(** The task started on a registry with [speed] alone in a group published
    every second only if changed, after one pass, at 100 ms, whose
    publication failed. *)
Definition latch_calls : list System.call :=
  [ System.PropCreate "speed" 1 0 false;
    System.GroupCreate 1000 true;
    System.GroupAddProp 1 1;
    System.StartTask 0;
    System.Pass true (fun _ => false) 100 ].

Definition latch_system : System.System :=
  match System.run latch_calls System.boot with
  | Some sys => sys
  | None => System.boot
  end.

Definition latch_task : Task :=
  match System.task latch_system with
  | Some t => t
  | None => mkTask EmptyString true
  end.

End Demo.

(** ** Vocabulary for the state a pass leaves *)

Module Outcome.

Import Libc Props Batch.

Section WithConfig.

Context {cfg : Config} {ff : FloatFormat}.

(** The payload a pass builds from the members it stages. *)
Definition payload (nowMs : Z) (s : State) (t : Task) : string :=
  json_object (map (fun k => member_text (prop_at (props s) k)) (staged nowMs s t)).

(** The record a pass leaves of a property whose record was [p0] when the
    pass began: [published] is the answer of the publish call,
    [was_staged] and [was_visited] tell what the pass did with it. *)
Definition record_after_pass (nowMs : Z) (published : bool) (p0 : Prop_t)
  (was_staged was_visited : bool) : Prop_t :=
  if was_staged then
    set_setToPublish false
      (if published
       then set_changed false (stage_record (promoted nowMs p0))
       else stage_record (promoted nowMs p0))
  else if was_visited then promoted nowMs p0
  else p0.

(** The group a pass leaves: a due group is stamped with the time of the
    pass. *)
Definition group_after_pass (nowMs : Z) (first_run_ : bool) (g : PropGroup_t)
  : PropGroup_t :=
  if is_due nowMs first_run_ g then set_latestWakeTimeMs nowMs g else g.

(** Two records that differ at most in the bookkeeping of the task: the
    changed flag, the staged mark, the debouncing flag and the last
    published value. *)
Definition same_settings (p q : Prop_t) : Prop :=
  key p = key q /\ sign p = sign q /\ setValue p = setValue q
  /\ scale p = scale q /\ disabled p = disabled q
  /\ numDecimals p = numDecimals q
  /\ setStringValue p = setStringValue q
  /\ stringValueMaxLength p = stringValueMaxLength q
  /\ latestSetTimeMs p = latestSetTimeMs q
  /\ debounceDelayMs p = debounceDelayMs q.

(** The situation of a pass: a state the firmware can reach, with the task
    started. *)
Definition at_pass (sys : System.System) (t : Task) : Prop :=
  0 <= TRACKLE_MAX_PROPS_NUM /\ 0 <= TRACKLE_MAX_PROPGROUPS_NUM
  /\ System.reachable sys /\ System.task sys = Some t.

End WithConfig.

End Outcome.

(** ** The buffers of the two tasks

    The sources write into [jsonBuffer], [valueBuffer] and [messageBuffer]
    with [sprintf] and [strcat], which know no bound. The embedding gives
    the text written; the buffer holds it as long as the text and its
    terminator fit. *)

Module Bounds.

Import Libc.

Section Json.

Context {cfg : Props.Config} {ff : FloatFormat}.

(** What a pass has written into [jsonBuffer] when it calls the publish
    function: the staged members and the closing brace. Every write of a
    pass appends to the buffer, so all of them stay inside it when this
    text does. *)
Definition pass_text (nowMs : Z) (s : Props.State) (t : Props.Task) : string :=
  Props.st_buffer (Props.staging nowMs s t) +++ "}".

(** The text of a pass and its terminator fit [jsonBuffer]. *)
Definition json_fits (nowMs : Z) (s : Props.State) (t : Props.Task) : Prop :=
  strlen (pass_text nowMs s t) < Props.JSON_BUFFER_LEN.

End Json.

(** A text and its terminator fit [valueBuffer]. *)
Definition value_fits (text : string) : Prop :=
  strlen text < Notifications.VALUE_BUFFER_LEN.

Section Message.

Context {ff : FloatFormat}.

(** The notification at [i] is rendered within the buffers: the text of
    its value fits [valueBuffer], its format is one this development gives
    a meaning to (the conversions [%s], [%u], [%d] and [%%], taking key,
    level and value in this order), and the message fits
    [messageBuffer]. *)
Definition renders_in_buffers (ns : list Notifications.Notification_t) (i : Z) : Prop :=
  exists vb m,
    Notifications.valueBuffer (Notifications.notification_at ns i) = Some vb
    /\ value_fits vb
    /\ Notifications.makeMessageStringFromNotification ns i = Some m
    /\ strlen m < Notifications.MESSAGE_BUFFER_LEN.

End Message.

End Bounds.

(** ** Vocabulary for the interface of the properties *)

Module Layout.

Import Libc Props Batch.

Section WithConfig.

Context {cfg : Config} {ff : FloatFormat}.

(** What the accessors tell of a handle: key, value, string value (read
    into a buffer of [retValueMaxLen] characters), disabled flag, sign,
    scale and number of decimals. *)
Definition readings (s : State) (propID retValueMaxLen : Z)
  : string * Z * (bool * option string) * bool * bool * Z * Z :=
  (Trackle_Prop_getKey s propID, Trackle_Prop_getValue s propID,
   Trackle_Prop_getStringValue s propID retValueMaxLen,
   Trackle_Prop_isDisabled s propID, Trackle_Prop_isSigned s propID,
   Trackle_Prop_getScale s propID, Trackle_Prop_getNumberOfDecimals s propID).

(** A state the firmware can reach, the capacities not being negative. *)
Definition in_service (sys : System.System) : Prop :=
  0 <= TRACKLE_MAX_PROPS_NUM /\ 0 <= TRACKLE_MAX_PROPGROUPS_NUM
  /\ System.reachable sys.

(** A handle that names a created property. *)
Definition is_handle (s : State) (propID : Z) : Prop :=
  1 <= propID <= numPropsCreated s.

(** The created properties have pairwise different keys, each of which
    fits the key array of its record. *)
Definition keys_wf (s : State) : Prop :=
  (forall i j,
      0 <= i < numPropsCreated s -> 0 <= j < numPropsCreated s ->
      key (prop_at (props s) i) = key (prop_at (props s) j) -> i = j)
  /\ (forall i,
        0 <= i < numPropsCreated s ->
        strlen (key (prop_at (props s) i)) < TRACKLE_MAX_PROP_NAME_LENGTH).

(** A string held in a buffer allocated for [capacity] characters and the
    terminator. *)
Definition fits (capacity : Z) (v : option string) : Prop :=
  match v with
  | Some sv => 0 <= capacity -> strlen sv <= capacity
  | None => True
  end.

(** The two string buffers of a record: both allocated or both null, and
    neither holding more than the capacity. *)
Definition buffers_ok (p : Prop_t) : Prop :=
  (setStringValue p = None <-> lastPubStringValue p = None)
  /\ fits (stringValueMaxLength p) (setStringValue p)
  /\ fits (stringValueMaxLength p) (lastPubStringValue p).

Definition strings_wf (s : State) : Prop :=
  forall i, 0 <= i < numPropsCreated s -> buffers_ok (prop_at (props s) i).

(** The index array of every group has its declared length, and the
    members of a created group are pairwise different. *)
Definition groups_wf (s : State) : Prop :=
  (forall j,
      Z.of_nat (length (propsIndexes (group_at (propGroups s) j)))
      = TRACKLE_MAX_PROPS_NUM)
  /\ (forall j,
        0 <= j < numPropGroupsCreated s ->
        0 <= propsWithin (group_at (propGroups s) j)
        /\ List.NoDup (members (group_at (propGroups s) j))).

Definition layout (s : State) : Prop := keys_wf s /\ strings_wf s /\ groups_wf s.

(** How the record of a created property can differ after a call of the
    interface or a pass: never in its key, capacity, sign, scale or number
    of decimals; in its string value only by a copy cut to the capacity; in
    its last published string only by a copy of the string value. *)
Definition evolves (p q : Prop_t) : Prop :=
  key q = key p
  /\ stringValueMaxLength q = stringValueMaxLength p
  /\ sign q = sign p
  /\ scale q = scale p
  /\ numDecimals q = numDecimals p
  /\ (setStringValue q = setStringValue p
      \/ (setStringValue p <> None
          /\ exists new, setStringValue q = Some (strncpy new (stringValueMaxLength p))))
  /\ (lastPubStringValue q = lastPubStringValue p
      \/ (setStringValue p <> None /\ lastPubStringValue q = setStringValue q
          /\ setStringValue q = setStringValue p)).

(** What a call of the interface or a pass can do to the table of the
    properties: keep the counter and let every created record evolve, or
    append one record whose key is new and fits. *)
Definition table_step (s s' : State) : Prop :=
  (numPropsCreated s' = numPropsCreated s
   /\ forall i,
       0 <= i < numPropsCreated s ->
       evolves (prop_at (props s) i) (prop_at (props s') i))
  \/ (numPropsCreated s' = numPropsCreated s + 1
      /\ (forall i,
            0 <= i < numPropsCreated s ->
            prop_at (props s') i = prop_at (props s) i)
      /\ name_in_use s (key (prop_at (props s') (numPropsCreated s))) = false
      /\ strlen (key (prop_at (props s') (numPropsCreated s)))
         < TRACKLE_MAX_PROP_NAME_LENGTH
      /\ buffers_ok (prop_at (props s') (numPropsCreated s))).

(** The passes of the task, each with the answer of [trackleConnected],
    the publish function and the time, run in turn from [s] and [t] as long
    as they leave the property at index [k] alone: a pass run while
    connected that visits [k] (one of the due groups holds it), or whose
    text does not fit the buffer, ends the run without a result. *)
Fixpoint passes_without (k : Z) (ps : list (bool * (string -> bool) * Z))
  (s : State) (t : Task) : option (State * Task) :=
  match ps with
  | [] => Some (s, t)
  | (connected, publish, nowMs) :: ps' =>
      if connected
         && (mem k (map snd (due_members nowMs s t))
             || negb (strlen (Bounds.pass_text nowMs s t) <? JSON_BUFFER_LEN))
      then None
      else
        let r := tick connected publish nowMs s t in
        passes_without k ps' (fst (fst r)) (snd (fst r))
  end.

(** The part of a record that is given at creation, and what a run keeps
    of the table: the created properties stay, each with that part. *)
Definition fixed_part (p : Prop_t) : string * Z * bool * Z * Z :=
  (key p, stringValueMaxLength p, sign p, scale p, numDecimals p).

Definition kept (s s' : State) : Prop :=
  numPropsCreated s <= numPropsCreated s'
  /\ forall i,
      0 <= i < numPropsCreated s ->
      fixed_part (prop_at (props s') i) = fixed_part (prop_at (props s) i).

(** What a run keeps of the table of the groups: the created groups stay,
    each with its policy and period, and members are only ever appended. *)
Definition groups_kept (s s' : State) : Prop :=
  numPropGroupsCreated s <= numPropGroupsCreated s'
  /\ forall j,
      0 <= j < numPropGroupsCreated s ->
      let g := group_at (propGroups s) j in
      let g' := group_at (propGroups s') j in
      onlyIfChanged g' = onlyIfChanged g
      /\ periodMs g' = periodMs g
      /\ exists more, members g' = members g ++ more.

End WithConfig.

End Layout.

(** ** Vocabulary for the notifications

    The notifications registry as the application and its task use it: a
    run is a sequence of constructor calls and updates, interleaved with
    the passes of the task. *)

Module Service.

Import Libc Notifications.

(** A handle that names a created notification. *)
Definition is_handle (s : State) (notificationID : Z) : Prop :=
  1 <= notificationID <= numNotificationsCreated s.

(** What the accessors tell of a handle: key, level and value. *)
Definition readings (s : State) (notificationID : Z) : string * Z * Z :=
  (Trackle_Notification_getKey s notificationID,
   Trackle_Notification_getLevel s notificationID,
   Trackle_Notification_getValue s notificationID).

Definition set_changed (v : bool) (n : Notification_t) : Notification_t :=
  mkNotification (key n) (event n) (format n) v (sign n) (value n) (scale n)
    (numDecimals n) (level n) (valueMap n) (valueMapSize n).

(** The notifications a pass finds changed, in the order of its loop. *)
Definition pending (s : State) : list Z :=
  List.filter (fun i => changed (notification_at (notifications s) i))
    (seqZ 0 (numNotificationsCreated s)).

Inductive call :=
  | Create (name eventName format_ : string) (scale_ numDecimals_ : Z) (sign_ : bool)
      (valueMap_ : option (list (option string))) (valueMapSize_ : Z)
  | Update (notificationID newLevel value_ : Z)
  | Pass (tracklePublishSecure : string -> string -> bool).

Section WithFormat.

Context {ff : FloatFormat}.

(** The message of a notification, empty where the rendering has no
    meaning. *)
Definition message (s : State) (i : Z) : string :=
  match makeMessageStringFromNotification (notifications s) i with
  | Some m => m
  | None => EmptyString
  end.

(** The event and the message a pass hands to the publish call for the
    notification at [i]. *)
Definition sent (s : State) (i : Z) : string * string :=
  (event (notification_at (notifications s) i), message s i).

(** The effect of one call; a pass has none where a rendering has no
    meaning. *)
Definition perform (c : call) (s : State) : option State :=
  match c with
  | Create name eventName format_ scale_ numDecimals_ sign_ valueMap_ valueMapSize_ =>
      Some (fst (Trackle_Notification_createWithValueMap s name eventName format_
                   scale_ numDecimals_ sign_ valueMap_ valueMapSize_))
  | Update notificationID newLevel value_ =>
      Some (fst (Trackle_Notification_update s notificationID newLevel value_))
  | Pass tracklePublishSecure =>
      match tick tracklePublishSecure s with
      | Some (s', _) => Some s'
      | None => None
      end
  end.

Fixpoint run (cs : list call) (s : State) : option State :=
  match cs with
  | [] => Some s
  | c :: cs' =>
      match perform c s with
      | Some s' => run cs' s'
      | None => None
      end
  end.

(** The states a run can reach from the start of the program. *)
Definition reachable (s : State) : Prop := exists cs, run cs initial = Some s.

End WithFormat.

(** The table has its declared length and the counter is within it; the
    created notifications have pairwise different keys; key, event and
    format of each fit their arrays. *)
Definition wf (s : State) : Prop :=
  Z.of_nat (length (notifications s)) = TRACKLE_MAX_NOTIFICATIONS_NUM
  /\ 0 <= numNotificationsCreated s <= TRACKLE_MAX_NOTIFICATIONS_NUM
  /\ (forall i j,
        0 <= i < numNotificationsCreated s -> 0 <= j < numNotificationsCreated s ->
        key (notification_at (notifications s) i)
        = key (notification_at (notifications s) j) -> i = j)
  /\ (forall i,
        0 <= i < numNotificationsCreated s ->
        let n := notification_at (notifications s) i in
        strlen (key n) < NOTIFICATION_NAME_LENGTH
        /\ strlen (event n) < NOTIFICATION_EVENT_LENGTH
        /\ strlen (format n) < NOTIFICATION_FORMAT_LENGTH).

(** The part of a notification that is given at creation. *)
Definition fixed_part (n : Notification_t)
  : string * string * string * bool * Z * Z * option (list (option string)) * Z :=
  (key n, event n, format n, sign n, scale n, numDecimals n, valueMap n, valueMapSize n).

(** What a call or a pass can do to the table: keep the counter and the
    fixed part of every created notification, or append one notification
    whose key is new and whose strings fit. *)
Definition table_step (s s' : State) : Prop :=
  length (notifications s') = length (notifications s)
  /\ ((numNotificationsCreated s' = numNotificationsCreated s
       /\ forall i,
           0 <= i < numNotificationsCreated s ->
           fixed_part (notification_at (notifications s') i)
           = fixed_part (notification_at (notifications s) i))
      \/ (numNotificationsCreated s' = numNotificationsCreated s + 1
          /\ numNotificationsCreated s < TRACKLE_MAX_NOTIFICATIONS_NUM
          /\ (forall i,
                0 <= i < numNotificationsCreated s ->
                notification_at (notifications s') i = notification_at (notifications s) i)
          /\ (let n := notification_at (notifications s') (numNotificationsCreated s) in
              (forall i, 0 <= i < numNotificationsCreated s ->
                         key (notification_at (notifications s) i) <> key n)
              /\ strlen (key n) < NOTIFICATION_NAME_LENGTH
              /\ strlen (event n) < NOTIFICATION_EVENT_LENGTH
              /\ strlen (format n) < NOTIFICATION_FORMAT_LENGTH))).

End Service.

(** ** Starting the tasks *)

Module Start.

(** Constants of FreeRTOS and of ESP-IDF, whose headers are not part of
    the sources at hand. *)
Class Constants := {
  pdTRUE : Z;
  ESP_OK : Z
}.

Section WithConstants.

Context {rtos : Constants}.

(** [Trackle_Props_startTask] (properties.c:252): its answer, from the
    result [taskCreationRes] of [xTaskCreatePinnedToCore]. *)
Definition Trackle_Props_startTask (taskCreationRes : Z) : bool :=
  taskCreationRes =? pdTRUE.

(** [Trackle_Notifications_startTask] (notifications.c:131), likewise. *)
Definition Trackle_Notifications_startTask (taskCreationRes : Z) : bool :=
  negb (taskCreationRes =? ESP_OK).

End WithConstants.

(** The values the two constants have in FreeRTOS and ESP-IDF. *)
Definition usual : Constants := {| pdTRUE := 1; ESP_OK := 0 |}.

End Start.

(** ** More concrete runs *)

Module Cases.

Import Props.

#[local] Existing Instance Demo.cfg.
#[local] Existing Instance Demo.ff.

(** [speed] alone in a group published every second only if changed,
    after a first pass that was published: nothing is left to publish. *)
Definition quiet_calls : list System.call :=
  [ System.PropCreate "speed" 1 0 false;
    System.GroupCreate 1000 true;
    System.GroupAddProp 1 1;
    System.StartTask 0;
    System.Pass true (fun _ => true) 100 ].

Definition quiet_system : System.System :=
  match System.run quiet_calls System.boot with
  | Some sys => sys
  | None => System.boot
  end.

Definition quiet_task : Task :=
  match System.task quiet_system with
  | Some t => t
  | None => mkTask EmptyString true
  end.

(** The plant with [spare] added to its first group. *)
Definition plant_grown : State * bool :=
  match Trackle_PropGroup_addProp Demo.plant 4 1 with
  | Some r => r
  | None => (Demo.plant, false)
  end.

(** A continuation of the quiet run: [speed] is set to 50, a property
    [temp] is created, and a pass at 1100 ms is published. *)
Definition later_calls : list System.call :=
  [ System.Update 500 1 50;
    System.PropCreate "temp" 100 2 true;
    System.Pass true (fun _ => true) 1100 ].

Definition later_system : System.System :=
  match System.run later_calls quiet_system with
  | Some sys => sys
  | None => quiet_system
  end.

(** The quiet run after [speed] was set to 50 at 500 ms and two passes
    that do not visit it: one at 600 ms, when its group is not due, and
    one run while disconnected at 700 ms. *)
Definition waited : State * Task :=
  match Layout.passes_without 0
          [(true, fun _ => true, 600); (false, fun _ => true, 700)]
          (fst (Trackle_Prop_update 500 (System.registry quiet_system) 1 50))
          quiet_task with
  | Some r => r
  | None => (System.registry quiet_system, quiet_task)
  end.

(** Two properties and two groups, [a] a member of both, with the task
    just started. *)
Definition shared_calls : list System.call :=
  [ System.PropCreate "a" 1 0 false;
    System.PropCreate "b" 1 0 false;
    System.GroupCreate 1000 true;
    System.GroupCreate 5000 true;
    System.GroupAddProp 1 1;
    System.GroupAddProp 1 2;
    System.GroupAddProp 2 2;
    System.StartTask 0 ].

Definition shared_system : System.System :=
  match System.run shared_calls System.boot with
  | Some sys => sys
  | None => System.boot
  end.

Definition shared_task : Task :=
  match System.task shared_system with
  | Some t => t
  | None => mkTask EmptyString true
  end.

(** Three notifications: [over] raised to level 1 with value 5, [door]
    never updated, and [mode], with a map of two state names, raised to
    level 2 in state 1. *)
Definition alerts_calls : list Service.call :=
  [ Service.Create "over" "machine/over" "%s:%u:%s" 1 0 false None 0;
    Service.Create "door" "machine/door" "%s:%u:%s" 1 0 false None 0;
    Service.Create "mode" "machine/mode" "%s:%u:%s" 1 0 false
      (Some [Some "idle"%string; Some "running"%string]) 2;
    Service.Update 1 1 5;
    Service.Update 3 2 1 ].

Definition alerts : Notifications.State :=
  match Service.run alerts_calls Notifications.initial with
  | Some s => s
  | None => Notifications.initial
  end.

(** A publish function that accepts the event of [over] only. *)
Definition over_only (eventName message : string) : bool :=
  String.eqb eventName "machine/over".

(** The calls that lead to the notification of the specification's
    scenario after its first update. *)
Definition over_calls : list Service.call :=
  [ Service.Create "over" "machine/over" "%s:%u:%s" 1 0 false None 0;
    Service.Update 1 1 5 ].

(** A continuation of the run of the plant: [spare] joins the first group
    and a pass at 1100 ms is published. *)
Definition grown_calls : list System.call :=
  [ System.GroupAddProp 4 1;
    System.Pass true (fun _ => true) 1100 ].

Definition grown_system : System.System :=
  match System.run grown_calls Demo.plant_system with
  | Some sys => sys
  | None => Demo.plant_system
  end.

End Cases.

(* ================================================================== *)
(** * Part II: properties of the embedding                              *)
(* ================================================================== *)

(** ** Arrays and strings *)

Lemma aget_aset_same {A} (d : A) (a : list A) (i : Z) (x : A) :
  0 <= i < Z.of_nat (length a) -> aget d (aset a i x) i = x.
Proof.
  intros Hi. unfold aget, aset.
  destruct (i <? 0) eqn:E; [lia|].
  rewrite list_lookup_insert_eq by lia. reflexivity.
Qed.

Lemma aget_aset_other {A} (d : A) (a : list A) (i j : Z) (x : A) :
  i <> j -> aget d (aset a i x) j = aget d a j.
Proof.
  intros Hne. unfold aget, aset.
  destruct (j <? 0) eqn:Ej; [reflexivity|].
  destruct (i <? 0) eqn:Ei; [reflexivity|].
  rewrite list_lookup_insert_ne by lia. reflexivity.
Qed.

Lemma aset_outside {A} (a : list A) (i : Z) (x : A) :
  ~ (0 <= i < Z.of_nat (length a)) -> aset a i x = a.
Proof.
  intros Hi. unfold aset.
  destruct (i <? 0) eqn:E; [reflexivity|].
  apply list_insert_ge. lia.
Qed.

Lemma length_aset {A} (a : list A) (i : Z) (x : A) :
  length (aset a i x) = length a.
Proof. unfold aset. destruct (i <? 0); [reflexivity|]. apply length_insert. Qed.

Lemma append_assoc (a b c : string) : (a +++ b) +++ c = a +++ (b +++ c).
Proof. induction a as [|ch a IH]; simpl; [reflexivity|]. now rewrite IH. Qed.

Lemma append_empty_r (a : string) : a +++ EmptyString = a.
Proof. induction a as [|ch a IH]; simpl; [reflexivity|]. now rewrite IH. Qed.

Lemma length_append (a b : string) :
  String.length (a +++ b) = (String.length a + String.length b)%nat.
Proof. induction a as [|ch a IH]; simpl; [reflexivity|]. now rewrite IH. Qed.

(** ** Properties registry *)

Module PropsFacts.

Import Int Libc Props.

(** The three wrapping operations of the branch taken after a roll-over
    amount to one subtraction modulo 2^32. *)
Lemma wrapped_difference (now start : Z) :
  u32 (u32 (u32 (now + UINT32_MAX) - start) + 1) = (now - start) mod 2 ^ 32.
Proof.
  unfold u32, UINT32_MAX, modulus32.
  change (2 ^ 32) with 4294967296.
  rewrite Zminus_mod_idemp_l, Zplus_mod_idemp_l.
  replace (now + 4294967295 - start + 1) with (now - start + 1 * 4294967296) by lia.
  apply Z_mod_plus_full.
Qed.

(** C4. For 32-bit unsigned [now], [start] and [delay], [isMsElapsed] answers
    true exactly when [(now - start) mod 2^32 >= delay]; in particular it
    answers true once [delay] milliseconds have passed although the counter
    wrapped and [now < start]. *)
Theorem isMsElapsed_wraparound (now start delay : Z) :
  in_u32 now -> in_u32 start -> in_u32 delay ->
  (isMsElapsed now start delay = true <-> delay <= (now - start) mod 2 ^ 32)
  /\ (now < start -> delay <= now + 2 ^ 32 - start ->
      isMsElapsed now start delay = true).
Proof.
  unfold in_u32, modulus32. intros Hn Hs Hd.
  assert (Hiff : isMsElapsed now start delay = true
                 <-> delay <= (now - start) mod 2 ^ 32).
  { unfold isMsElapsed. destruct (now <? start) eqn:E.
    - rewrite wrapped_difference. apply Z.leb_le.
    - unfold u32, modulus32. change (2 ^ 32) with 4294967296. apply Z.leb_le. }
  split; [exact Hiff|].
  intros Hlt Hle. apply Hiff.
  replace (now - start) with (now + 2 ^ 32 - start + (-1) * 2 ^ 32) by lia.
  rewrite Z_mod_plus_full, Z.mod_small; lia.
Qed.

Lemma isMsElapsed_wraparound_witness :
  in_u32 5 /\ in_u32 4294967290 /\ in_u32 10
  /\ (isMsElapsed 5 4294967290 10 = true <-> 10 <= (5 - 4294967290) mod 2 ^ 32)
  /\ (5 < 4294967290 -> 10 <= 5 + 2 ^ 32 - 4294967290 ->
      isMsElapsed 5 4294967290 10 = true).
Proof.
  assert (H5 : in_u32 5) by (unfold in_u32, modulus32; lia).
  assert (Hs : in_u32 4294967290) by (unfold in_u32, modulus32; lia).
  assert (Hd : in_u32 10) by (unfold in_u32, modulus32; lia).
  split; [exact H5|]. split; [exact Hs|]. split; [exact Hd|].
  exact (isMsElapsed_wraparound 5 4294967290 10 H5 Hs Hd).
Defined.

(** *** Updates *)

Section Updates.

Context {cfg : Config}.

(** C8. For a valid property handle, an update (numeric or string) whose
    value equals the stored one changes nothing: the whole registry, hence
    the changed flag, the debouncing flag, the latest-set time and the
    stored value of the property, is as before, and the call answers
    false. *)
Theorem update_with_stored_value_is_noop (nowMs : Z) (s : State) (propID : Z) :
  valid_index s (propID - 1) = true ->
  (forall v : Z,
      setValue (prop_at (props s) (propID - 1)) = v ->
      Trackle_Prop_update nowMs s propID v = (s, false))
  /\ (forall sv : string,
      setStringValue (prop_at (props s) (propID - 1)) = Some sv ->
      Trackle_Prop_updateString nowMs s propID (Some sv) = (s, false)).
Proof.
  intros Hvalid. split.
  - intros v Hv. unfold Trackle_Prop_update. rewrite Hvalid, Hv.
    rewrite Z.eqb_refl. reflexivity.
  - intros sv Hsv. unfold Trackle_Prop_updateString. rewrite Hvalid, Hsv.
    unfold streq. rewrite String.eqb_refl. reflexivity.
Qed.

End Updates.

Lemma update_with_stored_value_is_noop_witness :
  valid_index Demo.registry (1 - 1) = true
  /\ valid_index Demo.registry (2 - 1) = true
  /\ Trackle_Prop_update 150 Demo.registry 1 0 = (Demo.registry, false)
  /\ Trackle_Prop_updateString 150 Demo.registry 2 (Some EmptyString)
     = (Demo.registry, false).
Proof.
  split; [reflexivity|]. split; [reflexivity|]. split.
  - apply (update_with_stored_value_is_noop 150 Demo.registry 1); reflexivity.
  - apply (update_with_stored_value_is_noop 150 Demo.registry 2); reflexivity.
Defined.

(** *** Scenarios on the demo configuration *)

Section Scenarios.

#[local] Existing Instance Demo.cfg.
#[local] Existing Instance Demo.ff.

(** C1. A property staged in a pass whose batched publication fails keeps
    its changed flag, but is not staged again: [speed], set to 120, is
    staged at 1100 ms in a group that publishes only if changed; the
    publish call fails; the flag is still true, the value has already been
    recorded as last published, and at 2100 ms, with the group due again,
    nothing is handed to the publish call. *)
Theorem failed_publish_is_not_rebuilt :
  snd Demo.pass2_failed = Some ("{" +++ quoted "speed" +++ ":120}")
  /\ changed (prop_at (props (fst (fst Demo.pass2_failed))) 0) = true
  /\ lastPubValue (prop_at (props (fst (fst Demo.pass2_failed))) 0) = 120
  /\ onlyIfChanged (group_at (propGroups (fst (fst Demo.pass2_failed))) 0) = true
  /\ isMsElapsed 2100
       (latestWakeTimeMs (group_at (propGroups (fst (fst Demo.pass2_failed))) 0))
       (periodMs (group_at (propGroups (fst (fst Demo.pass2_failed))) 0)) = true
  /\ snd Demo.pass3 = None
  /\ changed (prop_at (props (fst (fst Demo.pass3))) 0) = true.
Proof. vm_compute. repeat split; reflexivity. Qed.

(** C2. In a batch, a plain integer (scale 1) whose sign flag is true is
    printed as an unsigned number and one whose sign flag is false as a
    signed number: with both set to -5, [temp] (created signed) appears as
    4294967291 and [count] (created unsigned) as -5. A notification prints
    the same value the other way round. *)
Theorem batch_sign_flag_is_inverted :
  sign (prop_at (props Demo.sensors) 0) = true
  /\ sign (prop_at (props Demo.sensors) 1) = false
  /\ setValue (prop_at (props Demo.sensors) 0) = -5
  /\ setValue (prop_at (props Demo.sensors) 1) = -5
  /\ scale (prop_at (props Demo.sensors) 0) = 1
  /\ scale (prop_at (props Demo.sensors) 1) = 1
  /\ snd Demo.sensors_pass
     = Some ("{" +++ quoted "temp" +++ ":4294967291," +++ quoted "count" +++ ":-5}")
  /\ @Notifications.valueBuffer Demo.ff (Demo.alarm true) = Some "-5"%string
  /\ @Notifications.valueBuffer Demo.ff (Demo.alarm false) = Some "4294967291"%string.
Proof. vm_compute. repeat split; reflexivity. Qed.

End Scenarios.

(** *** Group membership *)

Section Groups.

Context {cfg : Config}.

(** C3. The capacity test of [Trackle_PropGroup_addProp] looks at the group
    stored after the addressed one: with valid handles, when that next
    group holds [TRACKLE_MAX_PROPS_NUM - 1] members or more the call fails
    and changes nothing, whatever the addressed group contains; and for the
    last handle of the table the test reads past the table. *)
Theorem addProp_tests_the_next_group (s : State) (propId propGroupId : Z) :
  0 <= propGroupId - 1 < numPropGroupsCreated s ->
  0 <= propId - 1 < numPropsCreated s ->
  (forall gnext,
      propGroups s !! Z.to_nat propGroupId = Some gnext ->
      TRACKLE_MAX_PROPS_NUM - 1 <= propsWithin gnext ->
      Trackle_PropGroup_addProp s propId propGroupId = Some (s, false))
  /\ (propGroups s !! Z.to_nat propGroupId = None ->
      Trackle_PropGroup_addProp s propId propGroupId = None).
Proof.
  intros Hg Hp.
  assert (Hguard : (0 <=? propGroupId - 1) && (propGroupId - 1 <? numPropGroupsCreated s)
                   && (propId - 1 <? numPropsCreated s) && (0 <=? propId - 1) = true).
  { repeat (apply andb_true_intro; split); try apply Z.leb_le; try apply Z.ltb_lt; lia. }
  split.
  - intros gnext Hnext Hfull. unfold Trackle_PropGroup_addProp.
    rewrite Hguard, Hnext.
    destruct (propsWithin gnext <? TRACKLE_MAX_PROPS_NUM - 1) eqn:E; [|reflexivity].
    apply Z.ltb_lt in E. lia.
  - intros Hnone. unfold Trackle_PropGroup_addProp. rewrite Hguard, Hnone. reflexivity.
Qed.

End Groups.

Lemma addProp_tests_the_next_group_witness :
  0 <= 1 - 1 < numPropGroupsCreated Demo.crowded
  /\ 0 <= 1 - 1 < numPropsCreated Demo.crowded
  /\ propsWithin (group_at (cfg := Demo.cfg) (propGroups Demo.crowded) 0) = 0
  /\ propsWithin (group_at (cfg := Demo.cfg) (propGroups Demo.crowded) 1) = 3
  /\ Trackle_PropGroup_addProp (cfg := Demo.cfg) Demo.crowded 1 1
     = Some (Demo.crowded, false).
Proof.
  assert (Hg : 0 <= 1 - 1 < numPropGroupsCreated Demo.crowded) by (vm_compute; intuition discriminate).
  assert (Hp : 0 <= 1 - 1 < numPropsCreated Demo.crowded) by (vm_compute; intuition discriminate).
  split; [exact Hg|]. split; [exact Hp|].
  split; [reflexivity|]. split; [reflexivity|].
  apply (proj1 (addProp_tests_the_next_group (cfg := Demo.cfg) Demo.crowded 1 1 Hg Hp)
           (group_at (cfg := Demo.cfg) (propGroups Demo.crowded) 1)).
  - reflexivity.
  - vm_compute. discriminate.
Defined.

End PropsFacts.

(** ** Notifications registry *)

Module NotificationsFacts.

Import Int Libc Notifications.

(** C10. [Trackle_Notification_update] answers true for every handle in the
    valid range, also when the new level is the stored one; in that case
    the registry is left as it was (level, value and changed flag
    included), so the answer does not tell whether a publication was
    requested. *)
Theorem update_valid_handle_returns_true (s : State) (notificationID newLevel value_ : Z) :
  valid_index s (notificationID - 1) = true ->
  snd (Trackle_Notification_update s notificationID newLevel value_) = true
  /\ (level (notification_at (notifications s) (notificationID - 1)) = newLevel ->
      Trackle_Notification_update s notificationID newLevel value_ = (s, true)).
Proof.
  intros Hvalid. unfold Trackle_Notification_update. rewrite Hvalid. split.
  - destruct (negb _); reflexivity.
  - intros Hlevel. rewrite Hlevel, Z.eqb_refl. reflexivity.
Qed.

Lemma update_valid_handle_returns_true_witness :
  valid_index Demo.over_raised (1 - 1) = true
  /\ snd (Trackle_Notification_update Demo.over_raised 1 1 77) = true
  /\ Trackle_Notification_update Demo.over_raised 1 1 77 = (Demo.over_raised, true).
Proof.
  assert (Hv : valid_index Demo.over_raised (1 - 1) = true) by reflexivity.
  split; [exact Hv|].
  destruct (update_valid_handle_returns_true Demo.over_raised 1 1 77 Hv) as [Htrue Hsame].
  split; [exact Htrue|]. apply Hsame. reflexivity.
Defined.


(** *** Rendering of the value *)

Lemma substring_whole (s : string) (n : nat) :
  (String.length s <= n)%nat -> String.substring 0 n s = s.
Proof.
  revert n. induction s as [|c s IH]; intros n Hn.
  - destruct n; reflexivity.
  - destruct n as [|n]; simpl in *; [lia|]. rewrite IH by lia. reflexivity.
Qed.

Lemma length_quoted (s : string) :
  String.length (quoted s) = S (S (String.length s)).
Proof. unfold quoted, dquote. simpl. rewrite length_append. simpl. lia. Qed.

Section Rendering.

Context {ff : FloatFormat}.

(** C9, as the code has it. With a map attached, a size above 0 and the
    value inside [0, size): a mapped string is put between double quotes
    and cut to the 31 characters the value buffer can hold, so it is whole
    when it has at most 29 characters; a mapped entry that is a null
    pointer gives the integer text by the sign flag, whatever the scale.
    With no map, a size of 0 or the value outside the range, the rendering
    is numeric: integer by the sign flag when the scale is 1, fixed point
    with [numDecimals] digits otherwise. The numeric texts are written
    without a bound: they are what the buffer holds provided they fit
    it. *)
Theorem valueBuffer_rendering (n : Notification_t) :
  (forall map,
      valueMap n = Some map -> 0 < valueMapSize n ->
      0 <= value n < valueMapSize n ->
      (forall s, map !! Z.to_nat (value n) = Some (Some s) ->
                 valueBuffer n = Some (snprintf_trunc VALUE_BUFFER_LEN (quoted s))
                 /\ (strlen s <= 29 -> valueBuffer n = Some (quoted s)))
      /\ (map !! Z.to_nat (value n) = Some None ->
          Bounds.value_fits (integer_text n) ->
          valueBuffer n = Some (integer_text n)))
  /\ (valueMap n = None \/ valueMapSize n <= 0 \/ value n < 0
      \/ valueMapSize n <= value n ->
      Bounds.value_fits (numeric_rendering n) ->
      valueBuffer n = Some (numeric_rendering n)).
Proof.
  split.
  - intros map Hmap Hsize Hrange.
    assert (Hguard : (0 <? valueMapSize n) && (0 <=? value n)
                     && (value n <? valueMapSize n) = true).
    { repeat (apply andb_true_intro; split);
        try apply Z.leb_le; try apply Z.ltb_lt; lia. }
    split.
    + intros s Hs.
      assert (Hbuf : valueBuffer n = Some (snprintf_trunc VALUE_BUFFER_LEN (quoted s))).
      { unfold valueBuffer. rewrite Hmap, Hguard, Hs. reflexivity. }
      split; [exact Hbuf|].
      intros Hshort. rewrite Hbuf. f_equal.
      unfold snprintf_trunc, VALUE_BUFFER_LEN. apply substring_whole.
      rewrite length_quoted. unfold strlen in Hshort. lia.
    + intros Hnull _. unfold valueBuffer. rewrite Hmap, Hguard, Hnull. reflexivity.
  - intros Hout _. unfold valueBuffer, numeric_rendering.
    destruct (valueMap n) as [map|]; [|destruct (scale n =? 1); reflexivity].
    assert (Hguard : (0 <? valueMapSize n) && (0 <=? value n)
                     && (value n <? valueMapSize n) = false).
    { destruct Hout as [Hnone|[Hsize|[Hneg|Hbig]]]; [discriminate| | |].
      - replace (0 <? valueMapSize n) with false; [reflexivity|].
        symmetry. apply Z.ltb_ge. lia.
      - replace (0 <=? value n) with false; [apply andb_false_iff; left; apply andb_false_r|].
        symmetry. apply Z.leb_gt. lia.
      - replace (value n <? valueMapSize n) with false; [apply andb_false_r|].
        symmetry. apply Z.ltb_ge. lia. }
    rewrite Hguard. destruct (scale n =? 1); reflexivity.
Qed.

End Rendering.

Lemma valueBuffer_rendering_witness :
  @valueBuffer Demo.ff Demo.mapped_short = Some (quoted "running")
  /\ @valueBuffer Demo.ff Demo.mapped_null = Some "0"%string
  /\ @valueBuffer Demo.ff Demo.unmapped_scaled
     = Some (@sprintf_fixed Demo.ff 2 8750 100).
Proof.
  split; [|split].
  - apply (proj1 (valueBuffer_rendering (ff := Demo.ff) Demo.mapped_short)
             [Some "idle"%string; Some "running"%string]);
      [reflexivity | reflexivity | vm_compute; intuition discriminate
      | reflexivity | vm_compute; discriminate].
  - apply (proj1 (valueBuffer_rendering (ff := Demo.ff) Demo.mapped_null) [None]);
      [reflexivity | reflexivity | vm_compute; intuition discriminate | reflexivity
      | vm_compute; reflexivity].
  - apply (proj2 (valueBuffer_rendering (ff := Demo.ff) Demo.unmapped_scaled)).
    + left. reflexivity.
    + vm_compute. reflexivity.
Defined.

(** C9 as worded does not hold: a mapped string of 30 characters loses its
    closing quote, and a null entry under a scale of 100 is printed as the
    stored integer, 0 or 1, not divided by the scale and not with two
    decimals, although the header gives the value of a notification as the
    stored integer divided by the scale and the sign flag as read only
    under a scale of 1. *)
Lemma valueBuffer_not_always_quoted_or_fixed_point :
  (valueMap Demo.mapped_long = Some [Some Demo.long_name]
   /\ @valueBuffer Demo.ff Demo.mapped_long = Some (dquote +++ Demo.long_name)
   /\ @valueBuffer Demo.ff Demo.mapped_long <> Some (quoted Demo.long_name))
  /\ (valueMap Demo.mapped_null = Some [None]
      /\ scale Demo.mapped_null = 100
      /\ @valueBuffer Demo.ff Demo.mapped_null = Some "0"%string
      /\ @valueBuffer Demo.ff Demo.mapped_null
         <> Some (@sprintf_fixed Demo.ff (numDecimals Demo.mapped_null)
                    (value Demo.mapped_null) (scale Demo.mapped_null)))
  /\ (valueMap Demo.mapped_gap = Some [Some "idle"%string; None]
      /\ scale Demo.mapped_gap = 100
      /\ value Demo.mapped_gap = 1
      /\ @valueBuffer Demo.ff Demo.mapped_gap = Some "1"%string
      /\ @numeric_rendering Demo.ff Demo.mapped_gap
         = @sprintf_fixed Demo.ff 2 1 100
      /\ @valueBuffer Demo.ff Demo.mapped_gap
         <> Some (@numeric_rendering Demo.ff Demo.mapped_gap)).
Proof.
  split; [|split].
  - split; [reflexivity|]. split; [reflexivity|]. vm_compute. discriminate.
  - split; [reflexivity|]. split; [reflexivity|]. split; [reflexivity|].
    vm_compute. discriminate.
  - split; [reflexivity|]. split; [reflexivity|]. split; [reflexivity|].
    split; [reflexivity|]. split; [reflexivity|]. vm_compute. discriminate.
Qed.


(** *** The periodic pass *)

Section Pass.

Context {ff : FloatFormat}.

Lemma pass_without_result (publish : string -> string -> bool) (l : list Z) :
  fold_left (notification_body publish) l None = None.
Proof. induction l as [|i l IH]; simpl; [reflexivity|exact IH]. Qed.

Lemma failed_publications_keep_registry (l : list Z) :
  forall ns out r,
    fold_left (notification_body (fun _ _ => false)) l (Some (ns, out)) = Some r ->
    fst r = ns.
Proof.
  induction l as [|i l IH]; intros ns out r H; simpl in H.
  - injection H as <-. reflexivity.
  - destruct (changed (notification_at ns i)).
    + destruct (makeMessageStringFromNotification ns i) as [m|].
      * apply IH in H. exact H.
      * rewrite pass_without_result in H. discriminate.
    + apply IH in H. exact H.
Qed.

(** The notification task retries: a pass in which every publication fails
    leaves the registry as it was, so the next pass renders the same
    messages again. *)
Lemma failed_pass_is_retried (s s' : State) (out : list (string * string)) :
  tick (fun _ _ => false) s = Some (s', out) -> s' = s.
Proof.
  unfold tick, for_loop. intros H.
  destruct (fold_left _ _ _) as [[ns o]|] eqn:E; [|discriminate].
  injection H as <- <-.
  apply failed_publications_keep_registry in E. simpl in E. subst ns.
  destruct s; reflexivity.
Qed.

End Pass.

(** The scenario of the specification: level 1 with value 5 gives the
    message [over:1:5], and again after a failed publication. *)
Example over_message :
  @tick Demo.ff (fun _ _ => false) Demo.over_raised
  = Some (Demo.over_raised, [("machine/over"%string, "over:1:5"%string)]).
Proof. reflexivity. Qed.

End NotificationsFacts.

(** ** Both registries *)

Module RegistryFacts.

Import Int Libc.

Section Creation.

Context {cfg : Props.Config}.



End Creation.




(** *** Accessors on a handle that names nothing *)

(** C7, as the code has it. For a handle outside [1 .. number created],
    the key accessors return the empty string, the value and level
    accessors -1, the boolean accessors false (the string accessor without
    writing to its buffer), and the scale and number-of-decimals accessors
    0. *)
Theorem invalid_handle_results (s : Props.State) (ns : Notifications.State)
  (handle retValueMaxLen : Z) :
  (~ (1 <= handle <= Props.numPropsCreated s) ->
   Props.Trackle_Prop_getKey s handle = EmptyString
   /\ Props.Trackle_Prop_getValue s handle = -1
   /\ Props.Trackle_Prop_getStringValue s handle retValueMaxLen = (false, None)
   /\ Props.Trackle_Prop_isDisabled s handle = false
   /\ Props.Trackle_Prop_isSigned s handle = false
   /\ Props.Trackle_Prop_getScale s handle = 0
   /\ Props.Trackle_Prop_getNumberOfDecimals s handle = 0)
  /\ (~ (1 <= handle <= Notifications.numNotificationsCreated ns) ->
      Notifications.Trackle_Notification_getKey ns handle = EmptyString
      /\ Notifications.Trackle_Notification_getLevel ns handle = -1
      /\ Notifications.Trackle_Notification_getValue ns handle = -1).
Proof.
  split.
  - intros Hout.
    assert (Hv : Props.valid_index s (handle - 1) = false).
    { unfold Props.valid_index. apply andb_false_iff.
      destruct (Z_le_gt_dec 1 handle);
        [right; apply Z.ltb_ge | left; apply Z.leb_gt]; lia. }
    unfold Props.Trackle_Prop_getKey, Props.Trackle_Prop_getValue,
      Props.Trackle_Prop_getStringValue, Props.Trackle_Prop_isDisabled,
      Props.Trackle_Prop_isSigned, Props.Trackle_Prop_getScale,
      Props.Trackle_Prop_getNumberOfDecimals.
    rewrite Hv. repeat split; reflexivity.
  - intros Hout.
    assert (Hv : Notifications.valid_index ns (handle - 1) = false).
    { unfold Notifications.valid_index. apply andb_false_iff.
      destruct (Z_le_gt_dec 1 handle);
        [right; apply Z.ltb_ge | left; apply Z.leb_gt]; lia. }
    unfold Notifications.Trackle_Notification_getKey,
      Notifications.Trackle_Notification_getLevel,
      Notifications.Trackle_Notification_getValue.
    rewrite Hv. repeat split; reflexivity.
Qed.

Lemma invalid_handle_results_witness :
  ~ (1 <= 7 <= Props.numPropsCreated Demo.registry)
  /\ Props.Trackle_Prop_getKey Demo.registry 7 = EmptyString
  /\ Props.Trackle_Prop_getScale Demo.registry 7 = 0
  /\ ~ (1 <= 7 <= Notifications.numNotificationsCreated Demo.over_raised)
  /\ Notifications.Trackle_Notification_getLevel Demo.over_raised 7 = -1.
Proof.
  assert (Hp : ~ (1 <= 7 <= Props.numPropsCreated Demo.registry)).
  { vm_compute. intros [_ H]. apply H. reflexivity. }
  assert (Hn : ~ (1 <= 7 <= Notifications.numNotificationsCreated Demo.over_raised)).
  { vm_compute. intros [_ H]. apply H. reflexivity. }
  destruct (invalid_handle_results Demo.registry Demo.over_raised 7 16) as [HP HN].
  destruct (HP Hp) as (Hkey & _ & _ & _ & _ & Hscale & _).
  destruct (HN Hn) as (_ & Hlevel & _).
  repeat split; assumption.
Defined.

(** C7 as worded does not hold for two accessors: on the handle 0 of an
    empty registry the scale and the number of decimals come back as 0,
    which is none of the empty string, -1 and false. *)
Lemma scale_and_decimals_answer_zero :
  ~ (1 <= 0 <= Props.numPropsCreated (Props.initial (cfg := Demo.cfg)))
  /\ Props.Trackle_Prop_getScale (Props.initial (cfg := Demo.cfg)) 0 = 0
  /\ documented_sentinel
       (RInt (Props.Trackle_Prop_getScale (Props.initial (cfg := Demo.cfg)) 0)) = false
  /\ Props.Trackle_Prop_getNumberOfDecimals (Props.initial (cfg := Demo.cfg)) 0 = 0
  /\ documented_sentinel
       (RInt (Props.Trackle_Prop_getNumberOfDecimals (Props.initial (cfg := Demo.cfg)) 0))
     = false.
Proof.
  split; [lia|]. repeat split; reflexivity.
Qed.

End RegistryFacts.

(** ** The pass of the properties task *)

Module SchedulerFacts.

Import Int Libc Props Batch.

Section WithConfig.

Context {cfg : Config} {ff : FloatFormat}.

Lemma aset_aset {A} (a : list A) (i : Z) (x y : A) :
  aset (aset a i x) i y = aset a i y.
Proof.
  unfold aset. destruct (i <? 0); [reflexivity|]. apply list_insert_insert_eq.
Qed.

Lemma aset_aget {A} (d : A) (a : list A) (i : Z) :
  0 <= i < Z.of_nat (length a) -> aset a i (aget d a i) = a.
Proof.
  intros Hi. unfold aset, aget. destruct (i <? 0) eqn:E; [lia|].
  destruct (lookup_lt_is_Some_2 a (Z.to_nat i)) as [x Hx]; [lia|].
  rewrite Hx. simpl. apply list_insert_id. exact Hx.
Qed.

Lemma prop_at_aset_same (ps : list Prop_t) (k : Z) (p : Prop_t) :
  in_range ps k -> prop_at (aset ps k p) k = p.
Proof. intros Hk. apply aget_aset_same. exact Hk. Qed.

Lemma prop_at_aset_other (ps : list Prop_t) (k j : Z) (p : Prop_t) :
  k <> j -> prop_at (aset ps k p) j = prop_at ps j.
Proof. intros Hne. apply aget_aset_other. exact Hne. Qed.

Lemma in_range_aset (ps : list Prop_t) (k j : Z) (p : Prop_t) :
  in_range (aset ps k p) j <-> in_range ps j.
Proof. unfold in_range. rewrite length_aset. reflexivity. Qed.

(** Two field assignments in a row on the same element. *)
Lemma upd_prop_twice (ps : list Prop_t) (k : Z) (f g : Prop_t -> Prop_t) :
  in_range ps k ->
  upd_prop (upd_prop ps k f) k g = aset ps k (g (f (prop_at ps k))).
Proof.
  intros Hk. unfold upd_prop. rewrite prop_at_aset_same by exact Hk.
  apply aset_aset.
Qed.

(** The promotion in the member loop, on the array. *)
Lemma promotion_on_array (nowMs : Z) (ps : list Prop_t) (k : Z) :
  in_range ps k ->
  (if debouncing (prop_at ps k)
      && isMsElapsed nowMs (latestSetTimeMs (prop_at ps k)) (debounceDelayMs (prop_at ps k))
   then upd_prop (upd_prop ps k (set_debouncing false)) k (set_changed true)
   else ps)
  = aset ps k (promoted nowMs (prop_at ps k)).
Proof.
  intros Hk. unfold promoted.
  destruct (debouncing (prop_at ps k) && _).
  - apply upd_prop_twice. exact Hk.
  - symmetry. apply aset_aget. exact Hk.
Qed.

Lemma equal_to_last_sent_on_array (ps : list Prop_t) (k : Z) :
  isSetValueEqualToLastSent ps k = negb (value_differs (prop_at ps k)).
Proof.
  unfold isSetValueEqualToLastSent, value_differs.
  destruct (setStringValue (prop_at ps k)) as [sv|].
  - destruct (lastPubStringValue (prop_at ps k)) as [lv|]; [|reflexivity].
    rewrite negb_involutive. reflexivity.
  - rewrite negb_involutive. reflexivity.
Qed.

Lemma snapshot_on_array (ps : list Prop_t) (k : Z) :
  in_range ps k ->
  updateLastSentToSetValue ps k = aset ps k (snapshot (prop_at ps k)).
Proof.
  intros Hk. unfold updateLastSentToSetValue, snapshot, upd_prop.
  destruct (setStringValue (prop_at ps k)); reflexivity.
Qed.

(** The body of the member loop, told on the record of the member. *)
Lemma member_body_on_record (nowMs : Z) (oic fr : bool) (ps : list Prop_t)
  (buf : string) (tp : bool) (k : Z) :
  in_range ps k ->
  member_body nowMs oic fr (ps, buf, tp) k
  = let p := promoted nowMs (prop_at ps k) in
    if must_stage oic fr p
    then (aset ps k (stage_record p), fst (emit (buf, tp) (member_text p)), true)
    else (aset ps k p, buf, tp).
Proof.
  intros Hk. unfold member_body.
  rewrite promotion_on_array by exact Hk.
  rewrite equal_to_last_sent_on_array.
  rewrite !prop_at_aset_same by exact Hk.
  cbv zeta. unfold must_stage.
  destruct (negb (disabled (promoted nowMs (prop_at ps k)))
            && ((changed (promoted nowMs (prop_at ps k))
                 && negb (negb (value_differs (promoted nowMs (prop_at ps k)))))
                || negb oic || fr)) eqn:E;
    rewrite negb_involutive in E; rewrite E; [|reflexivity].
  f_equal. f_equal.
  - rewrite snapshot_on_array by (apply in_range_aset; apply in_range_aset; exact Hk).
    unfold upd_prop. rewrite !prop_at_aset_same
      by (try (apply in_range_aset); try (apply in_range_aset); exact Hk).
    rewrite !aset_aset. reflexivity.
  - unfold appendPropertyToJsonString, emit. simpl.
    rewrite prop_at_aset_same by exact Hk. reflexivity.
Qed.


(** The promotion does not touch what is printed. *)
Lemma member_text_promoted (nowMs : Z) (p : Prop_t) :
  member_text (promoted nowMs p) = member_text p.
Proof. unfold promoted. destruct (debouncing p && _); reflexivity. Qed.

Lemma emit_flag (acc : string * bool) (text : string) :
  emit acc text = (fst (emit acc text), true).
Proof. reflexivity. Qed.

(** *** Records during a pass *)

Lemma promoted_idempotent (nowMs : Z) (p : Prop_t) :
  promoted nowMs (promoted nowMs p) = promoted nowMs p.
Proof.
  unfold promoted at 2 3.
  destruct (debouncing p && isMsElapsed nowMs (latestSetTimeMs p) (debounceDelayMs p)) eqn:E.
  - reflexivity.
  - unfold promoted. rewrite E. reflexivity.
Qed.

Lemma promoted_stage_record (nowMs : Z) (p : Prop_t) :
  promoted nowMs (stage_record p) = stage_record (promoted nowMs p).
Proof.
  destruct p as [k c sg lp sv sc d nd tp lps svs ml db lt dd].
  unfold promoted, stage_record, snapshot. cbn.
  destruct svs; cbn; destruct (db && isMsElapsed nowMs lt dd); reflexivity.
Qed.

Lemma stage_record_idempotent (p : Prop_t) :
  stage_record (stage_record p) = stage_record p.
Proof.
  destruct p as [k c sg lp sv sc d nd tp lps svs ml db lt dd].
  unfold stage_record, snapshot. cbn. destruct svs; reflexivity.
Qed.

Lemma stage_record_fields (p : Prop_t) :
  disabled (stage_record p) = disabled p
  /\ changed (stage_record p) = changed p
  /\ value_differs (stage_record p) = false
  /\ setToPublish (stage_record p) = true
  /\ member_text (stage_record p) = member_text p.
Proof.
  destruct p as [k c sg lp sv sc d nd tp lps svs ml db lt dd].
  unfold stage_record, snapshot, value_differs, member_text. cbn.
  destruct svs as [x|]; cbn; repeat split; try reflexivity.
  - unfold streq. rewrite String.eqb_refl. reflexivity.
  - rewrite Z.eqb_refl. reflexivity.
Qed.

(** The record the test of a visit reads, after the promotion. *)
Lemma promoted_record_after (nowMs : Z) (p0 : Prop_t) (a v : bool) :
  promoted nowMs (record_after nowMs p0 a v) = record_after nowMs p0 a true.
Proof.
  unfold record_after. destruct a.
  - rewrite promoted_stage_record, promoted_idempotent. reflexivity.
  - destruct v; [apply promoted_idempotent|reflexivity].
Qed.

Lemma member_text_record_after (nowMs : Z) (p0 : Prop_t) (a v : bool) :
  member_text (record_after nowMs p0 a v) = member_text p0.
Proof.
  unfold record_after. destruct a.
  - rewrite (proj2 (proj2 (proj2 (proj2 (stage_record_fields _))))).
    apply member_text_promoted.
  - destruct v; [apply member_text_promoted|reflexivity].
Qed.

(** The test of a visit, on the record the pass began with. *)
Lemma must_stage_record_after (nowMs : Z) (oic fr : bool) (p0 : Prop_t) (a : bool) :
  must_stage oic fr (record_after nowMs p0 a true)
  = negb (disabled (promoted nowMs p0))
    && ((changed (promoted nowMs p0) && (value_differs (promoted nowMs p0) && negb a))
        || negb oic || fr).
Proof.
  unfold record_after, must_stage. destruct a.
  - destruct (stage_record_fields (promoted nowMs p0)) as (-> & -> & -> & _).
    rewrite !andb_false_r. reflexivity.
  - rewrite andb_true_r. reflexivity.
Qed.

Lemma stage_record_after (nowMs : Z) (p0 : Prop_t) (a d : bool) :
  (if d then stage_record (record_after nowMs p0 a true) else record_after nowMs p0 a true)
  = record_after nowMs p0 (a || d) true.
Proof.
  unfold record_after. destruct a, d; cbn; try reflexivity.
  apply stage_record_idempotent.
Qed.

Lemma mem_cons (j k : Z) (l : list Z) : mem j (k :: l) = (j =? k) || mem j l.
Proof. reflexivity. Qed.

Lemma mem_In (k : Z) (l : list Z) : mem k l = true <-> In k l.
Proof.
  unfold mem. rewrite List.existsb_exists. split.
  - intros (x & Hx & Heq). apply Z.eqb_eq in Heq. subst x. exact Hx.
  - intros Hk. exists k. split; [exact Hk|apply Z.eqb_refl].
Qed.

Lemma staged_visits_cons (nowMs : Z) (fr : bool) (ps : list Prop_t) (al : list Z)
  (oic : bool) (k : Z) (vs : list (bool * Z)) :
  staged_visits nowMs fr ps al ((oic, k) :: vs)
  = if negb (disabled (promoted nowMs (prop_at ps k)))
       && ((changed (promoted nowMs (prop_at ps k))
            && (value_differs (promoted nowMs (prop_at ps k)) && negb (mem k al)))
           || negb oic || fr)
    then k :: staged_visits nowMs fr ps (k :: al) vs
    else staged_visits nowMs fr ps al vs.
Proof. reflexivity. Qed.

(** A run of visits, told from the array the pass began with: [al] are the
    members staged and [vis] the members visited before the run. *)
Lemma visits_from_pass_start (nowMs : Z) (fr : bool) (ps0 : list Prop_t)
  (vs : list (bool * Z)) :
  forall ps al vis buf tp ps' buf' tp',
    length ps = length ps0 ->
    (forall k, prop_at ps k = record_after nowMs (prop_at ps0 k) (mem k al) (mem k vis)) ->
    List.Forall (in_range ps0) (map snd vs) ->
    fold_left (visit nowMs fr) vs (ps, buf, tp) = (ps', buf', tp') ->
    (buf', tp')
    = fold_left emit
        (map (fun k => member_text (prop_at ps0 k)) (staged_visits nowMs fr ps0 al vs))
        (buf, tp)
    /\ length ps' = length ps0
    /\ (forall k,
          prop_at ps' k
          = record_after nowMs (prop_at ps0 k)
              (mem k al || mem k (staged_visits nowMs fr ps0 al vs))
              (mem k vis || mem k (map snd vs))).
Proof.
  induction vs as [|[oic k] vs IH]; intros ps al vis buf tp ps' buf' tp' Hlen Hrec Hin Hfold.
  - cbn in Hfold. injection Hfold as <- <- <-.
    split; [reflexivity|]. split; [exact Hlen|].
    intros k. cbn. rewrite !orb_false_r. apply Hrec.
  - cbn [map] in Hin. apply List.Forall_cons_iff in Hin as [Hk0 Hin].
    assert (Hk : in_range ps k) by (unfold in_range in *; rewrite Hlen; exact Hk0).
    cbn [fold_left] in Hfold. unfold visit at 2 in Hfold. cbn [fst snd] in Hfold.
    rewrite member_body_on_record in Hfold by exact Hk. cbv zeta in Hfold.
    rewrite (Hrec k), promoted_record_after, must_stage_record_after in Hfold.
    rewrite staged_visits_cons.
    set (d := negb (disabled (promoted nowMs (prop_at ps0 k)))
              && ((changed (promoted nowMs (prop_at ps0 k))
                   && (value_differs (promoted nowMs (prop_at ps0 k)) && negb (mem k al)))
                  || negb oic || fr)) in *.
    assert (Hrec1 : forall x j,
               x = record_after nowMs (prop_at ps0 k) (mem k al || d) true ->
               prop_at (aset ps k x) j
               = record_after nowMs (prop_at ps0 j)
                   (mem j (if d then k :: al else al)) (mem j (k :: vis))).
    { intros x j ->. destruct (Z.eq_dec k j) as [<-|Hne].
      - rewrite prop_at_aset_same by exact Hk. rewrite mem_cons, Z.eqb_refl. cbn [orb].
        destruct d; [rewrite mem_cons, Z.eqb_refl, orb_true_r|rewrite orb_false_r];
          reflexivity.
      - rewrite prop_at_aset_other by exact Hne. rewrite Hrec.
        assert (Hjk : (j =? k) = false) by (apply Z.eqb_neq; congruence).
        rewrite mem_cons, Hjk. cbn [orb].
        destruct d; [rewrite mem_cons, Hjk|]; reflexivity. }
    destruct d eqn:Ed.
    + pose proof (stage_record_after nowMs (prop_at ps0 k) (mem k al) true) as Hst.
      cbv iota in Hst. rewrite Hst in Hfold.
      apply IH with (al := k :: al) (vis := k :: vis) in Hfold
        as (Hbuf & Hlen' & Hrec');
        [|rewrite length_aset; exact Hlen|intros j; apply Hrec1; reflexivity|exact Hin].
      split; [|split; [exact Hlen'|]].
      * cbn [map fold_left]. rewrite emit_flag, member_text_record_after in Hbuf.
        exact Hbuf.
      * intros j. rewrite Hrec'. cbn [map snd]. rewrite !mem_cons.
        f_equal; destruct (j =? k), (mem j al), (mem j vis); cbn;
          try reflexivity; rewrite ?orb_true_r; reflexivity.
    + pose proof (stage_record_after nowMs (prop_at ps0 k) (mem k al) false) as Hst.
      cbv iota in Hst. rewrite Hst in Hfold.
      apply IH with (al := al) (vis := k :: vis) in Hfold
        as (Hbuf & Hlen' & Hrec');
        [|rewrite length_aset; exact Hlen|intros j; apply Hrec1; reflexivity|exact Hin].
      split; [exact Hbuf|]. split; [exact Hlen'|].
      intros j. rewrite Hrec'. cbn [map snd]. rewrite !mem_cons.
      f_equal; destruct (j =? k), (mem j vis); cbn;
        try reflexivity; rewrite ?orb_true_r; reflexivity.
Qed.

(** When no member is visited twice, every decision is the inclusion rule
    read off the registry as the pass found it. *)
Lemma stages_at_fresh (nowMs : Z) (fr : bool) (ps : list Prop_t) (al : list Z)
  (v : bool * Z) :
  mem (snd v) al = false -> stages_at nowMs fr ps al v = stages nowMs fr ps v.
Proof.
  intros H. unfold stages_at, stages, must_stage. rewrite H. cbn [negb].
  rewrite andb_true_r. reflexivity.
Qed.

Lemma staged_visits_distinct (nowMs : Z) (fr : bool) (ps : list Prop_t)
  (vs : list (bool * Z)) :
  forall al,
    List.NoDup (map snd vs) ->
    (forall v, In v vs -> mem (snd v) al = false) ->
    staged_visits nowMs fr ps al vs = map snd (List.filter (stages nowMs fr ps) vs).
Proof.
  induction vs as [|v vs IH]; intros al Hnd Hfresh; [reflexivity|].
  cbn [map] in Hnd. apply List.NoDup_cons_iff in Hnd as [Hv Hnd].
  cbn [staged_visits List.filter].
  rewrite stages_at_fresh by (apply Hfresh; left; reflexivity).
  destruct (stages nowMs fr ps v).
  - cbn [map]. f_equal. apply IH; [exact Hnd|].
    intros w Hw. rewrite mem_cons, (Hfresh w) by (right; exact Hw).
    rewrite orb_false_r. apply Z.eqb_neq. intros Heq. apply Hv. rewrite <- Heq.
    apply List.in_map. exact Hw.
  - apply IH; [exact Hnd|]. intros w Hw. apply Hfresh. right. exact Hw.
Qed.

(** *** The buffer *)

Lemma strlen_append (a b : string) : strlen (a +++ b) = strlen a + strlen b.
Proof. unfold strlen. rewrite length_append. lia. Qed.

Lemma strlen_nonneg (a : string) : 0 <= strlen a.
Proof. unfold strlen. lia. Qed.

Lemma member_text_nonempty (p : Prop_t) : 2 <= strlen (member_text p).
Proof.
  assert (Hq : forall s rest, 2 <= strlen (quoted s +++ rest)).
  { intros s rest. rewrite strlen_append. unfold quoted.
    rewrite !strlen_append. change (strlen dquote) with 1.
    pose proof (strlen_nonneg s). pose proof (strlen_nonneg rest). lia. }
  unfold member_text.
  destruct (setStringValue p); [apply Hq|].
  destruct (scale p =? 1); [|apply Hq].
  destruct (sign p); apply Hq.
Qed.

(** Once the buffer holds more than the brace, every further member is
    preceded by a comma. *)
Lemma emit_after_first (ts : list string) :
  forall buf t,
    1 < strlen (buf +++ t) ->
    fold_left emit ts (buf +++ t, true) = (buf +++ String.concat "," (t :: ts), true).
Proof.
  induction ts as [|t1 ts IH]; intros buf t Hlen.
  - reflexivity.
  - cbn [fold_left]. unfold emit at 2. cbn [fst snd].
    destruct (1 <? strlen (buf +++ t)) eqn:E; [|apply Z.ltb_ge in E; lia].
    replace (((buf +++ t) +++ ",") +++ t1) with ((buf +++ t +++ ",") +++ t1)
      by (rewrite !append_assoc; reflexivity).
    rewrite IH.
    + rewrite !append_assoc. reflexivity.
    + rewrite !strlen_append in *.
      pose proof (strlen_nonneg t1). pose proof (strlen_nonneg ",").
      lia.
Qed.

(** From the empty buffer: nothing when no member is staged, otherwise one
    brace and the members separated by commas. *)
Lemma emit_from_empty (ts : list string) :
  List.Forall (fun t => 2 <= strlen t) ts ->
  fold_left emit ts (EmptyString, false)
  = match ts with
    | [] => (EmptyString, false)
    | _ :: _ => ("{" +++ String.concat "," ts, true)
    end.
Proof.
  destruct ts as [|t ts]; intros Hts; [reflexivity|].
  apply List.Forall_cons_iff in Hts as [Ht _].
  cbn [fold_left]. unfold emit at 2. cbn [fst snd].
  change (EmptyString +++ "{") with "{"%string.
  change (1 <? strlen "{") with false. cbv iota.
  apply emit_after_first. rewrite strlen_append. change (strlen "{") with 1. lia.
Qed.

(** *** The two loops as one run of visits *)

Lemma fold_left_map {A B C} (f : A -> B -> A) (h : C -> B) (l : list C) (a : A) :
  fold_left f (map h l) a = fold_left (fun a x => f a (h x)) l a.
Proof. revert a. induction l as [|x l IH]; intros a; simpl; [reflexivity|apply IH]. Qed.

Lemma fold_left_ext {A B} (f g : A -> B -> A) (l : list B) (a : A) :
  (forall a x, f a x = g a x) -> fold_left f l a = fold_left g l a.
Proof.
  intros H. revert a. induction l as [|x l IH]; intros a; simpl; [reflexivity|].
  rewrite H. apply IH.
Qed.

Lemma flat_map_ext_in {A B} (f g : A -> list B) (l : list A) :
  (forall x, In x l -> f x = g x) -> flat_map f l = flat_map g l.
Proof.
  induction l as [|x l IH]; intros H; cbn [flat_map]; [reflexivity|].
  rewrite (H x) by (left; reflexivity). rewrite IH; [reflexivity|].
  intros y Hy. apply H. right. exact Hy.
Qed.

Lemma indexes_after_wake (nowMs : Z) (gs : list PropGroup_t) (i : Z) :
  propsIndexes (group_at (aset gs i (set_latestWakeTimeMs nowMs (group_at gs i))) i)
  = propsIndexes (group_at gs i).
Proof.
  destruct (Z_lt_dec i 0) as [Hneg|Hpos];
    [|destruct (Z_lt_dec i (Z.of_nat (length gs))) as [Hin|Hout]].
  - rewrite aset_outside by lia. reflexivity.
  - unfold group_at at 1. rewrite aget_aset_same by lia. reflexivity.
  - rewrite aset_outside by lia. reflexivity.
Qed.

Lemma group_body_threaded (nowMs : Z) (fr : bool) (st : Staging) (i : Z) :
  threaded (group_body nowMs fr st i)
  = fold_left (visit nowMs fr) (group_visits nowMs fr (group_at (st_groups st) i))
      (threaded st).
Proof.
  unfold group_body, group_visits, is_due.
  destruct (isMsElapsed nowMs _ _ || fr); [|reflexivity].
  unfold for_loop, members. rewrite indexes_after_wake.
  rewrite !fold_left_map.
  destruct (fold_left _ (seqZ 0 _) (st_props st, st_buffer st, st_toPublish st))
    as [[ps buf] tp] eqn:E.
  unfold threaded at 1. cbn [st_props st_buffer st_toPublish].
  rewrite <- E. unfold threaded. apply fold_left_ext. intros a x. reflexivity.
Qed.

Lemma group_body_other_group (nowMs : Z) (fr : bool) (st : Staging) (i j : Z) :
  i <> j ->
  group_at (st_groups (group_body nowMs fr st i)) j = group_at (st_groups st) j.
Proof.
  intros Hne. unfold group_body.
  destruct (isMsElapsed nowMs _ _ || fr); [|reflexivity].
  destruct (for_loop _ _ _) as [[ps buf] tp]. cbn [st_groups].
  apply aget_aset_other. exact Hne.
Qed.

(** The loop over the groups visits the members of the due groups, told
    from the group table as it was before the loop. *)
Lemma groups_loop_is_visits (nowMs : Z) (fr : bool) (l : list Z) :
  forall st,
    List.NoDup l ->
    threaded (fold_left (group_body nowMs fr) l st)
    = fold_left (visit nowMs fr) (visits nowMs fr (st_groups st) l) (threaded st).
Proof.
  induction l as [|i l IH]; intros st Hnd; [reflexivity|].
  apply List.NoDup_cons_iff in Hnd as [Hi Hnd].
  cbn [fold_left]. rewrite IH by exact Hnd.
  unfold visits. cbn [flat_map]. rewrite fold_left_app.
  rewrite <- group_body_threaded. f_equal.
  apply flat_map_ext_in.
  intros j Hj. rewrite group_body_other_group; [reflexivity|].
  intros ->. apply Hi. exact Hj.
Qed.


(** *** The batch of one pass *)

Lemma promoted_fields (nowMs : Z) (p : Prop_t) :
  disabled (promoted nowMs p) = disabled p
  /\ value_differs (promoted nowMs p) = value_differs p
  /\ setToPublish (promoted nowMs p) = setToPublish p
  /\ changed (promoted nowMs p)
     = changed p
       || (debouncing p && isMsElapsed nowMs (latestSetTimeMs p) (debounceDelayMs p)).
Proof.
  unfold promoted.
  destruct (debouncing p && isMsElapsed nowMs (latestSetTimeMs p) (debounceDelayMs p));
    cbn; repeat split; try reflexivity.
  - apply eq_sym, orb_true_r.
  - apply eq_sym, orb_false_r.
Qed.

Lemma setToPublish_stage_record (p : Prop_t) : setToPublish (stage_record p) = true.
Proof. unfold stage_record, snapshot. cbn. destruct (setStringValue p); reflexivity. Qed.

(** The inclusion rule, spelled out. *)
Lemma must_stage_spelled (nowMs : Z) (oic fr : bool) (p : Prop_t) :
  must_stage oic fr (promoted nowMs p) = true
  <-> disabled p = false
      /\ (((changed p = true
            \/ (debouncing p = true
                /\ isMsElapsed nowMs (latestSetTimeMs p) (debounceDelayMs p) = true))
           /\ value_differs p = true)
          \/ oic = false \/ fr = true).
Proof.
  destruct (promoted_fields nowMs p) as (Hd & Hv & _ & Hc).
  unfold must_stage. rewrite Hd, Hv, Hc.
  rewrite andb_true_iff, negb_true_iff, !orb_true_iff, !andb_true_iff,
    orb_true_iff, andb_true_iff, negb_true_iff.
  tauto.
Qed.

Lemma in_filter_stages (nowMs : Z) (fr : bool) (ps : list Prop_t) (vs : list (bool * Z))
  (k : Z) :
  In k (map snd (List.filter (stages nowMs fr ps) vs))
  <-> exists oic, In (oic, k) vs /\ stages nowMs fr ps (oic, k) = true.
Proof.
  rewrite List.in_map_iff. split.
  - intros ([oic j] & Hj & Hin). cbn in Hj. subst j.
    apply List.filter_In in Hin. exists oic. exact Hin.
  - intros (oic & Hin). exists (oic, k). split; [reflexivity|].
    apply List.filter_In. exact Hin.
Qed.

(** With due groups that share no member, the staged members are the due
    members that satisfy the inclusion rule on the registry as the pass
    found it. *)
Lemma staged_of_distinct_members (nowMs : Z) (s : State) (t : Task) :
  List.NoDup (map snd (due_members nowMs s t)) ->
  forall k,
    In k (staged nowMs s t)
    <-> exists oic,
        In (oic, k) (due_members nowMs s t)
        /\ disabled (prop_at (props s) k) = false
        /\ (((changed (prop_at (props s) k) = true
              \/ (debouncing (prop_at (props s) k) = true
                  /\ isMsElapsed nowMs (latestSetTimeMs (prop_at (props s) k))
                       (debounceDelayMs (prop_at (props s) k)) = true))
             /\ value_differs (prop_at (props s) k) = true)
            \/ oic = false \/ first_run t = true).
Proof.
  intros Hnd k. unfold staged.
  rewrite staged_visits_distinct by (try exact Hnd; reflexivity).
  rewrite in_filter_stages. unfold stages. cbn [fst snd].
  split; intros (oic & Hv & Hst); exists oic; (split; [exact Hv|]);
    apply must_stage_spelled; exact Hst.
Qed.

(** The batch of a pass run while connected, from a state in which the
    buffer is empty and no property is marked as staged. *)
Lemma batch_between_passes (publish : string -> bool) (nowMs : Z)
  (s : State) (t : Task) :
  jsonBuffer t = EmptyString ->
  (forall k, setToPublish (prop_at (props s) k) = false) ->
  List.Forall (in_range (props s)) (map snd (due_members nowMs s t)) ->
  (forall k,
      setToPublish (prop_at (st_props (staging nowMs s t)) k) = true
      <-> In k (staged nowMs s t))
  /\ snd (tick true publish nowMs s t)
     = match staged nowMs s t with
       | [] => None
       | _ :: _ =>
           Some (json_object
                   (map (fun k => member_text (prop_at (props s) k)) (staged nowMs s t)))
       end.
Proof.
  intros Hbuf0 Hflags Hin.
  assert (Hloop : threaded (staging nowMs s t)
                  = fold_left (visit nowMs (first_run t)) (due_members nowMs s t)
                      (props s, EmptyString, false)).
  { unfold staging, for_loop. rewrite groups_loop_is_visits.
    - unfold threaded. cbn [st_props st_buffer st_toPublish st_groups].
      rewrite Hbuf0. reflexivity.
    - apply NoDup_ListNoDup, NoDup_seqZ. }
  destruct (fold_left (visit nowMs (first_run t)) (due_members nowMs s t)
              (props s, EmptyString, false)) as [[ps' buf'] tp'] eqn:E.
  apply (visits_from_pass_start nowMs (first_run t) (props s) _ _ [] []) in E
    as (Hbuf & _ & Hrec); [|reflexivity|intros k; reflexivity|exact Hin].
  fold (staged nowMs s t) in Hbuf, Hrec.
  unfold threaded in Hloop. injection Hloop as Hps Hb Htp.
  rewrite emit_from_empty in Hbuf.
  2:{ apply List.Forall_forall. intros x Hx.
      apply List.in_map_iff in Hx as (v & <- & _). apply member_text_nonempty. }
  split.
  - intros k. rewrite Hps, Hrec. cbn [mem existsb orb]. rewrite <- mem_In.
    unfold record_after. destruct (mem k (staged nowMs s t)).
    + rewrite setToPublish_stage_record. tauto.
    + destruct (mem k (map snd (due_members nowMs s t)));
        [rewrite (proj1 (proj2 (proj2 (promoted_fields nowMs _))))|];
        rewrite Hflags; split; discriminate.
  - unfold tick. rewrite Htp, Hb.
    destruct (staged nowMs s t) as [|k0 ks] eqn:Es; cbn [map] in Hbuf;
      injection Hbuf as -> ->; reflexivity.
Qed.

(** *** What a pass leaves untouched *)

Lemma in_range_same_length (ps ps' : list Prop_t) (k : Z) :
  length ps' = length ps -> in_range ps k -> in_range ps' k.
Proof. unfold in_range. intros ->. tauto. Qed.

Lemma visit_frame (nowMs : Z) (fr : bool) (ps : list Prop_t) (buf : string) (tp : bool)
  (v : bool * Z) (ps' : list Prop_t) (buf' : string) (tp' : bool) :
  in_range ps (snd v) ->
  visit nowMs fr (ps, buf, tp) v = (ps', buf', tp') ->
  length ps' = length ps
  /\ (forall j, j <> snd v -> prop_at ps' j = prop_at ps j)
  /\ (tp' = false ->
      buf' = buf /\ tp = false
      /\ setToPublish (prop_at ps' (snd v)) = setToPublish (prop_at ps (snd v))).
Proof.
  intros Hk. unfold visit. rewrite member_body_on_record by exact Hk. cbv zeta.
  destruct (must_stage _ _ _); intros H; injection H as <- <- <-.
  - split; [apply length_aset|]. split.
    + intros j Hj. apply prop_at_aset_other. congruence.
    + discriminate.
  - split; [apply length_aset|]. split.
    + intros j Hj. apply prop_at_aset_other. congruence.
    + intros ->. split; [reflexivity|]. split; [reflexivity|].
      rewrite prop_at_aset_same by exact Hk.
      apply (promoted_fields nowMs (prop_at ps (snd v))).
Qed.

Lemma visits_frame (nowMs : Z) (fr : bool) (vs : list (bool * Z)) :
  forall ps buf tp ps' buf' tp',
    List.Forall (in_range ps) (map snd vs) ->
    fold_left (visit nowMs fr) vs (ps, buf, tp) = (ps', buf', tp') ->
    length ps' = length ps
    /\ (forall j, ~ In j (map snd vs) -> prop_at ps' j = prop_at ps j)
    /\ (tp' = false ->
        buf' = buf /\ tp = false
        /\ forall j, setToPublish (prop_at ps' j) = setToPublish (prop_at ps j)).
Proof.
  induction vs as [|v vs IH]; intros ps buf tp ps' buf' tp' Hin Hfold.
  - cbn in Hfold. injection Hfold as <- <- <-. auto.
  - cbn [map] in Hin. apply List.Forall_cons_iff in Hin as [Hk Hin].
    cbn [fold_left] in Hfold.
    destruct (visit nowMs fr (ps, buf, tp) v) as [[ps1 buf1] tp1] eqn:E1.
    apply visit_frame in E1 as (Hlen1 & Hframe1 & Hquiet1); [|exact Hk].
    apply IH in Hfold as (Hlen & Hframe & Hquiet).
    2:{ eapply List.Forall_impl; [|exact Hin].
        intros j Hj. apply (in_range_same_length ps); assumption. }
    split; [congruence|]. split.
    + intros j Hj. cbn [map] in Hj. rewrite Hframe by (intros ?; apply Hj; right; assumption).
      apply Hframe1. intros ->. apply Hj. left. reflexivity.
    + intros Htp. destruct (Hquiet Htp) as (-> & -> & Hflags).
      destruct (Hquiet1 eq_refl) as (-> & -> & Hflag1).
      split; [reflexivity|]. split; [reflexivity|].
      intros j. rewrite Hflags.
      destruct (Z.eq_dec j (snd v)) as [->|Hne]; [exact Hflag1|].
      rewrite Hframe1 by exact Hne. reflexivity.
Qed.

(** Assignments that leave the staged mark alone. *)
Lemma upd_prop_keeps_mark (ps : list Prop_t) (i j : Z) (f : Prop_t -> Prop_t) :
  (forall p, setToPublish (f p) = setToPublish p) ->
  setToPublish (prop_at (upd_prop ps i f) j) = setToPublish (prop_at ps j).
Proof.
  intros Hf. unfold upd_prop.
  destruct (Z.eq_dec i j) as [->|Hne]; [|rewrite prop_at_aset_other by exact Hne; reflexivity].
  destruct (Z_lt_dec j 0) as [Hneg|Hpos];
    [|destruct (Z_lt_dec j (Z.of_nat (length ps))) as [Hin|Hout]].
  - rewrite aset_outside by lia. reflexivity.
  - rewrite prop_at_aset_same by (unfold in_range; lia). apply Hf.
  - rewrite aset_outside by lia. reflexivity.
Qed.

Lemma length_upd_prop (ps : list Prop_t) (i : Z) (f : Prop_t -> Prop_t) :
  length (upd_prop ps i f) = length ps.
Proof. apply length_aset. Qed.

Lemma clear_changed_keeps_marks (n : Z) (ps : list Prop_t) :
  length (clear_changed_of_staged n ps) = length ps
  /\ forall j, setToPublish (prop_at (clear_changed_of_staged n ps) j)
               = setToPublish (prop_at ps j).
Proof.
  unfold clear_changed_of_staged, for_loop. generalize (seqZ 0 n) as l. intros l.
  revert ps. induction l as [|i l IH]; intros ps; [split; reflexivity|].
  cbn [fold_left].
  destruct (setToPublish (prop_at ps i)) eqn:E; [|apply IH].
  destruct (IH (upd_prop ps i (set_changed false))) as [Hlen Hmarks].
  split; [rewrite Hlen; apply length_upd_prop|].
  intros j. rewrite Hmarks. apply upd_prop_keeps_mark. reflexivity.
Qed.

Lemma clear_marks_of (l : list Z) :
  forall ps,
    (forall i, In i l -> in_range ps i) ->
    let ps' := fold_left (fun ps pIdx => upd_prop ps pIdx (set_setToPublish false)) l ps in
    length ps' = length ps
    /\ (forall j, In j l -> setToPublish (prop_at ps' j) = false)
    /\ (forall j, ~ In j l -> prop_at ps' j = prop_at ps j).
Proof.
  induction l as [|i l IH]; intros ps Hin; cbn zeta.
  - split; [reflexivity|]. split; [intros j []|reflexivity].
  - cbn [fold_left].
    assert (Hi : in_range ps i) by (apply Hin; left; reflexivity).
    destruct (IH (upd_prop ps i (set_setToPublish false))) as (Hlen & Hin' & Hout').
    { intros j Hj. apply (in_range_same_length ps); [apply length_upd_prop|].
      apply Hin. right. exact Hj. }
    cbn zeta in Hlen, Hin', Hout'.
    split; [rewrite Hlen; apply length_upd_prop|]. split.
    + intros j Hj. destruct (List.in_dec Z.eq_dec j l) as [Hl|Hl]; [apply Hin', Hl|].
      destruct Hj as [<-|Hj]; [|contradiction].
      rewrite Hout' by exact Hl. unfold upd_prop.
      rewrite prop_at_aset_same by exact Hi. reflexivity.
    + intros j Hj. rewrite Hout' by (intros ?; apply Hj; right; assumption).
      unfold upd_prop. apply prop_at_aset_other. intros ->. apply Hj. left. reflexivity.
Qed.

Lemma group_body_membership (nowMs : Z) (fr : bool) (st : Staging) (i j : Z) :
  length (st_groups (group_body nowMs fr st i)) = length (st_groups st)
  /\ members (group_at (st_groups (group_body nowMs fr st i)) j)
     = members (group_at (st_groups st) j).
Proof.
  unfold group_body.
  destruct (isMsElapsed nowMs _ _ || fr); [|split; reflexivity].
  destruct (for_loop _ _ _) as [[ps buf] tp]. cbn [st_groups].
  split; [apply length_aset|].
  destruct (Z.eq_dec i j) as [->|Hne];
    [|unfold group_at; rewrite aget_aset_other by exact Hne; reflexivity].
  destruct (Z_lt_dec j 0) as [Hneg|Hpos];
    [|destruct (Z_lt_dec j (Z.of_nat (length (st_groups st)))) as [Hin|Hout]].
  - rewrite aset_outside by lia. reflexivity.
  - unfold group_at at 1. rewrite aget_aset_same by lia. reflexivity.
  - rewrite aset_outside by lia. reflexivity.
Qed.

Lemma groups_loop_membership (nowMs : Z) (fr : bool) (l : list Z) :
  forall st j,
    length (st_groups (fold_left (group_body nowMs fr) l st)) = length (st_groups st)
    /\ members (group_at (st_groups (fold_left (group_body nowMs fr) l st)) j)
       = members (group_at (st_groups st) j).
Proof.
  induction l as [|i l IH]; intros st j; [split; reflexivity|].
  cbn [fold_left]. destruct (IH (group_body nowMs fr st i) j) as [Hlen Hmem].
  destruct (group_body_membership nowMs fr st i j) as [Hlen1 Hmem1].
  split; congruence.
Qed.

(** The members a pass visits are members of created groups. *)
Lemma due_member_of_group (nowMs : Z) (s : State) (t : Task) (v : bool * Z) :
  In v (due_members nowMs s t) ->
  exists pgIdx, 0 <= pgIdx < numPropGroupsCreated s
                /\ In (snd v) (members (group_at (propGroups s) pgIdx)).
Proof.
  unfold due_members, visits. rewrite List.in_flat_map.
  intros (pgIdx & Hidx & Hv). exists pgIdx. split.
  - apply list_elem_of_In, elem_of_seqZ in Hidx. lia.
  - unfold group_visits in Hv. destruct (is_due _ _ _); [|destruct Hv].
    apply List.in_map_iff in Hv as (k & <- & Hk). exact Hk.
Qed.

Lemma due_members_in_range (nowMs : Z) (s : State) (t : Task) :
  System.registry_wf s ->
  List.Forall (in_range (props s)) (map snd (due_members nowMs s t)).
Proof.
  intros (Hlen & _ & Hnum & _ & Hmem & _).
  apply List.Forall_forall. intros k Hk.
  apply List.in_map_iff in Hk as (v & <- & Hv).
  apply due_member_of_group in Hv as (pgIdx & Hidx & Hin).
  specialize (Hmem pgIdx _ Hidx Hin). unfold in_range. lia.
Qed.

(** A pass keeps the registry well formed and leaves the buffer empty. *)
Lemma tick_keeps_invariant (connected : bool) (publish : string -> bool) (nowMs : Z)
  (s : State) (t : Task) :
  System.registry_wf s -> jsonBuffer t = EmptyString ->
  System.registry_wf (fst (fst (tick connected publish nowMs s t)))
  /\ jsonBuffer (snd (fst (tick connected publish nowMs s t))) = EmptyString.
Proof.
  intros Hwf Hbuf0. pose proof (due_members_in_range nowMs s t Hwf) as Hrange.
  destruct Hwf as (Hlen & Hglen & Hnum & Hgnum & Hmem & Hmarks).
  unfold tick. destruct connected; [|cbn; unfold System.registry_wf; auto 10].
  assert (Hloop : threaded (staging nowMs s t)
                  = fold_left (visit nowMs (first_run t)) (due_members nowMs s t)
                      (props s, jsonBuffer t, false)).
  { unfold staging, for_loop. rewrite groups_loop_is_visits; [reflexivity|].
    apply NoDup_ListNoDup, NoDup_seqZ. }
  destruct (fold_left (visit nowMs (first_run t)) (due_members nowMs s t)
              (props s, jsonBuffer t, false)) as [[ps' buf'] tp'] eqn:E.
  apply visits_frame in E as (Hlen' & Hframe & Hquiet); [|exact Hrange].
  unfold threaded in Hloop. injection Hloop as Hps Hb Htp.
  assert (Hgroups : length (st_groups (staging nowMs s t)) = length (propGroups s)
                    /\ System.members_valid
                         (with_props ps' (with_propGroups (st_groups (staging nowMs s t)) s))).
  { unfold staging, for_loop. split.
    - exact (proj1 (groups_loop_membership nowMs (first_run t)
                      (seqZ 0 (numPropGroupsCreated s))
                      (mkStaging (propGroups s) (props s) (jsonBuffer t) false) 0)).
    - intros pgIdx k Hidx Hk. cbn in Hidx, Hk |- *.
      rewrite (proj2 (groups_loop_membership nowMs (first_run t)
                        (seqZ 0 (numPropGroupsCreated s))
                        (mkStaging (propGroups s) (props s) (jsonBuffer t) false) pgIdx))
        in Hk.
      apply (Hmem pgIdx k Hidx Hk). }
  destruct Hgroups as [Hglen' Hmem'].
  rewrite Htp. destruct tp'.
  - cbn [fst snd]. split; [|reflexivity].
    set (ps1 := if publish (st_buffer (staging nowMs s t) +++ "}")
                then clear_changed_of_staged (numPropsCreated s) (st_props (staging nowMs s t))
                else st_props (staging nowMs s t)).
    assert (H1 : length ps1 = length ps'
                 /\ forall j, setToPublish (prop_at ps1 j) = setToPublish (prop_at ps' j)).
    { unfold ps1. rewrite Hps. destruct (publish _); [|split; reflexivity].
      apply clear_changed_keeps_marks. }
    destruct H1 as [Hlen1 Hmarks1].
    destruct (clear_marks_of (seqZ 0 (numPropsCreated s)) ps1) as (Hlen2 & Hin2 & Hout2).
    { intros i Hi. apply list_elem_of_In, elem_of_seqZ in Hi. unfold in_range. lia. }
    cbn zeta in Hlen2, Hin2, Hout2.
    unfold System.registry_wf. cbn.
    split; [unfold clear_setToPublish, for_loop; lia|].
    split; [lia|]. split; [exact Hnum|]. split; [exact Hgnum|].
    split; [exact Hmem'|].
    intros k. unfold clear_setToPublish, for_loop.
    destruct (List.in_dec Z.eq_dec k (seqZ 0 (numPropsCreated s))) as [Hk|Hk].
    + apply Hin2. exact Hk.
    + rewrite Hout2 by exact Hk. rewrite Hmarks1, Hframe; [apply Hmarks|].
      intros Hv. apply Hk. apply List.in_map_iff in Hv as (v & <- & Hv).
      apply due_member_of_group in Hv as (pgIdx & Hidx & Hin).
      specialize (Hmem pgIdx _ Hidx Hin).
      apply list_elem_of_In, elem_of_seqZ. lia.
  - cbn [fst snd]. destruct (Hquiet eq_refl) as (-> & _ & Hsame).
    split; [|cbn; congruence].
    unfold System.registry_wf. cbn. rewrite Hps.
    split; [lia|]. split; [lia|]. split; [exact Hnum|]. split; [exact Hgnum|].
    split; [exact Hmem'|].
    intros k. rewrite Hsame. apply Hmarks.
Qed.

(** *** The interface keeps the registry well formed *)

Lemma marks_after_aset (ps : list Prop_t) (i : Z) (p : Prop_t) :
  (forall k, setToPublish (prop_at ps k) = false) ->
  setToPublish p = false ->
  forall k, setToPublish (prop_at (aset ps i p) k) = false.
Proof.
  intros Hmarks Hp k.
  destruct (Z.eq_dec i k) as [->|Hne]; [|rewrite prop_at_aset_other by exact Hne; apply Hmarks].
  destruct (Z_lt_dec k 0) as [Hneg|Hpos];
    [|destruct (Z_lt_dec k (Z.of_nat (length ps))) as [Hin|Hout]].
  - rewrite aset_outside by lia. apply Hmarks.
  - rewrite prop_at_aset_same by (unfold in_range; lia). exact Hp.
  - rewrite aset_outside by lia. apply Hmarks.
Qed.

Lemma members_valid_more_props (s s' : State) :
  propGroups s' = propGroups s ->
  numPropGroupsCreated s' = numPropGroupsCreated s ->
  numPropsCreated s <= numPropsCreated s' ->
  System.members_valid s -> System.members_valid s'.
Proof.
  intros Hg Hn Hle Hmem pgIdx k Hidx Hk. rewrite Hg in Hk. rewrite Hn in Hidx.
  specialize (Hmem pgIdx k Hidx Hk). lia.
Qed.

Lemma wf_with_props (s : State) (ps : list Prop_t) :
  System.registry_wf s ->
  length ps = length (props s) ->
  (forall k, setToPublish (prop_at ps k) = false) ->
  System.registry_wf (with_props ps s).
Proof.
  intros (Hlen & Hglen & Hnum & Hgnum & Hmem & _) Hl Hmarks.
  unfold System.registry_wf. cbn. rewrite Hl.
  split; [exact Hlen|]. split; [exact Hglen|]. split; [exact Hnum|].
  split; [exact Hgnum|]. split; [exact Hmem|exact Hmarks].
Qed.

Lemma create_keeps_wf (s : State) (name : string) (scale_ numDecimals_ : Z) (sign_ : bool) :
  System.registry_wf s ->
  System.registry_wf (fst (Trackle_Prop_create s name scale_ numDecimals_ sign_)).
Proof.
  intros Hwf. unfold Trackle_Prop_create.
  destruct (numPropsCreated s <? TRACKLE_MAX_PROPS_NUM) eqn:Hcap; [|exact Hwf].
  destruct (name_in_use s name); [exact Hwf|].
  destruct (strlen name <? TRACKLE_MAX_PROP_NAME_LENGTH); [|exact Hwf].
  apply Z.ltb_lt in Hcap.
  destruct Hwf as (Hlen & Hglen & Hnum & Hgnum & Hmem & Hmarks).
  unfold System.registry_wf. cbn. rewrite length_aset.
  split; [exact Hlen|]. split; [exact Hglen|]. split; [lia|]. split; [exact Hgnum|].
  split.
  - apply (members_valid_more_props s); cbn; try reflexivity; [lia|exact Hmem].
  - apply marks_after_aset; [exact Hmarks|reflexivity].
Qed.

Lemma createString_keeps_wf (m1 m2 : bool) (s : State) (name : string) (maxLength : Z) :
  System.registry_wf s ->
  System.registry_wf (fst (Trackle_Prop_createString m1 m2 s name maxLength)).
Proof.
  intros Hwf. unfold Trackle_Prop_createString.
  destruct (numPropsCreated s <? TRACKLE_MAX_PROPS_NUM) eqn:Hcap; [|exact Hwf].
  destruct (name_in_use s name); [exact Hwf|].
  destruct (strlen name <? TRACKLE_MAX_PROP_NAME_LENGTH); [|exact Hwf].
  apply Z.ltb_lt in Hcap.
  destruct m1; cbn [negb].
  2:{ apply wf_with_props; [exact Hwf|apply length_aset|].
      apply marks_after_aset; [apply Hwf|reflexivity]. }
  destruct m2; cbn [negb].
  2:{ apply wf_with_props; [exact Hwf|apply length_aset|].
      apply marks_after_aset; [apply Hwf|reflexivity]. }
  destruct Hwf as (Hlen & Hglen & Hnum & Hgnum & Hmem & Hmarks).
  unfold System.registry_wf. cbn [fst props propGroups numPropsCreated numPropGroupsCreated].
  rewrite length_aset.
  split; [exact Hlen|]. split; [exact Hglen|]. split; [lia|]. split; [exact Hgnum|].
  split.
  - apply (members_valid_more_props s); cbn; try reflexivity; [lia|exact Hmem].
  - apply marks_after_aset; [exact Hmarks|reflexivity].
Qed.

Lemma members_of_empty_group (oic : bool) (idxs : list Z) (p w : Z) :
  members (mkGroup oic idxs 0 p w) = [].
Proof. reflexivity. Qed.

Lemma groupCreate_keeps_wf (s : State) (periodMs_ : Z) (onlyIfChanged_ : bool) :
  System.registry_wf s ->
  System.registry_wf (fst (Trackle_PropGroup_create s periodMs_ onlyIfChanged_)).
Proof.
  intros Hwf. unfold Trackle_PropGroup_create.
  destruct (numPropGroupsCreated s <? TRACKLE_MAX_PROPGROUPS_NUM) eqn:Hcap; [|exact Hwf].
  apply Z.ltb_lt in Hcap.
  destruct Hwf as (Hlen & Hglen & Hnum & Hgnum & Hmem & Hmarks).
  unfold System.registry_wf. cbn. rewrite length_aset.
  split; [exact Hlen|]. split; [exact Hglen|]. split; [exact Hnum|]. split; [lia|].
  split; [|exact Hmarks].
  intros pgIdx k Hidx Hk. cbn in Hidx, Hk |- *.
  destruct (Z.eq_dec (numPropGroupsCreated s) pgIdx) as [<-|Hne].
  - unfold group_at at 1 in Hk. rewrite aget_aset_same in Hk by lia.
    rewrite members_of_empty_group in Hk. destruct Hk.
  - unfold group_at in Hk. rewrite aget_aset_other in Hk by exact Hne.
    apply (Hmem pgIdx k); [lia|exact Hk].
Qed.

Lemma members_after_append (g : PropGroup_t) (propIndex k : Z) :
  In k (members (mkGroup (onlyIfChanged g) (aset (propsIndexes g) (propsWithin g) propIndex)
                         (propsWithin g + 1) (periodMs g) (latestWakeTimeMs g))) ->
  In k (members g) \/ k = propIndex \/ k = 0.
Proof.
  unfold members. cbn [propsIndexes propsWithin].
  rewrite !List.in_map_iff. intros (i & <- & Hi).
  apply list_elem_of_In, elem_of_seqZ in Hi.
  destruct (Z.eq_dec (propsWithin g) i) as [<-|Hne].
  - right.
    destruct (Z_lt_dec (propsWithin g) (Z.of_nat (length (propsIndexes g)))) as [Hin|Hout].
    + left. apply aget_aset_same. lia.
    + right. rewrite aset_outside by lia. unfold aget.
      destruct (propsWithin g <? 0); [reflexivity|].
      rewrite lookup_ge_None_2 by lia. reflexivity.
  - left. exists i. split; [symmetry; apply aget_aset_other; exact Hne|].
    apply list_elem_of_In, elem_of_seqZ. lia.
Qed.

Lemma addProp_keeps_wf (s s' : State) (propId propGroupId : Z) (b : bool) :
  System.registry_wf s ->
  Trackle_PropGroup_addProp s propId propGroupId = Some (s', b) ->
  System.registry_wf s'.
Proof.
  intros Hwf. unfold Trackle_PropGroup_addProp.
  destruct ((0 <=? propGroupId - 1) && (propGroupId - 1 <? numPropGroupsCreated s)
            && (propId - 1 <? numPropsCreated s) && (0 <=? propId - 1)) eqn:Hguard;
    [|intros H; injection H as <- <-; exact Hwf].
  destruct (propGroups s !! Z.to_nat propGroupId) as [gnext|]; [|discriminate].
  destruct (propsWithin gnext <? TRACKLE_MAX_PROPS_NUM - 1);
    [|intros H; injection H as <- <-; exact Hwf].
  destruct (group_contains _ _ _); intros H; injection H as <- <-; [exact Hwf|].
  apply andb_true_iff in Hguard as [Hguard Hp0].
  apply andb_true_iff in Hguard as [Hguard Hp1].
  apply andb_true_iff in Hguard as [Hg0 Hg1].
  apply Z.leb_le in Hp0, Hg0. apply Z.ltb_lt in Hp1, Hg1.
  destruct Hwf as (Hlen & Hglen & Hnum & Hgnum & Hmem & Hmarks).
  unfold System.registry_wf. cbn. rewrite length_aset.
  split; [exact Hlen|]. split; [exact Hglen|]. split; [exact Hnum|]. split; [exact Hgnum|].
  split; [|exact Hmarks].
  intros pgIdx k Hidx Hk. cbn in Hidx, Hk |- *.
  destruct (Z.eq_dec (propGroupId - 1) pgIdx) as [<-|Hne].
  - unfold group_at at 1 in Hk. rewrite aget_aset_same in Hk by lia.
    apply members_after_append in Hk as [Hk|[->| ->]]; [|lia|lia].
    apply (Hmem (propGroupId - 1) k); [lia|exact Hk].
  - unfold group_at in Hk. rewrite aget_aset_other in Hk by exact Hne.
    apply (Hmem pgIdx k); [lia|exact Hk].
Qed.

Lemma marks_after_upd (ps : list Prop_t) (i : Z) (f : Prop_t -> Prop_t) :
  (forall p, setToPublish (f p) = setToPublish p) ->
  (forall k, setToPublish (prop_at ps k) = false) ->
  forall k, setToPublish (prop_at (upd_prop ps i f) k) = false.
Proof. intros Hf Hmarks k. rewrite upd_prop_keeps_mark by exact Hf. apply Hmarks. Qed.

Lemma update_keeps_wf (nowMs : Z) (s : State) (propID newValue : Z) :
  System.registry_wf s ->
  System.registry_wf (fst (Trackle_Prop_update nowMs s propID newValue)).
Proof.
  intros Hwf. unfold Trackle_Prop_update.
  destruct (valid_index s (propID - 1)); [|exact Hwf].
  destruct (negb _); [|exact Hwf].
  apply wf_with_props; [exact Hwf|rewrite !length_upd_prop; reflexivity|].
  repeat (apply marks_after_upd; [reflexivity|]). apply Hwf.
Qed.

Lemma updateString_keeps_wf (nowMs : Z) (s : State) (propID : Z) (newValue : option string) :
  System.registry_wf s ->
  System.registry_wf (fst (Trackle_Prop_updateString nowMs s propID newValue)).
Proof.
  intros Hwf. unfold Trackle_Prop_updateString.
  destruct (valid_index s (propID - 1)); [|exact Hwf].
  destruct (setStringValue _) as [cur|]; [|exact Hwf].
  destruct newValue as [new|]; [|exact Hwf].
  destruct (negb _); [|exact Hwf].
  apply wf_with_props; [exact Hwf|rewrite !length_upd_prop; reflexivity|].
  repeat (apply marks_after_upd; [reflexivity|]). apply Hwf.
Qed.

Lemma setDisabled_keeps_wf (s : State) (propID : Z) (isDisabled : bool) :
  System.registry_wf s ->
  System.registry_wf (fst (Trackle_Prop_setDisabled s propID isDisabled)).
Proof.
  intros Hwf. unfold Trackle_Prop_setDisabled.
  destruct (valid_index s (propID - 1)); [|exact Hwf].
  apply wf_with_props; [exact Hwf|apply length_upd_prop|].
  apply marks_after_upd; [reflexivity|apply Hwf].
Qed.

Lemma setDebounceDelay_keeps_wf (s : State) (propID delay : Z) :
  System.registry_wf s ->
  System.registry_wf (fst (Trackle_Prop_setDebounceDelay s propID delay)).
Proof.
  intros Hwf. unfold Trackle_Prop_setDebounceDelay.
  destruct (valid_index s (propID - 1)); [|exact Hwf].
  apply wf_with_props; [exact Hwf|apply length_upd_prop|].
  apply marks_after_upd; [reflexivity|apply Hwf].
Qed.

Lemma wake_loop_membership (startMs : Z) (l : list Z) :
  forall gs j,
    let gs' := fold_left
                 (fun gs pgIdx => aset gs pgIdx (set_latestWakeTimeMs startMs (group_at gs pgIdx)))
                 l gs in
    length gs' = length gs /\ members (group_at gs' j) = members (group_at gs j).
Proof.
  induction l as [|i l IH]; intros gs j; cbn zeta; [split; reflexivity|].
  cbn [fold_left].
  destruct (IH (aset gs i (set_latestWakeTimeMs startMs (group_at gs i))) j) as [Hlen Hmem].
  cbn zeta in Hlen, Hmem. rewrite Hlen, Hmem, length_aset. split; [reflexivity|].
  destruct (Z.eq_dec i j) as [->|Hne];
    [|unfold group_at; rewrite aget_aset_other by exact Hne; reflexivity].
  destruct (Z_lt_dec j 0) as [Hneg|Hpos];
    [|destruct (Z_lt_dec j (Z.of_nat (length gs))) as [Hin|Hout]].
  - rewrite aset_outside by lia. reflexivity.
  - unfold group_at at 1. rewrite aget_aset_same by lia. reflexivity.
  - rewrite aset_outside by lia. reflexivity.
Qed.

Lemma task_start_keeps_wf (s : State) (startMs : Z) :
  System.registry_wf s -> System.registry_wf (fst (task_start s startMs)).
Proof.
  intros (Hlen & Hglen & Hnum & Hgnum & Hmem & Hmarks).
  unfold task_start, for_loop, System.registry_wf. cbn.
  split; [exact Hlen|]. split.
  { rewrite (proj1 (wake_loop_membership startMs _ (propGroups s) 0)). exact Hglen. }
  split; [exact Hnum|]. split; [exact Hgnum|]. split; [|exact Hmarks].
  intros pgIdx k Hidx Hk. cbn in Hidx, Hk |- *.
  rewrite (proj2 (wake_loop_membership startMs _ (propGroups s) pgIdx)) in Hk.
  apply (Hmem pgIdx k Hidx Hk).
Qed.

(** *** The invariant of a run *)

Lemma perform_keeps_invariant (c : System.call) (sys sys' : System.System) :
  System.invariant sys -> System.perform c sys = Some sys' -> System.invariant sys'.
Proof.
  intros [Hwf Hbuf] Hperform. destruct c; cbn in Hperform.
  - injection Hperform as <-. split; [apply create_keeps_wf, Hwf|exact Hbuf].
  - injection Hperform as <-. split; [apply createString_keeps_wf, Hwf|exact Hbuf].
  - injection Hperform as <-. split; [apply groupCreate_keeps_wf, Hwf|exact Hbuf].
  - destruct (Trackle_PropGroup_addProp _ _ _) as [[s' b]|] eqn:E; [|discriminate].
    injection Hperform as <-. split; [exact (addProp_keeps_wf _ _ _ _ _ Hwf E)|exact Hbuf].
  - injection Hperform as <-. split; [apply update_keeps_wf, Hwf|exact Hbuf].
  - injection Hperform as <-. split; [apply updateString_keeps_wf, Hwf|exact Hbuf].
  - injection Hperform as <-. split; [apply setDisabled_keeps_wf, Hwf|exact Hbuf].
  - injection Hperform as <-. split; [apply setDebounceDelay_keeps_wf, Hwf|exact Hbuf].
  - injection Hperform as <-. split; [exact Hwf|exact Hbuf].
  - destruct (System.task sys); [discriminate|]. injection Hperform as <-.
    split; [apply task_start_keeps_wf, Hwf|].
    cbn. intros t Ht. injection Ht as <-. reflexivity.
  - destruct (System.task sys) as [t|] eqn:Et; [|discriminate]. injection Hperform as <-.
    destruct (tick_keeps_invariant connected trackleSyncStateSecure nowMs
                (System.registry sys) t Hwf (Hbuf t eq_refl)) as [Hwf' Hbuf'].
    split; [exact Hwf'|]. cbn. intros t' Ht'. injection Ht' as <-. exact Hbuf'.
Qed.

Lemma run_keeps_invariant (cs : list System.call) :
  forall sys sys',
    System.invariant sys -> System.run cs sys = Some sys' -> System.invariant sys'.
Proof.
  induction cs as [|c cs IH]; intros sys sys' Hinv Hrun; cbn in Hrun.
  - injection Hrun as <-. exact Hinv.
  - destruct (System.perform c sys) as [sys1|] eqn:E; [|discriminate].
    apply (IH sys1); [|exact Hrun]. exact (perform_keeps_invariant c sys sys1 Hinv E).
Qed.

Lemma boot_invariant :
  0 <= TRACKLE_MAX_PROPS_NUM -> 0 <= TRACKLE_MAX_PROPGROUPS_NUM ->
  System.invariant System.boot.
Proof.
  intros Hp Hg. split; [|discriminate].
  unfold System.registry_wf, System.boot. cbn. rewrite !length_replicate.
  split; [lia|]. split; [lia|]. split; [lia|]. split; [lia|]. split.
  - intros pgIdx k Hidx. cbn in Hidx. lia.
  - intros k. unfold prop_at, aget. destruct (k <? 0); [reflexivity|].
    destruct (replicate _ _ !! _) as [p|] eqn:E; [|reflexivity].
    apply lookup_replicate in E as [-> _]. reflexivity.
Qed.

(** Whatever the application and the task did so far, the registry is well
    formed, no property is marked as staged and the buffer is empty. *)
Lemma reachable_invariant (sys : System.System) :
  0 <= TRACKLE_MAX_PROPS_NUM -> 0 <= TRACKLE_MAX_PROPGROUPS_NUM ->
  System.reachable sys -> System.invariant sys.
Proof.
  intros Hp Hg [cs Hrun].
  exact (run_keeps_invariant cs _ _ (boot_invariant Hp Hg) Hrun).
Qed.

(** The first-run latch is cleared by a successful publication and by
    nothing else; a pass run while disconnected does nothing. *)
Lemma first_run_latch (connected : bool) (publish : string -> bool) (nowMs : Z)
  (s : State) (t : Task) :
  first_run (snd (fst (tick connected publish nowMs s t)))
  = first_run t
    && negb (connected && st_toPublish (staging nowMs s t)
             && publish (st_buffer (staging nowMs s t) +++ "}")).
Proof.
  unfold tick. destruct connected; cbn [andb negb]; [|rewrite andb_true_r; reflexivity].
  destruct (st_toPublish (staging nowMs s t)); cbn [andb negb fst snd first_run];
    [|rewrite andb_true_r; reflexivity].
  destruct (publish _); cbn [negb]; [rewrite andb_false_r|rewrite andb_true_r]; reflexivity.
Qed.

Lemma pass_while_disconnected (publish : string -> bool) (nowMs : Z) (s : State) (t : Task) :
  tick false publish nowMs s t = (s, t, None).
Proof. reflexivity. Qed.

(** C5, as the code has it. In any state the firmware can reach, a pass of
    the started task run while connected, whose text fits the JSON buffer,
    hands to the publish call one flat object made of the texts of exactly
    the members it staged, in the order of the pass, and builds no payload
    when it staged none; the properties marked as staged are exactly
    those. The members it staged are the members of the due groups that
    pass the test of
    [staged_visits]: not disabled, and changed (an elapsed debounce being
    promoted first) with a current value that differs from the last
    published one, or in a group that does not publish only if changed, or
    visited while the first-run latch of the task is set. That latch is
    [first_run]: it makes every group due and every enabled member staged
    until a publication has succeeded, not only on the first pass. When
    the due groups share no member the test is read off the registry as
    the pass found it. *)
Theorem batch_holds_exactly_the_staged_members (publish : string -> bool) (nowMs : Z)
  (sys : System.System) (t : Task) :
  0 <= TRACKLE_MAX_PROPS_NUM -> 0 <= TRACKLE_MAX_PROPGROUPS_NUM ->
  System.reachable sys ->
  System.task sys = Some t ->
  let s := System.registry sys in
  strlen (Bounds.pass_text nowMs s t) < JSON_BUFFER_LEN ->
  (forall k,
      setToPublish (prop_at (st_props (staging nowMs s t)) k) = true
      <-> In k (staged nowMs s t))
  /\ snd (tick true publish nowMs s t)
     = match staged nowMs s t with
       | [] => None
       | _ :: _ =>
           Some (json_object
                   (map (fun k => member_text (prop_at (props s) k)) (staged nowMs s t)))
       end
  /\ (List.NoDup (map snd (due_members nowMs s t)) ->
      forall k,
        In k (staged nowMs s t)
        <-> exists oic,
            In (oic, k) (due_members nowMs s t)
            /\ disabled (prop_at (props s) k) = false
            /\ (((changed (prop_at (props s) k) = true
                  \/ (debouncing (prop_at (props s) k) = true
                      /\ isMsElapsed nowMs (latestSetTimeMs (prop_at (props s) k))
                           (debounceDelayMs (prop_at (props s) k)) = true))
                 /\ value_differs (prop_at (props s) k) = true)
                \/ oic = false \/ first_run t = true)).
Proof.
  intros Hp Hg Hreach Htask s _.
  destruct (reachable_invariant sys Hp Hg Hreach) as [Hwf Hbuf].
  destruct (batch_between_passes publish nowMs s t) as [Hmarks Hpayload].
  - exact (Hbuf t Htask).
  - apply Hwf.
  - apply due_members_in_range. exact Hwf.
  - split; [exact Hmarks|]. split; [exact Hpayload|].
    apply staged_of_distinct_members.
Qed.

End WithConfig.

Lemma batch_holds_exactly_the_staged_members_witness :
  System.reachable (cfg := Demo.cfg) (ff := Demo.ff) Demo.plant_system
  /\ System.task Demo.plant_system = Some Demo.plant_task
  /\ strlen (Bounds.pass_text (cfg := Demo.cfg) (ff := Demo.ff) 1100
               (System.registry Demo.plant_system) Demo.plant_task) < JSON_BUFFER_LEN
  /\ due_members (cfg := Demo.cfg) 1100 (System.registry Demo.plant_system) Demo.plant_task
     = [(true, 0); (true, 1); (false, 2)]
  /\ staged (cfg := Demo.cfg) 1100 (System.registry Demo.plant_system) Demo.plant_task
     = [0; 2]
  /\ snd (tick (cfg := Demo.cfg) (ff := Demo.ff) true (fun _ => true) 1100
            (System.registry Demo.plant_system) Demo.plant_task)
     = Some (json_object
               [quoted "speed" +++ ":120"; quoted "temp" +++ ":0.00"])
  /\ (In 1 (staged (cfg := Demo.cfg) 1100 (System.registry Demo.plant_system)
              Demo.plant_task)
      <-> exists oic,
          In (oic, 1) (due_members (cfg := Demo.cfg) 1100
                         (System.registry Demo.plant_system) Demo.plant_task)
          /\ disabled (prop_at (props (System.registry Demo.plant_system)) 1) = false
          /\ (((changed (prop_at (props (System.registry Demo.plant_system)) 1) = true
                \/ (debouncing (prop_at (props (System.registry Demo.plant_system)) 1) = true
                    /\ isMsElapsed 1100
                         (latestSetTimeMs (prop_at (props (System.registry Demo.plant_system)) 1))
                         (debounceDelayMs (prop_at (props (System.registry Demo.plant_system)) 1))
                       = true))
               /\ value_differs (prop_at (props (System.registry Demo.plant_system)) 1) = true)
              \/ oic = false \/ first_run Demo.plant_task = true)).
Proof.
  assert (Hreach : System.reachable (cfg := Demo.cfg) (ff := Demo.ff) Demo.plant_system).
  { exists Demo.plant_calls. vm_compute. reflexivity. }
  assert (Htask : System.task Demo.plant_system = Some Demo.plant_task)
    by (vm_compute; reflexivity).
  assert (Hdue : due_members (cfg := Demo.cfg) 1100 (System.registry Demo.plant_system)
                   Demo.plant_task
                 = [(true, 0); (true, 1); (false, 2)]) by (vm_compute; reflexivity).
  assert (Hnd : List.NoDup
                  (map snd (due_members (cfg := Demo.cfg) 1100
                              (System.registry Demo.plant_system) Demo.plant_task))).
  { rewrite Hdue. cbn [map snd].
    repeat (apply List.NoDup_cons; [cbn; intuition discriminate|]).
    apply List.NoDup_nil. }
  assert (Hp : 0 <= TRACKLE_MAX_PROPS_NUM (Config := Demo.cfg)) by (cbn; lia).
  assert (Hg : 0 <= TRACKLE_MAX_PROPGROUPS_NUM (Config := Demo.cfg)) by (cbn; lia).
  assert (Hfit : strlen (Bounds.pass_text (cfg := Demo.cfg) (ff := Demo.ff) 1100
                           (System.registry Demo.plant_system) Demo.plant_task)
                 < JSON_BUFFER_LEN) by (vm_compute; reflexivity).
  pose proof (batch_holds_exactly_the_staged_members (cfg := Demo.cfg) (ff := Demo.ff)
                (fun _ => true) 1100 Demo.plant_system Demo.plant_task
                Hp Hg Hreach Htask) as Hbatch.
  cbv zeta in Hbatch. destruct (Hbatch Hfit) as (_ & Hpayload & Hrule).
  split; [exact Hreach|]. split; [exact Htask|]. split; [exact Hfit|].
  split; [exact Hdue|].
  split; [vm_compute; reflexivity|].
  split; [rewrite Hpayload; vm_compute; reflexivity|].
  exact (Hrule Hnd 1).
Defined.

(** C5 as worded does not hold after the first pass: the pass at 100 ms was
    the first one and its publication failed; at 200 ms, in the second pass,
    the period of the group has not elapsed, the group publishes only if
    changed and the value of [speed] equals the last published one, and
    yet [speed] is staged and published, because the first-run latch is
    still set. *)
Lemma first_run_outlives_the_first_pass :
  System.run (cfg := Demo.cfg) (ff := Demo.ff) Demo.latch_calls
    (System.boot (cfg := Demo.cfg))
  = Some Demo.latch_system
  /\ System.task Demo.latch_system = Some Demo.latch_task
  /\ first_run Demo.latch_task = true
  /\ onlyIfChanged (group_at (cfg := Demo.cfg)
                      (propGroups (System.registry Demo.latch_system)) 0) = true
  /\ isMsElapsed 200
       (latestWakeTimeMs (group_at (cfg := Demo.cfg)
                            (propGroups (System.registry Demo.latch_system)) 0))
       (periodMs (group_at (cfg := Demo.cfg)
                    (propGroups (System.registry Demo.latch_system)) 0)) = false
  /\ disabled (prop_at (props (System.registry Demo.latch_system)) 0) = false
  /\ value_differs (prop_at (props (System.registry Demo.latch_system)) 0) = false
  /\ staged (cfg := Demo.cfg) 200 (System.registry Demo.latch_system) Demo.latch_task = [0]
  /\ snd (tick (cfg := Demo.cfg) (ff := Demo.ff) true (fun _ => true) 200
            (System.registry Demo.latch_system) Demo.latch_task)
     = Some ("{" +++ quoted "speed" +++ ":0}").
Proof. vm_compute. repeat split; reflexivity. Qed.

End SchedulerFacts.

(** ** The state a pass leaves *)

Module PassFacts.

Import Int Libc Props Batch Outcome SchedulerFacts.

Section WithConfig.

Context {cfg : Config} {ff : FloatFormat}.

Lemma set_mark_false_id (p : Prop_t) :
  setToPublish p = false -> set_setToPublish false p = p.
Proof. destruct p. cbn. intros ->. reflexivity. Qed.

(** The loop that clears the changed flag of the staged properties. *)
Lemma clear_changed_of (l : list Z) :
  forall ps,
    List.NoDup l ->
    (forall i, In i l -> in_range ps i) ->
    let ps' := fold_left
                 (fun ps pIdx =>
                    if setToPublish (prop_at ps pIdx)
                    then upd_prop ps pIdx (set_changed false) else ps) l ps in
    length ps' = length ps
    /\ forall j,
        prop_at ps' j
        = if mem j l && setToPublish (prop_at ps j)
          then set_changed false (prop_at ps j) else prop_at ps j.
Proof.
  induction l as [|i l IH]; intros ps Hnd Hin; cbn zeta.
  - split; [reflexivity|]. intros j. reflexivity.
  - apply List.NoDup_cons_iff in Hnd as [Hi Hnd]. cbn [fold_left].
    assert (Hir : in_range ps i) by (apply Hin; left; reflexivity).
    set (ps1 := if setToPublish (prop_at ps i)
                then upd_prop ps i (set_changed false) else ps).
    assert (Hlen1 : length ps1 = length ps).
    { unfold ps1. destruct (setToPublish _); [apply length_upd_prop|reflexivity]. }
    assert (H1 : forall j,
               prop_at ps1 j
               = if (j =? i) && setToPublish (prop_at ps j)
                 then set_changed false (prop_at ps j) else prop_at ps j).
    { intros j. unfold ps1. destruct (Z.eqb_spec j i) as [->|Hne]; cbn [andb].
      - destruct (setToPublish (prop_at ps i)); [|reflexivity].
        unfold upd_prop. apply prop_at_aset_same. exact Hir.
      - destruct (setToPublish (prop_at ps i)); [|reflexivity].
        unfold upd_prop. apply prop_at_aset_other. congruence. }
    destruct (IH ps1 Hnd) as [Hlen Hrec].
    { intros j Hj. apply (in_range_same_length ps); [exact Hlen1|].
      apply Hin. right. exact Hj. }
    cbn zeta in Hlen, Hrec. split; [congruence|].
    intros j. rewrite Hrec, mem_cons, !H1.
    destruct (Z.eqb_spec j i) as [->|Hne]; cbn [andb orb].
    + assert (Hm : mem i l = false).
      { destruct (mem i l) eqn:E; [|reflexivity]. apply mem_In in E. contradiction. }
      rewrite Hm. cbn [andb]. reflexivity.
    + reflexivity.
Qed.

Lemma mem_seqZ (j n : Z) : mem j (seqZ 0 n) = (0 <=? j) && (j <? n).
Proof.
  destruct (mem j (seqZ 0 n)) eqn:E.
  - apply mem_In, list_elem_of_In, elem_of_seqZ in E. symmetry.
    apply andb_true_iff. split; [apply Z.leb_le|apply Z.ltb_lt]; lia.
  - symmetry. apply not_true_is_false. intros H. apply andb_true_iff in H as [H0 H1].
    apply Z.leb_le in H0. apply Z.ltb_lt in H1.
    assert (Hin : mem j (seqZ 0 n) = true)
      by (apply mem_In, list_elem_of_In, elem_of_seqZ; lia).
    congruence.
Qed.

Lemma mem_false_not_In (k : Z) (l : list Z) : mem k l = false <-> ~ In k l.
Proof.
  rewrite <- mem_In. destruct (mem k l); split; intros H; congruence.
Qed.

Lemma staged_are_visited (nowMs : Z) (fr : bool) (ps : list Prop_t) (vs : list (bool * Z)) :
  forall al k, In k (staged_visits nowMs fr ps al vs) -> In k (map snd vs).
Proof.
  induction vs as [|v vs IH]; intros al k Hk; [destruct Hk|].
  cbn [staged_visits] in Hk. cbn [map].
  destruct (stages_at nowMs fr ps al v).
  - destruct Hk as [<-|Hk]; [left; reflexivity|right; exact (IH _ _ Hk)].
  - right. exact (IH _ _ Hk).
Qed.

(** The loop that clears the staged marks. *)
Lemma clear_marks_exact (l : list Z) :
  forall ps,
    List.NoDup l ->
    (forall i, In i l -> in_range ps i) ->
    let ps' := fold_left (fun ps pIdx => upd_prop ps pIdx (set_setToPublish false)) l ps in
    forall j,
      prop_at ps' j
      = if mem j l then set_setToPublish false (prop_at ps j) else prop_at ps j.
Proof.
  induction l as [|i l IH]; intros ps Hnd Hin; cbn zeta; [reflexivity|].
  apply List.NoDup_cons_iff in Hnd as [Hi Hnd]. cbn [fold_left].
  assert (Hir : in_range ps i) by (apply Hin; left; reflexivity).
  intros j. rewrite (IH (upd_prop ps i (set_setToPublish false)) Hnd).
  2:{ intros x Hx. apply (in_range_same_length ps); [apply length_upd_prop|].
      apply Hin. right. exact Hx. }
  rewrite mem_cons. unfold upd_prop.
  destruct (Z.eqb_spec j i) as [->|Hne]; cbn [orb].
  - assert (Hm : mem i l = false) by (apply mem_false_not_In; exact Hi).
    rewrite Hm. apply prop_at_aset_same. exact Hir.
  - rewrite prop_at_aset_other by congruence. reflexivity.
Qed.

(** The records a pass run while connected leaves, from a well formed
    registry and an empty buffer. *)
Lemma pass_records_wf (publish : string -> bool) (nowMs : Z) (s : State) (t : Task) :
  System.registry_wf s -> jsonBuffer t = EmptyString ->
  forall k,
    prop_at (props (fst (fst (tick true publish nowMs s t)))) k
    = record_after_pass nowMs (publish (payload nowMs s t)) (prop_at (props s) k)
        (mem k (staged nowMs s t)) (mem k (map snd (due_members nowMs s t))).
Proof.
  intros Hwf Hbuf0. pose proof (due_members_in_range nowMs s t Hwf) as Hrange.
  destruct Hwf as (Hlen & Hglen & Hnum & Hgnum & Hmem & Hmarks).
  assert (Hloop : threaded (staging nowMs s t)
                  = fold_left (visit nowMs (first_run t)) (due_members nowMs s t)
                      (props s, EmptyString, false)).
  { unfold staging, for_loop. rewrite groups_loop_is_visits.
    - unfold threaded. cbn [st_props st_buffer st_toPublish st_groups].
      rewrite Hbuf0. reflexivity.
    - apply NoDup_ListNoDup, NoDup_seqZ. }
  destruct (fold_left (visit nowMs (first_run t)) (due_members nowMs s t)
              (props s, EmptyString, false)) as [[ps' buf'] tp'] eqn:E.
  apply (visits_from_pass_start nowMs (first_run t) (props s) _ _ [] []) in E
    as (Hbuf & Hlen' & Hrec); [|reflexivity|intros k; reflexivity|exact Hrange].
  fold (staged nowMs s t) in Hbuf, Hrec.
  unfold threaded in Hloop. injection Hloop as Hps Hb Htp.
  rewrite emit_from_empty in Hbuf.
  2:{ apply List.Forall_forall. intros x Hx.
      apply List.in_map_iff in Hx as (v & <- & _). apply member_text_nonempty. }
  assert (Hvis : forall k, mem k (staged nowMs s t) = true ->
                           mem k (seqZ 0 (numPropsCreated s)) = true).
  { intros k Hk. apply mem_In in Hk. apply staged_are_visited in Hk.
    apply List.in_map_iff in Hk as (v & <- & Hv).
    apply due_member_of_group in Hv as (pgIdx & Hidx & Hin).
    specialize (Hmem pgIdx _ Hidx Hin).
    apply mem_In, list_elem_of_In, elem_of_seqZ. lia. }
  assert (Hseq : forall i, In i (seqZ 0 (numPropsCreated s)) -> in_range ps' i).
  { intros i Hi. apply list_elem_of_In, elem_of_seqZ in Hi. unfold in_range. lia. }
  assert (Hcases : (staged nowMs s t = [] /\ buf' = EmptyString /\ tp' = false)
                   \/ (tp' = true /\ buf' +++ "}" = payload nowMs s t)).
  { unfold payload. destruct (staged nowMs s t) as [|k0 ks]; cbn [map] in Hbuf;
      injection Hbuf as -> ->; [left|right]; repeat split; reflexivity. }
  intros k. unfold tick. rewrite Htp, Hb.
  specialize (Hrec k). cbn [mem existsb orb] in Hrec.
  destruct Hcases as [(Es & -> & ->)|(-> & Hpay)].
  - cbn [fst snd props with_props]. rewrite Hps, Hrec, Es. reflexivity.
  - cbv zeta. rewrite Hpay. cbn [fst snd props with_props].
    set (ok := publish (payload nowMs s t)).
    rewrite Hps. unfold clear_setToPublish, clear_changed_of_staged, for_loop.
    assert (Hnd : List.NoDup (seqZ 0 (numPropsCreated s)))
      by apply NoDup_ListNoDup, NoDup_seqZ.
    destruct (clear_changed_of (seqZ 0 (numPropsCreated s)) ps' Hnd Hseq) as [Hlc Hrc].
    cbn zeta in Hlc, Hrc.
    set (ps1 := if ok
                then fold_left
                       (fun ps pIdx =>
                          if setToPublish (prop_at ps pIdx)
                          then upd_prop ps pIdx (set_changed false) else ps)
                       (seqZ 0 (numPropsCreated s)) ps'
                else ps').
    assert (Hl1 : length ps1 = length ps') by (unfold ps1; destruct ok; congruence).
    rewrite (clear_marks_exact (seqZ 0 (numPropsCreated s)) ps1 Hnd).
    2:{ intros i Hi. apply (in_range_same_length ps'); [exact Hl1|]. apply Hseq, Hi. }
    assert (H1 : prop_at ps1 k
                 = if ok && (mem k (seqZ 0 (numPropsCreated s)) && setToPublish (prop_at ps' k))
                   then set_changed false (prop_at ps' k) else prop_at ps' k).
    { unfold ps1. destruct ok; cbn [andb]; [apply Hrc|reflexivity]. }
    rewrite H1, Hrec. unfold record_after_pass, record_after.
    destruct (mem k (staged nowMs s t)) eqn:Ek.
    + rewrite (Hvis k Ek), setToPublish_stage_record. cbn [andb].
      rewrite andb_true_r. destruct ok; reflexivity.
    + assert (Hf : setToPublish
                     (if mem k (map snd (due_members nowMs s t))
                      then promoted nowMs (prop_at (props s) k)
                      else prop_at (props s) k) = false).
      { destruct (mem k (map snd (due_members nowMs s t)));
          [rewrite (proj1 (proj2 (proj2 (promoted_fields nowMs _))))|]; apply Hmarks. }
      rewrite Hf, !andb_false_r.
      destruct (mem k (seqZ 0 (numPropsCreated s))); [|reflexivity].
      apply set_mark_false_id. exact Hf.
Qed.

(** What the staging loops leave in the buffer and in [propsToPublish]. *)
Lemma staging_outcome (nowMs : Z) (s : State) (t : Task) :
  System.registry_wf s -> jsonBuffer t = EmptyString ->
  (staged nowMs s t = []
   /\ st_buffer (staging nowMs s t) = EmptyString
   /\ st_toPublish (staging nowMs s t) = false)
  \/ (staged nowMs s t <> []
      /\ st_toPublish (staging nowMs s t) = true
      /\ st_buffer (staging nowMs s t) +++ "}" = payload nowMs s t).
Proof.
  intros Hwf Hbuf0. pose proof (due_members_in_range nowMs s t Hwf) as Hrange.
  assert (Hloop : threaded (staging nowMs s t)
                  = fold_left (visit nowMs (first_run t)) (due_members nowMs s t)
                      (props s, EmptyString, false)).
  { unfold staging, for_loop. rewrite groups_loop_is_visits.
    - unfold threaded. cbn [st_props st_buffer st_toPublish st_groups].
      rewrite Hbuf0. reflexivity.
    - apply NoDup_ListNoDup, NoDup_seqZ. }
  destruct (fold_left (visit nowMs (first_run t)) (due_members nowMs s t)
              (props s, EmptyString, false)) as [[ps' buf'] tp'] eqn:E.
  apply (visits_from_pass_start nowMs (first_run t) (props s) _ _ [] []) in E
    as (Hbuf & _ & _); [|reflexivity|intros k; reflexivity|exact Hrange].
  fold (staged nowMs s t) in Hbuf.
  unfold threaded in Hloop. injection Hloop as _ Hb Htp.
  rewrite emit_from_empty in Hbuf.
  2:{ apply List.Forall_forall. intros x Hx.
      apply List.in_map_iff in Hx as (v & <- & _). apply member_text_nonempty. }
  rewrite Hb, Htp. unfold payload.
  destruct (staged nowMs s t) as [|k0 ks]; cbn [map] in Hbuf;
    injection Hbuf as -> ->; [left|right]; repeat split; try reflexivity.
  discriminate.
Qed.

Lemma at_pass_wf (sys : System.System) (t : Task) :
  at_pass sys t -> System.registry_wf (System.registry sys) /\ jsonBuffer t = EmptyString.
Proof.
  intros (Hp & Hg & Hreach & Htask).
  destruct (reachable_invariant sys Hp Hg Hreach) as [Hwf Hbuf].
  split; [exact Hwf|exact (Hbuf t Htask)].
Qed.

(** The groups a pass leaves. *)
Lemma groups_loop_stamps (nowMs : Z) (fr : bool) (l : list Z) :
  forall st,
    List.NoDup l ->
    (forall i, In i l -> 0 <= i < Z.of_nat (length (st_groups st))) ->
    forall j,
      group_at (st_groups (fold_left (group_body nowMs fr) l st)) j
      = if mem j l then group_after_pass nowMs fr (group_at (st_groups st) j)
        else group_at (st_groups st) j.
Proof.
  induction l as [|i l IH]; intros st Hnd Hin j; [reflexivity|].
  apply List.NoDup_cons_iff in Hnd as [Hi Hnd]. cbn [fold_left].
  destruct (group_body_membership nowMs fr st i 0) as [Hlen1 _].
  rewrite IH; [|exact Hnd|].
  2:{ intros x Hx. rewrite Hlen1. apply Hin. right. exact Hx. }
  assert (Hat : group_at (st_groups (group_body nowMs fr st i)) i
                = group_after_pass nowMs fr (group_at (st_groups st) i)).
  { unfold group_body, group_after_pass, is_due.
    destruct (isMsElapsed nowMs _ _ || fr); [|reflexivity].
    destruct (for_loop _ _ _) as [[ps buf] tp]. cbn [st_groups].
    unfold group_at at 1. apply aget_aset_same. apply Hin. left. reflexivity. }
  rewrite mem_cons. destruct (Z.eqb_spec j i) as [->|Hne]; cbn [orb].
  - assert (Hm : mem i l = false) by (apply mem_false_not_In; exact Hi).
    rewrite Hm. exact Hat.
  - rewrite group_body_other_group by congruence. reflexivity.
Qed.

Lemma pass_groups_wf (publish : string -> bool) (nowMs : Z) (s : State) (t : Task) :
  System.registry_wf s ->
  forall j,
    group_at (propGroups (fst (fst (tick true publish nowMs s t)))) j
    = if (0 <=? j) && (j <? numPropGroupsCreated s)
      then group_after_pass nowMs (first_run t) (group_at (propGroups s) j)
      else group_at (propGroups s) j.
Proof.
  intros (Hlen & Hglen & Hnum & Hgnum & Hmem & Hmarks) j.
  assert (Hg : propGroups (fst (fst (tick true publish nowMs s t)))
               = st_groups (staging nowMs s t)).
  { unfold tick. destruct (st_toPublish _); reflexivity. }
  rewrite Hg. unfold staging, for_loop.
  rewrite groups_loop_stamps.
  - cbn [st_groups]. rewrite mem_seqZ. reflexivity.
  - apply NoDup_ListNoDup, NoDup_seqZ.
  - cbn [st_groups]. intros i Hi. apply list_elem_of_In, elem_of_seqZ in Hi. lia.
Qed.

(** *** Fields of the record a pass leaves *)

Lemma record_after_pass_settings (nowMs : Z) (ok : bool) (p0 : Prop_t) (a v : bool) :
  same_settings p0 (record_after_pass nowMs ok p0 a v).
Proof.
  destruct p0 as [k c sg lp sv sc d nd tp lps svs ml db lt dd].
  unfold same_settings, record_after_pass, stage_record, snapshot, promoted. cbn.
  destruct a, v, ok, svs, (db && isMsElapsed nowMs lt dd); cbn; repeat split; reflexivity.
Qed.

Lemma record_after_pass_changed (nowMs : Z) (ok : bool) (p0 : Prop_t) (a v : bool) :
  changed (record_after_pass nowMs ok p0 a v)
  = if a && ok then false
    else changed p0
         || ((a || v)
             && (debouncing p0
                 && isMsElapsed nowMs (latestSetTimeMs p0) (debounceDelayMs p0))).
Proof.
  destruct p0 as [k c sg lp sv sc d nd tp lps svs ml db lt dd].
  unfold record_after_pass, stage_record, snapshot, promoted. cbn.
  destruct a, v, ok, svs, (db && isMsElapsed nowMs lt dd); cbn;
    rewrite ?orb_true_r, ?orb_false_r; reflexivity.
Qed.

Lemma record_after_pass_debouncing (nowMs : Z) (ok : bool) (p0 : Prop_t) (a v : bool) :
  debouncing (record_after_pass nowMs ok p0 a v)
  = debouncing p0
    && negb ((a || v) && isMsElapsed nowMs (latestSetTimeMs p0) (debounceDelayMs p0)).
Proof.
  destruct p0 as [k c sg lp sv sc d nd tp lps svs ml db lt dd].
  unfold record_after_pass, stage_record, snapshot, promoted. cbn.
  destruct a, v, ok, svs, db, (isMsElapsed nowMs lt dd); cbn; reflexivity.
Qed.

Lemma record_after_pass_staged (nowMs : Z) (ok : bool) (p0 : Prop_t) (v : bool) :
  let p := record_after_pass nowMs ok p0 true v in
  value_differs p = false
  /\ setToPublish p = false
  /\ (setStringValue p0 = None -> lastPubValue p = setValue p0)
  /\ (forall sv, setStringValue p0 = Some sv -> lastPubStringValue p = Some sv).
Proof.
  destruct p0 as [k c sg lp sv sc d nd tp lps svs ml db lt dd].
  unfold record_after_pass, stage_record, snapshot, promoted, value_differs. cbn.
  destruct ok, svs as [x|], (db && isMsElapsed nowMs lt dd); cbn;
    unfold streq; rewrite ?String.eqb_refl, ?Z.eqb_refl; cbn;
    repeat split; try reflexivity; try discriminate; intros y H; exact H.
Qed.

Lemma staged_mem_visited (nowMs : Z) (s : State) (t : Task) (k : Z) :
  mem k (staged nowMs s t) = true -> mem k (map snd (due_members nowMs s t)) = true.
Proof.
  intros H. apply mem_In. apply mem_In in H.
  exact (staged_are_visited _ _ _ _ _ _ H).
Qed.

(** *** The registry after a pass *)

(** X1. Every record after a pass run while connected: a staged property has
    its current value recorded as published and, when the publication
    succeeded, its changed flag cleared; a property that was only visited
    has had an elapsed debounce promoted; any other property is as it
    was. *)
Theorem pass_leaves_records (publish : string -> bool) (nowMs : Z)
  (sys : System.System) (t : Task) :
  at_pass sys t ->
  let s := System.registry sys in
  forall k,
    prop_at (props (fst (fst (tick true publish nowMs s t)))) k
    = record_after_pass nowMs (publish (payload nowMs s t)) (prop_at (props s) k)
        (mem k (staged nowMs s t)) (mem k (map snd (due_members nowMs s t))).
Proof.
  intros Hat s k. destruct (at_pass_wf sys t Hat) as [Hwf Hbuf].
  apply pass_records_wf; assumption.
Qed.

(** X2. Staging records the current value as the last published one before
    the outcome of the publication is known: after the pass, whether the
    publish call answered true or false, the value of every staged
    property no longer differs from its last published value, and the
    staged mark is gone. *)
Theorem staged_value_is_recorded_whatever_the_outcome (publish : string -> bool)
  (nowMs : Z) (sys : System.System) (t : Task) (k : Z) :
  at_pass sys t ->
  let s := System.registry sys in
  In k (staged nowMs s t) ->
  let p0 := prop_at (props s) k in
  let p := prop_at (props (fst (fst (tick true publish nowMs s t)))) k in
  value_differs p = false
  /\ setToPublish p = false
  /\ setValue p = setValue p0
  /\ setStringValue p = setStringValue p0
  /\ (setStringValue p0 = None -> lastPubValue p = setValue p0)
  /\ (forall sv, setStringValue p0 = Some sv -> lastPubStringValue p = Some sv).
Proof.
  intros Hat s Hk p0 p. destruct (at_pass_wf sys t Hat) as [Hwf Hbuf].
  unfold p. rewrite (pass_records_wf publish nowMs s t Hwf Hbuf k).
  apply mem_In in Hk. rewrite Hk. fold p0.
  destruct (record_after_pass_staged nowMs (publish (payload nowMs s t)) p0
              (mem k (map snd (due_members nowMs s t)))) as (Hd & Hm & Hn & Hs).
  destruct (record_after_pass_settings nowMs (publish (payload nowMs s t)) p0 true
              (mem k (map snd (due_members nowMs s t))))
    as (_ & _ & Hsv & _ & _ & _ & Hssv & _).
  repeat split; try assumption; symmetry; assumption.
Qed.

(** X3. The changed flag after a pass run while connected: cleared for the
    staged properties when the publication succeeded; otherwise what it
    was, or set by the promotion of an elapsed debounce in a visited
    property. *)
Theorem changed_flag_after_pass (publish : string -> bool) (nowMs : Z)
  (sys : System.System) (t : Task) (k : Z) :
  at_pass sys t ->
  let s := System.registry sys in
  let p0 := prop_at (props s) k in
  changed (prop_at (props (fst (fst (tick true publish nowMs s t)))) k)
  = if mem k (staged nowMs s t) && publish (payload nowMs s t) then false
    else changed p0
         || (mem k (map snd (due_members nowMs s t))
             && (debouncing p0
                 && isMsElapsed nowMs (latestSetTimeMs p0) (debounceDelayMs p0))).
Proof.
  intros Hat s p0. destruct (at_pass_wf sys t Hat) as [Hwf Hbuf].
  rewrite (pass_records_wf publish nowMs s t Hwf Hbuf k), record_after_pass_changed.
  fold p0. destruct (mem k (staged nowMs s t)) eqn:Ek; [|reflexivity].
  rewrite (staged_mem_visited nowMs s t k Ek). reflexivity.
Qed.

(** X4. The debouncing flag after a pass run while connected: a pending
    debounce ends exactly when the property is a member of a due group and
    its delay has elapsed; the pass never starts one. *)
Theorem debouncing_after_pass (publish : string -> bool) (nowMs : Z)
  (sys : System.System) (t : Task) (k : Z) :
  at_pass sys t ->
  let s := System.registry sys in
  let p0 := prop_at (props s) k in
  debouncing (prop_at (props (fst (fst (tick true publish nowMs s t)))) k)
  = debouncing p0
    && negb (mem k (map snd (due_members nowMs s t))
             && isMsElapsed nowMs (latestSetTimeMs p0) (debounceDelayMs p0)).
Proof.
  intros Hat s p0. destruct (at_pass_wf sys t Hat) as [Hwf Hbuf].
  rewrite (pass_records_wf publish nowMs s t Hwf Hbuf k), record_after_pass_debouncing.
  fold p0. destruct (mem k (staged nowMs s t)) eqn:Ek; [|reflexivity].
  rewrite (staged_mem_visited nowMs s t k Ek). reflexivity.
Qed.

(** X5. A pass, connected or not, successful or not, never alters what the
    application set: key, sign, current numeric and string value, scale,
    disabled flag, number of decimals, string capacity, time of the last
    update and debounce delay of every property, nor the counters and the
    defaults. *)
Theorem pass_keeps_settings (connected : bool) (publish : string -> bool) (nowMs : Z)
  (sys : System.System) (t : Task) :
  at_pass sys t ->
  let s := System.registry sys in
  let s' := fst (fst (tick connected publish nowMs s t)) in
  (forall k, same_settings (prop_at (props s) k) (prop_at (props s') k))
  /\ numPropsCreated s' = numPropsCreated s
  /\ numPropGroupsCreated s' = numPropGroupsCreated s
  /\ defaultValue s' = defaultValue s
  /\ defaultChanged s' = defaultChanged s.
Proof.
  intros Hat s s'. destruct (at_pass_wf sys t Hat) as [Hwf Hbuf].
  destruct connected.
  - split.
    + intros k. unfold s'.
      rewrite (pass_records_wf publish nowMs s t Hwf Hbuf k).
      apply record_after_pass_settings.
    + unfold s', tick. destruct (st_toPublish _); cbn; auto.
  - unfold s'. cbn. split; [|auto]. intros k. unfold same_settings. auto 12.
Qed.

(** X6. A pass run while connected stamps every created group that is due with
    the time of the pass, whether the publication then succeeds or not, and
    changes nothing else in the group table. *)
Theorem groups_after_pass (publish : string -> bool) (nowMs : Z)
  (sys : System.System) (t : Task) (j : Z) :
  at_pass sys t ->
  let s := System.registry sys in
  let g := group_at (propGroups s) j in
  let g' := group_at (propGroups (fst (fst (tick true publish nowMs s t)))) j in
  onlyIfChanged g' = onlyIfChanged g
  /\ propsIndexes g' = propsIndexes g
  /\ propsWithin g' = propsWithin g
  /\ periodMs g' = periodMs g
  /\ latestWakeTimeMs g'
     = if (0 <=? j) && (j <? numPropGroupsCreated s)
          && (isMsElapsed nowMs (latestWakeTimeMs g) (periodMs g) || first_run t)
       then nowMs else latestWakeTimeMs g.
Proof.
  intros Hat s g g'. destruct (at_pass_wf sys t Hat) as [Hwf Hbuf].
  unfold g'. rewrite (pass_groups_wf publish nowMs s t Hwf j). fold g.
  unfold group_after_pass, is_due.
  destruct ((0 <=? j) && (j <? numPropGroupsCreated s)); cbn [andb];
    [|repeat split; reflexivity].
  destruct (isMsElapsed nowMs (latestWakeTimeMs g) (periodMs g) || first_run t);
    repeat split; reflexivity.
Qed.

(** X7. The task after a pass: the buffer is empty again, and the first-run
    latch is cleared exactly by a pass run while connected that staged
    something and whose publication succeeded. *)
Theorem task_after_pass (connected : bool) (publish : string -> bool) (nowMs : Z)
  (sys : System.System) (t : Task) :
  at_pass sys t ->
  let s := System.registry sys in
  let t' := snd (fst (tick connected publish nowMs s t)) in
  jsonBuffer t' = EmptyString
  /\ first_run t'
     = first_run t
       && negb (connected
                && match staged nowMs s t with [] => false | _ :: _ => true end
                && publish (payload nowMs s t)).
Proof.
  intros Hat s t'. destruct (at_pass_wf sys t Hat) as [Hwf Hbuf].
  unfold t'. split.
  - apply tick_keeps_invariant; assumption.
  - rewrite first_run_latch. destruct connected; cbn [andb]; [|reflexivity].
    destruct (staging_outcome nowMs s t Hwf Hbuf) as [(-> & _ & ->)|(Hne & -> & ->)].
    + reflexivity.
    + destruct (staged nowMs s t); [contradiction|reflexivity].
Qed.

(** *** Which members a pass can stage *)

Lemma staged_visits_rule (nowMs : Z) (fr : bool) (ps : list Prop_t) (vs : list (bool * Z)) :
  forall al k,
    In k (staged_visits nowMs fr ps al vs) ->
    exists oic,
      In (oic, k) vs
      /\ disabled (prop_at ps k) = false
      /\ ((changed (promoted nowMs (prop_at ps k)) = true
           /\ value_differs (prop_at ps k) = true)
          \/ oic = false \/ fr = true).
Proof.
  induction vs as [|[oic j] vs IH]; intros al k Hk; [destruct Hk|].
  rewrite staged_visits_cons in Hk.
  destruct (negb (disabled (promoted nowMs (prop_at ps j))) && _) eqn:E.
  - destruct Hk as [<-|Hk].
    + exists oic. split; [left; reflexivity|].
      destruct (promoted_fields nowMs (prop_at ps j)) as (Hd & Hv & _ & _).
      rewrite Hd, Hv in E.
      apply andb_true_iff in E as [E1 E2]. apply negb_true_iff in E1.
      split; [exact E1|].
      apply orb_true_iff in E2 as [E2|E2]; [|right; right; exact E2].
      apply orb_true_iff in E2 as [E2|E2]; [|right; left; apply negb_true_iff; exact E2].
      apply andb_true_iff in E2 as [E2 E3]. apply andb_true_iff in E3 as [E3 _].
      left. split; assumption.
    + destruct (IH _ _ Hk) as (o & Ho & Hrest). exists o. split; [right; exact Ho|exact Hrest].
  - destruct (IH _ _ Hk) as (o & Ho & Hrest). exists o. split; [right; exact Ho|exact Hrest].
Qed.

Lemma staged_visits_none (nowMs : Z) (fr : bool) (ps : list Prop_t) (vs : list (bool * Z)) :
  (forall v, In v vs -> stages nowMs fr ps v = false) ->
  forall al, staged_visits nowMs fr ps al vs = [].
Proof.
  induction vs as [|v vs IH]; intros Hnone al; [reflexivity|].
  cbn [staged_visits].
  assert (Hv : stages_at nowMs fr ps al v = false).
  { specialize (Hnone v (or_introl eq_refl)). unfold stages, must_stage in Hnone.
    unfold stages_at. cbv zeta.
    destruct (negb (disabled (promoted nowMs (prop_at ps (snd v))))); [|reflexivity].
    cbn [andb] in *. destruct (negb (fst v)); [rewrite orb_true_r in Hnone; discriminate|].
    destruct fr; [rewrite orb_true_r in Hnone; discriminate|].
    rewrite !orb_false_r in *.
    destruct (changed (promoted nowMs (prop_at ps (snd v)))); [|reflexivity].
    cbn [andb] in *. rewrite Hnone. reflexivity. }
  rewrite Hv. apply IH. intros w Hw. apply Hnone. right. exact Hw.
Qed.

(** X8. Whatever a pass run while connected marks as staged, and so puts in
    the payload, is an enabled member of a due group, and it is there for
    one of three reasons: it is changed with a value that differs from the
    last published one, its group does not publish only if changed, or
    the first-run latch is set. In particular a disabled property is never
    published. *)
Theorem staged_members_are_enabled (nowMs : Z) (sys : System.System) (t : Task) (k : Z) :
  at_pass sys t ->
  let s := System.registry sys in
  let p0 := prop_at (props s) k in
  setToPublish (prop_at (st_props (staging nowMs s t)) k) = true ->
  exists oic,
    In (oic, k) (due_members nowMs s t)
    /\ disabled p0 = false
    /\ (((changed p0 = true
          \/ (debouncing p0 = true
              /\ isMsElapsed nowMs (latestSetTimeMs p0) (debounceDelayMs p0) = true))
         /\ value_differs p0 = true)
        \/ oic = false \/ first_run t = true).
Proof.
  intros Hat s p0 Hmark. destruct (at_pass_wf sys t Hat) as [Hwf Hbuf].
  destruct (batch_between_passes (fun _ => true) nowMs s t Hbuf) as [Hmarks _].
  { apply Hwf. }
  { apply due_members_in_range. exact Hwf. }
  apply Hmarks in Hmark. apply staged_visits_rule in Hmark as (oic & Hv & Hd & Hrule).
  exists oic. split; [exact Hv|]. split; [exact Hd|].
  destruct Hrule as [[Hc Hdiff]|Hrest]; [left|right; exact Hrest].
  split; [|exact Hdiff].
  rewrite (proj2 (proj2 (proj2 (promoted_fields nowMs _)))) in Hc.
  apply orb_true_iff in Hc as [Hc|Hc]; [left; exact Hc|right].
  apply andb_true_iff in Hc. exact Hc.
Qed.

(** X9. Once the first-run latch is cleared, a pass over due groups that all
    publish only if changed, none of whose members is enabled, changed
    (or with an elapsed debounce) and different from its last published
    value, does not call the publish function and leaves the task as it
    was. *)
Theorem quiet_pass_publishes_nothing (publish : string -> bool) (nowMs : Z)
  (sys : System.System) (t : Task) :
  at_pass sys t ->
  let s := System.registry sys in
  first_run t = false ->
  (forall oic k,
      In (oic, k) (due_members nowMs s t) ->
      let p0 := prop_at (props s) k in
      oic = true
      /\ (disabled p0 = true
          \/ value_differs p0 = false
          \/ (changed p0 = false
              /\ (debouncing p0 = false
                  \/ isMsElapsed nowMs (latestSetTimeMs p0) (debounceDelayMs p0) = false)))) ->
  snd (tick true publish nowMs s t) = None
  /\ snd (fst (tick true publish nowMs s t)) = t.
Proof.
  intros Hat s Hfr Hquiet. destruct (at_pass_wf sys t Hat) as [Hwf Hbuf].
  assert (Hnone : staged nowMs s t = []).
  { unfold staged. apply staged_visits_none. intros [oic k] Hv.
    destruct (Hquiet oic k Hv) as [-> Hk]. unfold stages, must_stage. cbn [fst snd].
    destruct (promoted_fields nowMs (prop_at (props s) k)) as (-> & -> & _ & ->).
    rewrite Hfr. cbn [negb]. rewrite !orb_false_r.
    destruct Hk as [->|[->|[-> Hdeb]]];
      [reflexivity|rewrite ?andb_false_r; reflexivity|].
    destruct Hdeb as [->| ->]; cbn; rewrite ?andb_false_r; cbn;
      rewrite ?andb_false_r; reflexivity. }
  destruct (staging_outcome nowMs s t Hwf Hbuf) as [(_ & Hb & Htp)|(Hne & _)];
    [|contradiction].
  unfold tick. rewrite Htp, Hb. cbn. split; [reflexivity|].
  destruct t as [b f]. cbn in Hbuf. subst b. reflexivity.
Qed.

(** X10. In every state the firmware can reach the two arrays have their
    declared length, the counters are within the capacities, every member
    of a created group is the index of a created property, no property
    carries the staged mark and, once the task is started, its buffer is
    empty. *)
Theorem reachable_registry_is_well_formed (sys : System.System) :
  0 <= TRACKLE_MAX_PROPS_NUM -> 0 <= TRACKLE_MAX_PROPGROUPS_NUM ->
  System.reachable sys ->
  let s := System.registry sys in
  Z.of_nat (length (props s)) = TRACKLE_MAX_PROPS_NUM
  /\ Z.of_nat (length (propGroups s)) = TRACKLE_MAX_PROPGROUPS_NUM
  /\ 0 <= numPropsCreated s <= TRACKLE_MAX_PROPS_NUM
  /\ 0 <= numPropGroupsCreated s <= TRACKLE_MAX_PROPGROUPS_NUM
  /\ (forall pgIdx k,
        0 <= pgIdx < numPropGroupsCreated s ->
        In k (members (group_at (propGroups s) pgIdx)) ->
        0 <= k < numPropsCreated s)
  /\ (forall k, setToPublish (prop_at (props s) k) = false)
  /\ (forall t, System.task sys = Some t -> jsonBuffer t = EmptyString).
Proof.
  intros Hp Hg Hreach s.
  destruct (reachable_invariant sys Hp Hg Hreach)
    as [(H1 & H2 & H3 & H4 & H5 & H6) H7].
  repeat split; try assumption; try apply H3; try apply H4.
  - apply (H5 pgIdx k); assumption.
  - apply (H5 pgIdx k); assumption.
Qed.

End WithConfig.

(** *** The theorems on the plant of the demo *)

Section OnThePlant.

#[local] Existing Instance Demo.cfg.
#[local] Existing Instance Demo.ff.

Local Notation plant := (System.registry Demo.plant_system).
Local Notation accept := (fun _ : string => true).
Local Notation refuse := (fun _ : string => false).

Lemma plant_at_pass : at_pass Demo.plant_system Demo.plant_task.
Proof.
  split; [cbn; lia|]. split; [cbn; lia|]. split; [|reflexivity].
  exists Demo.plant_calls. vm_compute. reflexivity.
Qed.

Lemma quiet_at_pass : at_pass Cases.quiet_system Cases.quiet_task.
Proof.
  split; [cbn; lia|]. split; [cbn; lia|]. split; [|vm_compute; reflexivity].
  exists Cases.quiet_calls. vm_compute. reflexivity.
Qed.

Lemma pass_leaves_records_witness :
  at_pass Demo.plant_system Demo.plant_task
  /\ prop_at (props (fst (fst (tick true accept 1100 plant Demo.plant_task)))) 0
     = record_after_pass 1100 (accept (payload 1100 plant Demo.plant_task))
         (prop_at (props plant) 0)
         (mem 0 (staged 1100 plant Demo.plant_task))
         (mem 0 (map snd (due_members 1100 plant Demo.plant_task))).
Proof.
  split; [exact plant_at_pass|].
  pose proof (pass_leaves_records accept 1100 Demo.plant_system Demo.plant_task
                plant_at_pass) as H.
  cbv zeta in H. exact (H 0).
Defined.

Lemma staged_value_is_recorded_whatever_the_outcome_witness :
  In 0 (staged 1100 plant Demo.plant_task)
  /\ value_differs (prop_at (props plant) 0) = true
  /\ value_differs
       (prop_at (props (fst (fst (tick true refuse 1100 plant Demo.plant_task)))) 0)
     = false.
Proof.
  assert (Hin : In 0 (staged 1100 plant Demo.plant_task)) by (vm_compute; auto).
  split; [exact Hin|]. split; [vm_compute; reflexivity|].
  pose proof (staged_value_is_recorded_whatever_the_outcome refuse 1100
                Demo.plant_system Demo.plant_task 0 plant_at_pass) as H.
  cbv zeta in H. exact (proj1 (H Hin)).
Defined.

Lemma changed_flag_after_pass_witness :
  changed (prop_at (props (fst (fst (tick true accept 1100 plant Demo.plant_task)))) 0)
  = false
  /\ changed (prop_at (props (fst (fst (tick true refuse 1100 plant Demo.plant_task)))) 0)
     = true.
Proof.
  pose proof (changed_flag_after_pass accept 1100 Demo.plant_system Demo.plant_task 0
                plant_at_pass) as Ha.
  pose proof (changed_flag_after_pass refuse 1100 Demo.plant_system Demo.plant_task 0
                plant_at_pass) as Hr.
  cbv zeta in Ha, Hr. rewrite Ha, Hr. vm_compute. split; reflexivity.
Defined.

Lemma debouncing_after_pass_witness :
  debouncing (prop_at (props plant) 0) = true
  /\ debouncing (prop_at (props (fst (fst (tick true accept 1100 plant Demo.plant_task)))) 0)
     = false
  /\ debouncing (prop_at (props (fst (fst (tick true accept 1100 plant Demo.plant_task)))) 3)
     = true.
Proof.
  pose proof (debouncing_after_pass accept 1100 Demo.plant_system Demo.plant_task 0
                plant_at_pass) as H0.
  pose proof (debouncing_after_pass accept 1100 Demo.plant_system Demo.plant_task 3
                plant_at_pass) as H3.
  cbv zeta in H0, H3. rewrite H0, H3. vm_compute. repeat split; reflexivity.
Defined.

Lemma pass_keeps_settings_witness :
  at_pass Demo.plant_system Demo.plant_task
  /\ same_settings (prop_at (props plant) 0)
       (prop_at (props (fst (fst (tick true accept 1100 plant Demo.plant_task)))) 0)
  /\ numPropsCreated (fst (fst (tick true accept 1100 plant Demo.plant_task)))
     = numPropsCreated plant.
Proof.
  split; [exact plant_at_pass|].
  pose proof (pass_keeps_settings true accept 1100 Demo.plant_system Demo.plant_task
                plant_at_pass) as H.
  cbv zeta in H. destruct H as (Hs & Hn & _). split; [exact (Hs 0)|exact Hn].
Defined.

Lemma groups_after_pass_witness :
  latestWakeTimeMs (group_at (propGroups plant) 0) = 100
  /\ latestWakeTimeMs
       (group_at (propGroups (fst (fst (tick true refuse 1100 plant Demo.plant_task)))) 0)
     = 1100
  /\ latestWakeTimeMs
       (group_at (propGroups (fst (fst (tick true refuse 700 plant Demo.plant_task)))) 0)
     = 100.
Proof.
  pose proof (groups_after_pass refuse 1100 Demo.plant_system Demo.plant_task 0
                plant_at_pass) as H1.
  pose proof (groups_after_pass refuse 700 Demo.plant_system Demo.plant_task 0
                plant_at_pass) as H2.
  cbv zeta in H1, H2.
  destruct H1 as (_ & _ & _ & _ & H1). destruct H2 as (_ & _ & _ & _ & H2).
  rewrite H1, H2. vm_compute. repeat split; reflexivity.
Defined.

Lemma task_after_pass_witness :
  first_run Demo.latch_task = true
  /\ first_run (snd (fst (tick true refuse 200 (System.registry Demo.latch_system)
                            Demo.latch_task))) = true
  /\ first_run (snd (fst (tick true accept 200 (System.registry Demo.latch_system)
                            Demo.latch_task))) = false.
Proof.
  assert (Hat : at_pass Demo.latch_system Demo.latch_task).
  { split; [cbn; lia|]. split; [cbn; lia|]. split; [|vm_compute; reflexivity].
    exists Demo.latch_calls. vm_compute. reflexivity. }
  pose proof (task_after_pass true refuse 200 Demo.latch_system Demo.latch_task Hat) as Hr.
  pose proof (task_after_pass true accept 200 Demo.latch_system Demo.latch_task Hat) as Ha.
  cbv zeta in Hr, Ha. destruct Hr as [_ Hr]. destruct Ha as [_ Ha].
  rewrite Hr, Ha. vm_compute. repeat split; reflexivity.
Defined.

Lemma staged_members_are_enabled_witness :
  setToPublish (prop_at (st_props (staging 1100 plant Demo.plant_task)) 2) = true
  /\ exists oic,
      In (oic, 2) (due_members 1100 plant Demo.plant_task)
      /\ disabled (prop_at (props plant) 2) = false
      /\ (((changed (prop_at (props plant) 2) = true
            \/ (debouncing (prop_at (props plant) 2) = true
                /\ isMsElapsed 1100 (latestSetTimeMs (prop_at (props plant) 2))
                     (debounceDelayMs (prop_at (props plant) 2)) = true))
           /\ value_differs (prop_at (props plant) 2) = true)
          \/ oic = false \/ first_run Demo.plant_task = true).
Proof.
  assert (Hmark : setToPublish (prop_at (st_props (staging 1100 plant Demo.plant_task)) 2)
                  = true) by (vm_compute; reflexivity).
  split; [exact Hmark|].
  pose proof (staged_members_are_enabled 1100 Demo.plant_system Demo.plant_task 2
                plant_at_pass) as H.
  cbv zeta in H. exact (H Hmark).
Defined.

Lemma quiet_pass_publishes_nothing_witness :
  first_run Cases.quiet_task = false
  /\ due_members 1100 (System.registry Cases.quiet_system) Cases.quiet_task = [(true, 0)]
  /\ snd (tick true accept 1100 (System.registry Cases.quiet_system) Cases.quiet_task)
     = None.
Proof.
  assert (Hfr : first_run Cases.quiet_task = false) by (vm_compute; reflexivity).
  assert (Hdue : due_members 1100 (System.registry Cases.quiet_system) Cases.quiet_task
                 = [(true, 0)]) by (vm_compute; reflexivity).
  split; [exact Hfr|]. split; [exact Hdue|].
  pose proof (quiet_pass_publishes_nothing accept 1100 Cases.quiet_system Cases.quiet_task
                quiet_at_pass) as H.
  cbv zeta in H. apply H; [exact Hfr|].
  intros oic k Hv. rewrite Hdue in Hv. destruct Hv as [Hv|[]].
  injection Hv as <- <-. split; [reflexivity|].
  right. left. vm_compute. reflexivity.
Defined.

Lemma reachable_registry_is_well_formed_witness :
  System.reachable Demo.plant_system
  /\ Z.of_nat (length (props plant)) = 4
  /\ (forall k, setToPublish (prop_at (props plant) k) = false).
Proof.
  assert (Hreach : System.reachable Demo.plant_system).
  { exists Demo.plant_calls. vm_compute. reflexivity. }
  split; [exact Hreach|].
  assert (Hp : 0 <= TRACKLE_MAX_PROPS_NUM) by (cbn; lia).
  assert (Hg : 0 <= TRACKLE_MAX_PROPGROUPS_NUM) by (cbn; lia).
  pose proof (reachable_registry_is_well_formed Demo.plant_system Hp Hg Hreach) as H.
  cbv zeta in H. destruct H as (Hl & _ & _ & _ & _ & Hm & _).
  split; [exact Hl|exact Hm].
Defined.

End OnThePlant.

End PassFacts.

(** ** The interface of the properties *)

Module InterfaceFacts.

Import Int Libc Props Batch Outcome Layout SchedulerFacts PassFacts.

Section WithConfig.

Context {cfg : Config} {ff : FloatFormat}.

Lemma valid_index_spec (s : State) (i : Z) :
  valid_index s i = true <-> 0 <= i < numPropsCreated s.
Proof.
  unfold valid_index. rewrite andb_true_iff, Z.leb_le, Z.ltb_lt. reflexivity.
Qed.

Lemma valid_index_false (s : State) (i : Z) :
  valid_index s i = false <-> ~ (0 <= i < numPropsCreated s).
Proof.
  rewrite <- valid_index_spec. destruct (valid_index s i); split; congruence.
Qed.

Lemma in_service_wf (sys : System.System) :
  in_service sys -> System.registry_wf (System.registry sys).
Proof. intros (Hp & Hg & Hreach). apply (reachable_invariant sys Hp Hg Hreach). Qed.

Lemma created_in_range (s : State) (i : Z) :
  System.registry_wf s -> 0 <= i < numPropsCreated s -> in_range (props s) i.
Proof. intros (Hlen & _ & Hnum & _) Hi. unfold in_range. lia. Qed.

(** The accessors read one record, and only of a created property. *)
Lemma readings_ext (s s' : State) (h len : Z) :
  numPropsCreated s' = numPropsCreated s ->
  (0 <= h - 1 < numPropsCreated s ->
   prop_at (props s') (h - 1) = prop_at (props s) (h - 1)) ->
  readings s' h len = readings s h len.
Proof.
  intros Hn Hrec. unfold readings, Trackle_Prop_getKey, Trackle_Prop_getValue,
    Trackle_Prop_getStringValue, Trackle_Prop_isDisabled, Trackle_Prop_isSigned,
    Trackle_Prop_getScale, Trackle_Prop_getNumberOfDecimals. cbv zeta.
  assert (Hv : valid_index s' (h - 1) = valid_index s (h - 1)).
  { unfold valid_index. rewrite Hn. reflexivity. }
  rewrite Hv. destruct (valid_index s (h - 1)) eqn:E; [|reflexivity].
  apply valid_index_spec in E. rewrite (Hrec E). reflexivity.
Qed.

Lemma readings_of (s : State) (h len : Z) :
  0 <= h - 1 < numPropsCreated s ->
  readings s h len
  = (let p := prop_at (props s) (h - 1) in
     (key p, setValue p,
      match setStringValue p with
      | Some sv => (true, Some (strncpy sv len))
      | None => (false, None)
      end,
      disabled p, sign p, scale p, numDecimals p)).
Proof.
  intros Hh. apply valid_index_spec in Hh.
  unfold readings, Trackle_Prop_getKey, Trackle_Prop_getValue,
    Trackle_Prop_getStringValue, Trackle_Prop_isDisabled, Trackle_Prop_isSigned,
    Trackle_Prop_getScale, Trackle_Prop_getNumberOfDecimals. cbv zeta.
  rewrite Hh. reflexivity.
Qed.

(** The duplicate-name loop, told by the key accessor. *)
Lemma name_in_use_spec (s : State) (name : string) :
  name_in_use s name = true
  <-> exists h, is_handle s h /\ Trackle_Prop_getKey s h = name.
Proof.
  unfold name_in_use, is_handle. rewrite List.existsb_exists. split.
  - intros (i & Hi & Heq). apply list_elem_of_In, elem_of_seqZ in Hi.
    exists (i + 1). split; [lia|]. unfold Trackle_Prop_getKey. cbv zeta.
    replace (i + 1 - 1) with i by lia.
    rewrite (proj2 (valid_index_spec s i)) by lia.
    unfold streq in Heq. apply String.eqb_eq in Heq. congruence.
  - intros (h & Hh & Hkey). exists (h - 1). split.
    + apply list_elem_of_In, elem_of_seqZ. lia.
    + unfold Trackle_Prop_getKey in Hkey. cbv zeta in Hkey.
      rewrite (proj2 (valid_index_spec s (h - 1))) in Hkey by lia.
      unfold streq. apply String.eqb_eq. congruence.
Qed.

Lemma name_in_use_false (s : State) (name : string) :
  name_in_use s name = false
  <-> forall i, 0 <= i < numPropsCreated s -> key (prop_at (props s) i) <> name.
Proof.
  unfold name_in_use. split.
  - intros H i Hi Hkey.
    assert (Ht : existsb (fun pIdx => streq name (key (prop_at (props s) pIdx)))
                   (seqZ 0 (numPropsCreated s)) = true).
    { apply List.existsb_exists. exists i. split.
      - apply list_elem_of_In, elem_of_seqZ. lia.
      - unfold streq. apply String.eqb_eq. congruence. }
    congruence.
  - intros H. apply not_true_is_false. intros Ht.
    apply List.existsb_exists in Ht as (i & Hi & Heq).
    apply list_elem_of_In, elem_of_seqZ in Hi.
    unfold streq in Heq. apply String.eqb_eq in Heq.
    apply (H i); [lia|congruence].
Qed.

Lemma existsb_ext_in {A} (f g : A -> bool) (l : list A) :
  (forall x, In x l -> f x = g x) -> existsb f l = existsb g l.
Proof.
  induction l as [|x l IH]; intros H; [reflexivity|]. cbn [existsb].
  rewrite (H x (or_introl eq_refl)), IH; [reflexivity|].
  intros y Hy. apply H. right. exact Hy.
Qed.

(** *** The constructors *)

Lemma create_succeeds (s : State) (name : string) (scale_ numDecimals_ : Z) (sign_ : bool) :
  numPropsCreated s < TRACKLE_MAX_PROPS_NUM ->
  name_in_use s name = false ->
  strlen name < TRACKLE_MAX_PROP_NAME_LENGTH ->
  Trackle_Prop_create s name scale_ numDecimals_ sign_
  = (mkState (propGroups s) (numPropGroupsCreated s)
       (aset (props s) (numPropsCreated s)
          (mkProp name (defaultChanged s) sign_ (defaultValue s) (defaultValue s)
             scale_ false numDecimals_ false None None 0 false 0 0))
       (numPropsCreated s + 1) (defaultValue s) (defaultChanged s),
     numPropsCreated s + 1).
Proof.
  intros Hcap Hfree Hlen. unfold Trackle_Prop_create.
  rewrite (proj2 (Z.ltb_lt _ _) Hcap), Hfree, (proj2 (Z.ltb_lt _ _) Hlen). reflexivity.
Qed.

Lemma create_fails (s : State) (name : string) (scale_ numDecimals_ : Z) (sign_ : bool) :
  TRACKLE_MAX_PROPS_NUM <= numPropsCreated s \/ name_in_use s name = true
  \/ TRACKLE_MAX_PROP_NAME_LENGTH <= strlen name ->
  Trackle_Prop_create s name scale_ numDecimals_ sign_ = (s, Trackle_PropID_ERROR).
Proof.
  intros H. unfold Trackle_Prop_create.
  destruct (numPropsCreated s <? TRACKLE_MAX_PROPS_NUM) eqn:Hcap; [|reflexivity].
  destruct (name_in_use s name) eqn:Hname; [reflexivity|].
  destruct (strlen name <? TRACKLE_MAX_PROP_NAME_LENGTH) eqn:Hlen; [|reflexivity].
  apply Z.ltb_lt in Hcap, Hlen. destruct H as [H|[H|H]]; [lia|discriminate|lia].
Qed.

(** X11. A new numeric property, read back through the accessors: the new
    handle is the number of properties created so far plus one, it reads
    as the arguments of the constructor with the default value, enabled
    and without a string value, and every other handle reads as before.
    The constructor fails, answering the error handle and leaving the
    registry as it was, exactly when the table is full, the name is the
    key of a created property, or the name does not fit the key array. *)
Theorem create_then_read (sys : System.System) (name : string)
  (scale_ numDecimals_ : Z) (sign_ : bool) (len : Z) :
  in_service sys ->
  let s := System.registry sys in
  let s' := fst (Trackle_Prop_create s name scale_ numDecimals_ sign_) in
  let id := snd (Trackle_Prop_create s name scale_ numDecimals_ sign_) in
  (Trackle_Props_getNumber s < TRACKLE_MAX_PROPS_NUM ->
   (forall h, is_handle s h -> Trackle_Prop_getKey s h <> name) ->
   strlen name < TRACKLE_MAX_PROP_NAME_LENGTH ->
   id = Trackle_Props_getNumber s + 1
   /\ Trackle_Props_getNumber s' = Trackle_Props_getNumber s + 1
   /\ readings s' id len
      = (name, defaultValue s, (false, None), false, sign_, scale_, numDecimals_)
   /\ (forall h, h <> id -> readings s' h len = readings s h len))
  /\ (TRACKLE_MAX_PROPS_NUM <= Trackle_Props_getNumber s
      \/ (exists h, is_handle s h /\ Trackle_Prop_getKey s h = name)
      \/ TRACKLE_MAX_PROP_NAME_LENGTH <= strlen name ->
      id = Trackle_PropID_ERROR /\ s' = s).
Proof.
  intros Hserv s s' id. pose proof (in_service_wf sys Hserv) as Hwf. fold s in Hwf.
  unfold Trackle_Props_getNumber. split.
  - intros Hcap Hfree Hlen.
    assert (Hname : name_in_use s name = false).
    { apply not_true_is_false. intros Ht. apply name_in_use_spec in Ht as (h & Hh & Hk).
      exact (Hfree h Hh Hk). }
    unfold id, s'. rewrite (create_succeeds s name scale_ numDecimals_ sign_ Hcap Hname Hlen).
    cbn [fst snd numPropsCreated].
    destruct Hwf as (Hl & _ & Hnum & _).
    split; [reflexivity|]. split; [reflexivity|]. split.
    + rewrite readings_of by (cbn [numPropsCreated]; lia). cbn [props].
      replace (numPropsCreated s + 1 - 1) with (numPropsCreated s) by lia.
      rewrite prop_at_aset_same by (unfold in_range; lia). reflexivity.
    + intros h Hh. unfold readings, Trackle_Prop_getKey, Trackle_Prop_getValue,
        Trackle_Prop_getStringValue, Trackle_Prop_isDisabled, Trackle_Prop_isSigned,
        Trackle_Prop_getScale, Trackle_Prop_getNumberOfDecimals. cbv zeta.
      destruct (valid_index s (h - 1)) eqn:E.
      * apply valid_index_spec in E.
        rewrite (proj2 (valid_index_spec _ (h - 1))) by (cbn [numPropsCreated]; lia).
        cbn [props]. rewrite prop_at_aset_other by lia. reflexivity.
      * apply valid_index_false in E.
        rewrite (proj2 (valid_index_false _ (h - 1))); [reflexivity|].
        cbn [numPropsCreated]. lia.
  - intros Hfail. unfold id, s'. rewrite create_fails; [split; reflexivity|].
    destruct Hfail as [H|[H|H]]; [left; exact H|right; left|right; right; exact H].
    apply name_in_use_spec. exact H.
Qed.

Lemma createString_succeeds (s : State) (name : string) (maxLength : Z) :
  numPropsCreated s < TRACKLE_MAX_PROPS_NUM ->
  name_in_use s name = false ->
  strlen name < TRACKLE_MAX_PROP_NAME_LENGTH ->
  Trackle_Prop_createString true true s name maxLength
  = (mkState (propGroups s) (numPropGroupsCreated s)
       (aset (props s) (numPropsCreated s)
          (mkProp name (defaultChanged s) false (defaultValue s) (defaultValue s)
             1 false 0 false (Some EmptyString) (Some EmptyString) maxLength false 0 0))
       (numPropsCreated s + 1) (defaultValue s) (defaultChanged s),
     numPropsCreated s + 1).
Proof.
  intros Hcap Hfree Hlen. unfold Trackle_Prop_createString.
  rewrite (proj2 (Z.ltb_lt _ _) Hcap), Hfree, (proj2 (Z.ltb_lt _ _) Hlen). reflexivity.
Qed.

(** Whatever the constructor of a string property does when it fails, the
    counter and the records of the created properties are as before. *)
Lemma createString_fails (m1 m2 : bool) (s : State) (name : string) (maxLength : Z) :
  TRACKLE_MAX_PROPS_NUM <= numPropsCreated s \/ name_in_use s name = true
  \/ TRACKLE_MAX_PROP_NAME_LENGTH <= strlen name \/ m1 = false \/ m2 = false ->
  let r := Trackle_Prop_createString m1 m2 s name maxLength in
  snd r = Trackle_PropID_ERROR
  /\ numPropsCreated (fst r) = numPropsCreated s
  /\ propGroups (fst r) = propGroups s
  /\ numPropGroupsCreated (fst r) = numPropGroupsCreated s
  /\ defaultValue (fst r) = defaultValue s
  /\ defaultChanged (fst r) = defaultChanged s
  /\ length (props (fst r)) = length (props s)
  /\ (forall i, i <> numPropsCreated s ->
                prop_at (props (fst r)) i = prop_at (props s) i).
Proof.
  intros H. cbv zeta. unfold Trackle_Prop_createString.
  destruct (numPropsCreated s <? TRACKLE_MAX_PROPS_NUM) eqn:Hcap;
    [|cbn; repeat split; reflexivity].
  destruct (name_in_use s name) eqn:Hname; [cbn; repeat split; reflexivity|].
  destruct (strlen name <? TRACKLE_MAX_PROP_NAME_LENGTH) eqn:Hlen;
    [|cbn; repeat split; reflexivity].
  apply Z.ltb_lt in Hcap, Hlen.
  destruct m1; cbn [negb].
  2:{ cbn [fst snd with_props props numPropsCreated propGroups numPropGroupsCreated
             defaultValue defaultChanged].
      rewrite length_aset. repeat split; try reflexivity.
      intros i Hi. apply prop_at_aset_other. congruence. }
  destruct m2; cbn [negb].
  2:{ cbn [fst snd with_props props numPropsCreated propGroups numPropGroupsCreated
             defaultValue defaultChanged].
      rewrite length_aset. repeat split; try reflexivity.
      intros i Hi. apply prop_at_aset_other. congruence. }
  destruct H as [H|[H|[H|[H|H]]]]; try lia; discriminate.
Qed.

(** X12. A new string property, read back through the accessors (the capacity
    asked for and the length of the reader's buffer not being negative):
    it reads as an enabled unsigned integer of scale 1 carrying the
    default value and the empty string, and every other handle reads as
    before. When the
    constructor fails (table full, name in use, name too long, or one of
    its two allocations refused) it answers the error handle and nothing
    of it can be seen through the interface: the number of properties and
    what every handle reads are as before, and the name is still free. *)
Theorem createString_then_read (malloc1_ok malloc2_ok : bool) (sys : System.System)
  (name : string) (maxLength len : Z) :
  in_service sys ->
  let s := System.registry sys in
  let s' := fst (Trackle_Prop_createString malloc1_ok malloc2_ok s name maxLength) in
  let id := snd (Trackle_Prop_createString malloc1_ok malloc2_ok s name maxLength) in
  (Trackle_Props_getNumber s < TRACKLE_MAX_PROPS_NUM ->
   (forall h, is_handle s h -> Trackle_Prop_getKey s h <> name) ->
   strlen name < TRACKLE_MAX_PROP_NAME_LENGTH ->
   malloc1_ok = true -> malloc2_ok = true ->
   0 <= maxLength -> 0 <= len ->
   id = Trackle_Props_getNumber s + 1
   /\ Trackle_Props_getNumber s' = Trackle_Props_getNumber s + 1
   /\ readings s' id len
      = (name, defaultValue s, (true, Some EmptyString), false, false, 1, 0)
   /\ (forall h, h <> id -> readings s' h len = readings s h len))
  /\ (TRACKLE_MAX_PROPS_NUM <= Trackle_Props_getNumber s
      \/ (exists h, is_handle s h /\ Trackle_Prop_getKey s h = name)
      \/ TRACKLE_MAX_PROP_NAME_LENGTH <= strlen name
      \/ malloc1_ok = false \/ malloc2_ok = false ->
      id = Trackle_PropID_ERROR
      /\ Trackle_Props_getNumber s' = Trackle_Props_getNumber s
      /\ (forall h, readings s' h len = readings s h len)
      /\ (forall other, name_in_use s' other = name_in_use s other)).
Proof.
  intros Hserv s s' id. pose proof (in_service_wf sys Hserv) as Hwf. fold s in Hwf.
  unfold Trackle_Props_getNumber. split.
  - intros Hcap Hfree Hlen -> -> _ _.
    assert (Hname : name_in_use s name = false).
    { apply not_true_is_false. intros Ht. apply name_in_use_spec in Ht as (h & Hh & Hk).
      exact (Hfree h Hh Hk). }
    unfold id, s'. rewrite (createString_succeeds s name maxLength Hcap Hname Hlen).
    cbn [fst snd numPropsCreated].
    destruct Hwf as (Hl & _ & Hnum & _).
    split; [reflexivity|]. split; [reflexivity|]. split.
    + rewrite readings_of by (cbn [numPropsCreated]; lia). cbn [props].
      replace (numPropsCreated s + 1 - 1) with (numPropsCreated s) by lia.
      rewrite prop_at_aset_same by (unfold in_range; lia). cbn.
      unfold strncpy. destruct (Z.to_nat len); reflexivity.
    + intros h Hh. unfold readings, Trackle_Prop_getKey, Trackle_Prop_getValue,
        Trackle_Prop_getStringValue, Trackle_Prop_isDisabled, Trackle_Prop_isSigned,
        Trackle_Prop_getScale, Trackle_Prop_getNumberOfDecimals. cbv zeta.
      destruct (valid_index s (h - 1)) eqn:E.
      * apply valid_index_spec in E.
        rewrite (proj2 (valid_index_spec _ (h - 1))) by (cbn [numPropsCreated]; lia).
        cbn [props]. rewrite prop_at_aset_other by lia. reflexivity.
      * apply valid_index_false in E.
        rewrite (proj2 (valid_index_false _ (h - 1))); [reflexivity|].
        cbn [numPropsCreated]. lia.
  - intros Hfail.
    assert (Hfail' : TRACKLE_MAX_PROPS_NUM <= numPropsCreated s \/ name_in_use s name = true
                     \/ TRACKLE_MAX_PROP_NAME_LENGTH <= strlen name
                     \/ malloc1_ok = false \/ malloc2_ok = false).
    { destruct Hfail as [H|[H|H]]; [left; exact H|right; left|right; right; exact H].
      apply name_in_use_spec. exact H. }
    destruct (createString_fails malloc1_ok malloc2_ok s name maxLength Hfail')
      as (Hid & Hn & _ & _ & _ & _ & _ & Hrec).
    fold s' in Hn, Hrec. split; [exact Hid|]. split; [exact Hn|]. split.
    + intros h. apply readings_ext; [exact Hn|]. intros Hh. apply Hrec. lia.
    + intros other. unfold name_in_use. rewrite Hn.
      apply existsb_ext_in.
      intros i Hi. apply list_elem_of_In, elem_of_seqZ in Hi. rewrite Hrec by lia. reflexivity.
Qed.

(** *** What every call keeps of the layout of the registry *)

Lemma length_substring (n : nat) (s : string) :
  (String.length (String.substring 0 n s) <= n)%nat.
Proof.
  revert s. induction n as [|n IH]; intros s; destruct s as [|c s]; cbn; try lia.
  specialize (IH s). lia.
Qed.

Lemma strncpy_fits (new : string) (capacity : Z) :
  fits capacity (Some (strncpy new capacity)).
Proof.
  cbn. intros Hc. unfold strlen, strncpy.
  pose proof (length_substring (Z.to_nat capacity) new). lia.
Qed.

Lemma evolves_refl (p : Prop_t) : evolves p p.
Proof. unfold evolves. auto 10. Qed.

Lemma evolves_buffers (p q : Prop_t) : evolves p q -> buffers_ok p -> buffers_ok q.
Proof.
  intros (_ & Hcap & _ & _ & _ & Hset & Hlast) (Hpair & Hfs & Hfl). unfold buffers_ok.
  rewrite Hcap.
  assert (Hfq : fits (stringValueMaxLength p) (setStringValue q)).
  { destruct Hset as [->|(_ & new & ->)]; [exact Hfs|apply strncpy_fits]. }
  split; [|split; [exact Hfq|]].
  - destruct Hlast as [->|(Hsome & -> & _)]; [|tauto].
    destruct Hset as [->|(Hsome & new & ->)]; [exact Hpair|].
    split; [discriminate|]. intros Hl. apply Hpair in Hl. contradiction.
  - destruct Hlast as [->|(_ & -> & _)]; [exact Hfl|exact Hfq].
Qed.

Lemma record_after_pass_evolves (nowMs : Z) (ok : bool) (p0 : Prop_t) (a v : bool) :
  evolves p0 (record_after_pass nowMs ok p0 a v).
Proof.
  destruct p0 as [k c sg lp sv sc d nd tp lps svs ml db lt dd].
  unfold evolves, record_after_pass, stage_record, snapshot, promoted. cbn.
  destruct a, v, ok, svs as [x|], (db && isMsElapsed nowMs lt dd); cbn;
    (do 5 (split; [reflexivity|]); split; [left; reflexivity|]);
    try (left; reflexivity);
    right; (split; [discriminate|]); split; reflexivity.
Qed.

Lemma upd_prop_at (ps : list Prop_t) (i j : Z) (f : Prop_t -> Prop_t) :
  in_range ps i ->
  prop_at (upd_prop ps i f) j = if j =? i then f (prop_at ps i) else prop_at ps j.
Proof.
  intros Hi. unfold upd_prop. destruct (Z.eqb_spec j i) as [->|Hne].
  - apply prop_at_aset_same. exact Hi.
  - apply prop_at_aset_other. congruence.
Qed.

Lemma in_range_upd (ps : list Prop_t) (i k : Z) (f : Prop_t -> Prop_t) :
  in_range ps k -> in_range (upd_prop ps i f) k.
Proof. unfold in_range. rewrite length_upd_prop. tauto. Qed.

(** The record an update leaves. *)
Lemma update_record (nowMs : Z) (s : State) (propID newValue : Z) :
  System.registry_wf s ->
  0 <= propID - 1 < numPropsCreated s ->
  setValue (prop_at (props s) (propID - 1)) <> newValue ->
  Trackle_Prop_update nowMs s propID newValue
  = (with_props
       (aset (props s) (propID - 1)
          (set_setValue newValue
             (set_latestSetTimeMs nowMs
                (set_debouncing true (prop_at (props s) (propID - 1)))))) s,
     true).
Proof.
  intros Hwf Hh Hne. pose proof (created_in_range s _ Hwf Hh) as Hin.
  unfold Trackle_Prop_update. cbv zeta.
  rewrite (proj2 (valid_index_spec s _) Hh).
  rewrite (proj2 (Z.eqb_neq _ _) Hne). cbn [negb]. f_equal. f_equal.
  unfold upd_prop. rewrite !prop_at_aset_same by (unfold in_range; rewrite ?length_aset; exact Hin).
  rewrite !aset_aset. reflexivity.
Qed.

Lemma updateString_record (nowMs : Z) (s : State) (propID : Z) (cur new : string) :
  System.registry_wf s ->
  0 <= propID - 1 < numPropsCreated s ->
  setStringValue (prop_at (props s) (propID - 1)) = Some cur ->
  cur <> new ->
  Trackle_Prop_updateString nowMs s propID (Some new)
  = (with_props
       (aset (props s) (propID - 1)
          (set_setStringValue
             (Some (strncpy new (stringValueMaxLength (prop_at (props s) (propID - 1)))))
             (set_latestSetTimeMs nowMs
                (set_debouncing true (prop_at (props s) (propID - 1)))))) s,
     true).
Proof.
  intros Hwf Hh Hcur Hne. pose proof (created_in_range s _ Hwf Hh) as Hin.
  unfold Trackle_Prop_updateString. cbv zeta.
  rewrite (proj2 (valid_index_spec s _) Hh), Hcur.
  unfold streq. rewrite (proj2 (String.eqb_neq _ _) Hne). cbn [negb]. f_equal. f_equal.
  unfold upd_prop. rewrite !prop_at_aset_same by (unfold in_range; rewrite ?length_aset; exact Hin).
  rewrite !aset_aset. reflexivity.
Qed.

Lemma table_step_same (s s' : State) :
  numPropsCreated s' = numPropsCreated s -> props s' = props s -> table_step s s'.
Proof.
  intros Hn Hp. left. split; [exact Hn|]. intros i _. rewrite Hp. apply evolves_refl.
Qed.

Lemma table_step_upd (s : State) (i : Z) (q : Prop_t) :
  System.registry_wf s ->
  0 <= i < numPropsCreated s ->
  evolves (prop_at (props s) i) q ->
  table_step s (with_props (aset (props s) i q) s).
Proof.
  intros Hwf Hi Hev. left. split; [reflexivity|]. intros j Hj. cbn [props with_props].
  destruct (Z.eq_dec i j) as [<-|Hne].
  - rewrite prop_at_aset_same by (apply created_in_range; assumption). exact Hev.
  - rewrite prop_at_aset_other by exact Hne. apply evolves_refl.
Qed.

Lemma create_table_step (s : State) (name : string) (scale_ numDecimals_ : Z) (sign_ : bool) :
  System.registry_wf s ->
  table_step s (fst (Trackle_Prop_create s name scale_ numDecimals_ sign_)).
Proof.
  intros Hwf.
  destruct (Z_lt_dec (numPropsCreated s) TRACKLE_MAX_PROPS_NUM) as [Hcap|Hcap];
    [|rewrite create_fails by lia; apply table_step_same; reflexivity].
  destruct (name_in_use s name) eqn:Hname;
    [rewrite create_fails by auto; apply table_step_same; reflexivity|].
  destruct (Z_lt_dec (strlen name) TRACKLE_MAX_PROP_NAME_LENGTH) as [Hlen|Hlen];
    [|rewrite create_fails by lia; apply table_step_same; reflexivity].
  rewrite create_succeeds by assumption. cbn [fst]. right.
  destruct Hwf as (Hl & _ & Hnum & _).
  cbn [numPropsCreated props]. split; [reflexivity|]. split.
  - intros i Hi. apply prop_at_aset_other. lia.
  - rewrite prop_at_aset_same by (unfold in_range; lia). cbn [key].
    split; [exact Hname|]. split; [exact Hlen|].
    unfold buffers_ok. cbn. tauto.
Qed.

Lemma createString_table_step (m1 m2 : bool) (s : State) (name : string) (maxLength : Z) :
  System.registry_wf s ->
  table_step s (fst (Trackle_Prop_createString m1 m2 s name maxLength)).
Proof.
  intros Hwf.
  assert (Hfail : TRACKLE_MAX_PROPS_NUM <= numPropsCreated s \/ name_in_use s name = true
                  \/ TRACKLE_MAX_PROP_NAME_LENGTH <= strlen name
                  \/ m1 = false \/ m2 = false ->
                  table_step s (fst (Trackle_Prop_createString m1 m2 s name maxLength))).
  { intros H. destruct (createString_fails m1 m2 s name maxLength H)
      as (_ & Hn & _ & _ & _ & _ & _ & Hrec).
    left. split; [exact Hn|]. intros i Hi. rewrite Hrec by lia. apply evolves_refl. }
  destruct (Z_lt_dec (numPropsCreated s) TRACKLE_MAX_PROPS_NUM) as [Hcap|Hcap];
    [|apply Hfail; lia].
  destruct (name_in_use s name) eqn:Hname; [apply Hfail; auto|].
  destruct (Z_lt_dec (strlen name) TRACKLE_MAX_PROP_NAME_LENGTH) as [Hlen|Hlen];
    [|apply Hfail; lia].
  destruct m1; [|apply Hfail; auto]. destruct m2; [|apply Hfail; auto 6].
  rewrite createString_succeeds by assumption. cbn [fst]. right.
  destruct Hwf as (Hl & _ & Hnum & _).
  cbn [numPropsCreated props]. split; [reflexivity|]. split.
  - intros i Hi. apply prop_at_aset_other. lia.
  - rewrite prop_at_aset_same by (unfold in_range; lia). cbn [key].
    split; [exact Hname|]. split; [exact Hlen|].
    unfold buffers_ok. cbn. split; [split; discriminate|].
    unfold strlen. cbn. lia.
Qed.

Lemma update_table_step (nowMs : Z) (s : State) (propID newValue : Z) :
  System.registry_wf s ->
  table_step s (fst (Trackle_Prop_update nowMs s propID newValue)).
Proof.
  intros Hwf.
  destruct (valid_index s (propID - 1)) eqn:Hv.
  2:{ unfold Trackle_Prop_update. cbv zeta. rewrite Hv. apply table_step_same; reflexivity. }
  apply valid_index_spec in Hv.
  destruct (Z.eq_dec (setValue (prop_at (props s) (propID - 1))) newValue) as [He|Hne].
  - unfold Trackle_Prop_update. cbv zeta. rewrite (proj2 (valid_index_spec s _) Hv).
    rewrite (proj2 (Z.eqb_eq _ _) He). apply table_step_same; reflexivity.
  - rewrite update_record by assumption. cbn [fst].
    apply table_step_upd; [exact Hwf|exact Hv|]. unfold evolves. cbn. auto 10.
Qed.

Lemma updateString_table_step (nowMs : Z) (s : State) (propID : Z) (newValue : option string) :
  System.registry_wf s ->
  table_step s (fst (Trackle_Prop_updateString nowMs s propID newValue)).
Proof.
  intros Hwf.
  destruct (valid_index s (propID - 1)) eqn:Hv.
  2:{ unfold Trackle_Prop_updateString. cbv zeta. rewrite Hv.
      apply table_step_same; reflexivity. }
  destruct (setStringValue (prop_at (props s) (propID - 1))) as [cur|] eqn:Hcur.
  2:{ unfold Trackle_Prop_updateString. cbv zeta. rewrite Hv, Hcur.
      apply table_step_same; reflexivity. }
  destruct newValue as [new|].
  2:{ unfold Trackle_Prop_updateString. cbv zeta. rewrite Hv, Hcur.
      apply table_step_same; reflexivity. }
  apply valid_index_spec in Hv.
  destruct (string_dec cur new) as [He|Hne].
  - unfold Trackle_Prop_updateString. cbv zeta. rewrite (proj2 (valid_index_spec s _) Hv), Hcur.
    unfold streq. rewrite (proj2 (String.eqb_eq _ _) He). apply table_step_same; reflexivity.
  - rewrite (updateString_record nowMs s propID cur new) by assumption. cbn [fst].
    apply table_step_upd; [exact Hwf|exact Hv|]. unfold evolves. cbn.
    do 5 (split; [reflexivity|]). split; [|left; reflexivity].
    right. split; [congruence|]. eexists. reflexivity.
Qed.

Lemma setter_table_step (s : State) (i : Z) (f : Prop_t -> Prop_t) :
  System.registry_wf s ->
  0 <= i < numPropsCreated s ->
  (forall p, evolves p (f p)) ->
  table_step s (with_props (upd_prop (props s) i f) s).
Proof.
  intros Hwf Hi Hf. unfold upd_prop. apply table_step_upd; [exact Hwf|exact Hi|apply Hf].
Qed.

Lemma tick_table_step (connected : bool) (publish : string -> bool) (nowMs : Z)
  (s : State) (t : Task) :
  System.registry_wf s -> jsonBuffer t = EmptyString ->
  table_step s (fst (fst (tick connected publish nowMs s t))).
Proof.
  intros Hwf Hbuf. destruct connected; [|apply table_step_same; reflexivity].
  left. split.
  - unfold tick. destruct (st_toPublish _); reflexivity.
  - intros i _. rewrite (pass_records_wf publish nowMs s t Hwf Hbuf i).
    apply record_after_pass_evolves.
Qed.

(** Every call of the interface and every pass is a step of the table. *)
Lemma perform_table_step (c : System.call) (sys sys' : System.System) :
  System.invariant sys -> System.perform c sys = Some sys' ->
  table_step (System.registry sys) (System.registry sys').
Proof.
  intros [Hwf Hbuf] Hperform. destruct c; cbn in Hperform.
  - injection Hperform as <-. apply create_table_step, Hwf.
  - injection Hperform as <-. apply createString_table_step, Hwf.
  - injection Hperform as <-. cbn [System.registry]. unfold Trackle_PropGroup_create.
    destruct (_ <? _); apply table_step_same; reflexivity.
  - destruct (Trackle_PropGroup_addProp _ _ _) as [[s' b]|] eqn:E; [|discriminate].
    injection Hperform as <-. cbn [System.registry].
    unfold Trackle_PropGroup_addProp in E.
    destruct (_ && _ && _ && _); [|injection E as <- _; apply table_step_same; reflexivity].
    destruct (propGroups _ !! _); [|discriminate].
    destruct (_ <? _); [|injection E as <- _; apply table_step_same; reflexivity].
    destruct (group_contains _ _ _); injection E as <- _; apply table_step_same; reflexivity.
  - injection Hperform as <-. apply update_table_step, Hwf.
  - injection Hperform as <-. apply updateString_table_step, Hwf.
  - injection Hperform as <-. cbn [System.registry]. unfold Trackle_Prop_setDisabled.
    cbv zeta. destruct (valid_index _ _) eqn:Hv; [|apply table_step_same; reflexivity].
    apply valid_index_spec in Hv. apply setter_table_step; [exact Hwf|exact Hv|].
    intros p. unfold evolves. cbn. auto 10.
  - injection Hperform as <-. cbn [System.registry]. unfold Trackle_Prop_setDebounceDelay.
    cbv zeta. destruct (valid_index _ _) eqn:Hv; [|apply table_step_same; reflexivity].
    apply valid_index_spec in Hv. apply setter_table_step; [exact Hwf|exact Hv|].
    intros p. unfold evolves. cbn. auto 10.
  - injection Hperform as <-. apply table_step_same; reflexivity.
  - destruct (System.task sys); [discriminate|]. injection Hperform as <-.
    apply table_step_same; reflexivity.
  - destruct (System.task sys) as [t|] eqn:Et; [|discriminate]. injection Hperform as <-.
    apply tick_table_step; [exact Hwf|exact (Hbuf t eq_refl)].
Qed.

Lemma table_step_keys (s s' : State) : table_step s s' -> keys_wf s -> keys_wf s'.
Proof.
  intros [[Hn Hev]|(Hn & Hold & Hfree & Hlen & _)] [Hdist Hfit].
  - split.
    + intros i j Hi Hj Hk. rewrite Hn in Hi, Hj.
      rewrite (proj1 (Hev i Hi)), (proj1 (Hev j Hj)) in Hk. exact (Hdist i j Hi Hj Hk).
    + intros i Hi. rewrite Hn in Hi. rewrite (proj1 (Hev i Hi)). exact (Hfit i Hi).
  - pose proof (proj1 (name_in_use_false s _) Hfree) as Hnew.
    split.
    + intros i j Hi Hj Hk. rewrite Hn in Hi, Hj.
      destruct (Z.eq_dec i (numPropsCreated s)) as [->|Hi'];
        destruct (Z.eq_dec j (numPropsCreated s)) as [->|Hj']; [reflexivity| | |].
      * rewrite (Hold j) in Hk by lia. exfalso. apply (Hnew j); [lia|congruence].
      * rewrite (Hold i) in Hk by lia. exfalso. apply (Hnew i); [lia|congruence].
      * rewrite (Hold i), (Hold j) in Hk by lia. apply Hdist; [lia|lia|exact Hk].
    + intros i Hi. rewrite Hn in Hi.
      destruct (Z.eq_dec i (numPropsCreated s)) as [->|Hi']; [exact Hlen|].
      rewrite (Hold i) by lia. apply Hfit. lia.
Qed.

Lemma table_step_strings (s s' : State) : table_step s s' -> strings_wf s -> strings_wf s'.
Proof.
  intros [[Hn Hev]|(Hn & Hold & _ & _ & Hbuf)] Hstr i Hi; rewrite Hn in Hi.
  - exact (evolves_buffers _ _ (Hev i Hi) (Hstr i Hi)).
  - destruct (Z.eq_dec i (numPropsCreated s)) as [->|Hi']; [exact Hbuf|].
    rewrite (Hold i) by lia. apply Hstr. lia.
Qed.

(** *** Groups *)

Lemma length_members (g : PropGroup_t) :
  0 <= propsWithin g -> Z.of_nat (length (members g)) = propsWithin g.
Proof. intros H. unfold members. rewrite List.length_map, length_seqZ. lia. Qed.

Lemma group_contains_members (g : PropGroup_t) (k : Z) :
  group_contains g (propsWithin g) k = true <-> In k (members g).
Proof.
  unfold group_contains, members. rewrite List.existsb_exists, List.in_map_iff.
  split; intros (i & H1 & H2).
  - exists i. apply Z.eqb_eq in H2. split; assumption.
  - exists i. split; [exact H2|]. apply Z.eqb_eq. exact H1.
Qed.

Lemma members_snoc (g : PropGroup_t) (k : Z) :
  0 <= propsWithin g < Z.of_nat (length (propsIndexes g)) ->
  members (mkGroup (onlyIfChanged g) (aset (propsIndexes g) (propsWithin g) k)
             (propsWithin g + 1) (periodMs g) (latestWakeTimeMs g))
  = members g ++ [k].
Proof.
  intros Hw. unfold members. cbn [propsIndexes propsWithin].
  rewrite seqZ_app by lia. rewrite List.map_app. f_equal.
  - apply List.map_ext_in. intros i Hi. apply list_elem_of_In, elem_of_seqZ in Hi.
    apply aget_aset_other. lia.
  - rewrite seqZ_cons by lia. rewrite seqZ_nil by lia. cbn [map]. f_equal.
    replace (0 + propsWithin g) with (propsWithin g) by lia.
    apply aget_aset_same. exact Hw.
Qed.

(** A created group never holds more members than there are properties. *)
Lemma members_count (s : State) (j : Z) :
  System.registry_wf s -> groups_wf s ->
  0 <= j < numPropGroupsCreated s ->
  0 <= propsWithin (group_at (propGroups s) j) <= numPropsCreated s.
Proof.
  intros (_ & _ & Hnum & _ & Hmem & _) [_ Hg] Hj.
  destruct (Hg j Hj) as [Hw Hnd]. split; [exact Hw|].
  pose proof (List.NoDup_incl_length (l' := seqZ 0 (numPropsCreated s)) Hnd) as Hle.
  rewrite length_seqZ in Hle.
  assert (Hincl : incl (members (group_at (propGroups s) j)) (seqZ 0 (numPropsCreated s))).
  { intros k Hk. apply list_elem_of_In, elem_of_seqZ. specialize (Hmem j k Hj Hk). lia. }
  specialize (Hle Hincl). pose proof (length_members _ Hw). lia.
Qed.

Lemma groups_wf_same (s s' : State) :
  propGroups s' = propGroups s -> numPropGroupsCreated s' = numPropGroupsCreated s ->
  groups_wf s -> groups_wf s'.
Proof. unfold groups_wf. intros -> ->. tauto. Qed.

Lemma groups_wf_fields (s s' : State) :
  numPropGroupsCreated s' = numPropGroupsCreated s ->
  (forall j, propsIndexes (group_at (propGroups s') j)
             = propsIndexes (group_at (propGroups s) j)
             /\ propsWithin (group_at (propGroups s') j)
                = propsWithin (group_at (propGroups s) j)) ->
  groups_wf s -> groups_wf s'.
Proof.
  intros Hn Hf [Hlen Hg]. split.
  - intros j. rewrite (proj1 (Hf j)). apply Hlen.
  - intros j Hj. rewrite Hn in Hj. unfold members.
    rewrite (proj1 (Hf j)), (proj2 (Hf j)). exact (Hg j Hj).
Qed.

Lemma wake_loop_fields (startMs : Z) (l : list Z) :
  forall gs j,
    let gs' := fold_left
                 (fun gs pgIdx => aset gs pgIdx (set_latestWakeTimeMs startMs (group_at gs pgIdx)))
                 l gs in
    propsIndexes (group_at gs' j) = propsIndexes (group_at gs j)
    /\ propsWithin (group_at gs' j) = propsWithin (group_at gs j).
Proof.
  induction l as [|i l IH]; intros gs j; cbn zeta; [split; reflexivity|].
  cbn [fold_left].
  destruct (IH (aset gs i (set_latestWakeTimeMs startMs (group_at gs i))) j) as [Hi Hw].
  cbn zeta in Hi, Hw. rewrite Hi, Hw.
  destruct (Z.eq_dec i j) as [->|Hne];
    [|unfold group_at; rewrite aget_aset_other by exact Hne; split; reflexivity].
  destruct (Z_lt_dec j 0) as [Hneg|Hpos];
    [|destruct (Z_lt_dec j (Z.of_nat (length gs))) as [Hin|Hout]].
  - rewrite aset_outside by lia. split; reflexivity.
  - assert (Hat : group_at (aset gs j (set_latestWakeTimeMs startMs (group_at gs j))) j
                  = set_latestWakeTimeMs startMs (group_at gs j))
      by (apply aget_aset_same; lia).
    rewrite Hat. split; reflexivity.
  - rewrite aset_outside by lia. split; reflexivity.
Qed.

(** What a successful [Trackle_PropGroup_addProp] does, and when. *)
Lemma addProp_cases (s : State) (propId propGroupId : Z) (r : State * bool) :
  Trackle_PropGroup_addProp s propId propGroupId = Some r ->
  let g := group_at (propGroups s) (propGroupId - 1) in
  (snd r = false /\ fst r = s)
  \/ (snd r = true
      /\ 0 <= propGroupId - 1 < numPropGroupsCreated s
      /\ 0 <= propId - 1 < numPropsCreated s
      /\ ~ In (propId - 1) (members g)
      /\ fst r
         = with_propGroups
             (aset (propGroups s) (propGroupId - 1)
                (mkGroup (onlyIfChanged g)
                   (aset (propsIndexes g) (propsWithin g) (propId - 1))
                   (propsWithin g + 1) (periodMs g) (latestWakeTimeMs g))) s).
Proof.
  unfold Trackle_PropGroup_addProp. cbv zeta.
  destruct ((0 <=? propGroupId - 1) && (propGroupId - 1 <? numPropGroupsCreated s)
            && (propId - 1 <? numPropsCreated s) && (0 <=? propId - 1)) eqn:Hguard;
    [|intros H; injection H as <-; left; split; reflexivity].
  destruct (propGroups s !! Z.to_nat propGroupId) as [gnext|]; [|discriminate].
  destruct (propsWithin gnext <? TRACKLE_MAX_PROPS_NUM - 1);
    [|intros H; injection H as <-; left; split; reflexivity].
  destruct (group_contains _ _ _) eqn:Hc; intros H; injection H as <-;
    [left; split; reflexivity|].
  right. apply andb_true_iff in Hguard as [Hguard Hp0].
  apply andb_true_iff in Hguard as [Hguard Hp1].
  apply andb_true_iff in Hguard as [Hg0 Hg1].
  apply Z.leb_le in Hp0, Hg0. apply Z.ltb_lt in Hp1, Hg1.
  split; [reflexivity|]. split; [lia|]. split; [lia|]. split; [|reflexivity].
  intros Hin. apply group_contains_members in Hin. congruence.
Qed.

Lemma addProp_slot_in_range (s : State) (propGroupId k : Z) :
  System.registry_wf s -> groups_wf s ->
  0 <= propGroupId - 1 < numPropGroupsCreated s ->
  0 <= k < numPropsCreated s ->
  ~ In k (members (group_at (propGroups s) (propGroupId - 1))) ->
  0 <= propsWithin (group_at (propGroups s) (propGroupId - 1))
    < Z.of_nat (length (propsIndexes (group_at (propGroups s) (propGroupId - 1)))).
Proof.
  intros Hwf Hgw Hj Hk Hnew.
  pose proof Hwf as (_ & _ & Hnum & _ & Hmem & _). pose proof Hgw as [Hlen Hg].
  destruct (Hg _ Hj) as [Hw Hnd]. split; [exact Hw|]. rewrite Hlen.
  set (g := group_at (propGroups s) (propGroupId - 1)) in *.
  assert (Hnd' : List.NoDup (k :: members g)) by (apply List.NoDup_cons; assumption).
  pose proof (List.NoDup_incl_length (l' := seqZ 0 (numPropsCreated s)) Hnd') as Hle.
  rewrite length_seqZ in Hle.
  assert (Hincl : incl (k :: members g) (seqZ 0 (numPropsCreated s))).
  { intros x [<-|Hx]; apply list_elem_of_In, elem_of_seqZ; [lia|].
    specialize (Hmem _ x Hj Hx). lia. }
  specialize (Hle Hincl). cbn [length] in Hle. pose proof (length_members g Hw). lia.
Qed.

Lemma group_at_aset_same (gs : list PropGroup_t) (j : Z) (g : PropGroup_t) :
  0 <= j < Z.of_nat (length gs) -> group_at (aset gs j g) j = g.
Proof. intros Hj. apply aget_aset_same. exact Hj. Qed.

Lemma group_at_aset_other (gs : list PropGroup_t) (i j : Z) (g : PropGroup_t) :
  i <> j -> group_at (aset gs i g) j = group_at gs j.
Proof. intros Hne. apply aget_aset_other. exact Hne. Qed.

Lemma perform_keeps_groups (c : System.call) (sys sys' : System.System) :
  System.invariant sys -> groups_wf (System.registry sys) ->
  System.perform c sys = Some sys' -> groups_wf (System.registry sys').
Proof.
  intros [Hwf Hbuf] Hgw Hperform. destruct c; cbn in Hperform.
  - injection Hperform as <-. cbn [System.registry]. revert Hgw.
    apply groups_wf_same; unfold Trackle_Prop_create;
      destruct (_ <? _); try reflexivity; destruct (name_in_use _ _); try reflexivity;
      destruct (_ <? _); reflexivity.
  - injection Hperform as <-. cbn [System.registry]. revert Hgw.
    apply groups_wf_same; unfold Trackle_Prop_createString;
      destruct (_ <? _); try reflexivity; destruct (name_in_use _ _); try reflexivity;
      destruct (_ <? _); try reflexivity; destruct malloc1_ok; try reflexivity;
      destruct malloc2_ok; reflexivity.
  - injection Hperform as <-. cbn [System.registry]. unfold Trackle_PropGroup_create.
    destruct (numPropGroupsCreated _ <? _) eqn:Hcap; [|exact Hgw].
    apply Z.ltb_lt in Hcap. destruct Hwf as (_ & Hglen & _ & Hgnum & _).
    destruct Hgw as [Hlen Hg]. cbn [fst]. split; cbn [propGroups numPropGroupsCreated].
    + intros j. destruct (Z.eq_dec (numPropGroupsCreated (System.registry sys)) j) as [<-|Hne].
      * rewrite group_at_aset_same by lia. cbn [propsIndexes]. apply Hlen.
      * rewrite group_at_aset_other by exact Hne. apply Hlen.
    + intros j Hj. destruct (Z.eq_dec (numPropGroupsCreated (System.registry sys)) j) as [<-|Hne].
      * rewrite !group_at_aset_same by lia.
        rewrite members_of_empty_group. cbn [propsWithin]. split; [lia|apply List.NoDup_nil].
      * rewrite !group_at_aset_other by exact Hne. apply Hg. lia.
  - destruct (Trackle_PropGroup_addProp _ _ _) as [r|] eqn:E; [|discriminate].
    destruct r as [s' b]. injection Hperform as <-. cbn [System.registry].
    apply addProp_cases in E. cbn [fst snd] in E.
    destruct E as [[_ ->]|(_ & Hj & Hk & Hnew & ->)]; [exact Hgw|].
    pose proof (addProp_slot_in_range _ _ _ Hwf Hgw Hj Hk Hnew) as Hslot.
    destruct Hwf as (_ & Hglen & _ & Hgnum & _). destruct Hgw as [Hlen Hg].
    split; cbn [propGroups numPropGroupsCreated with_propGroups].
    + intros j. destruct (Z.eq_dec (propGroupId - 1) j) as [<-|Hne].
      * rewrite group_at_aset_same by lia. cbn [propsIndexes].
        rewrite length_aset. apply Hlen.
      * rewrite group_at_aset_other by exact Hne. apply Hlen.
    + intros j Hj'. destruct (Z.eq_dec (propGroupId - 1) j) as [<-|Hne].
      * rewrite !group_at_aset_same by lia.
        rewrite members_snoc by exact Hslot. cbn [propsWithin].
        destruct (Hg _ Hj) as [Hw Hnd]. split; [lia|].
        apply List.NoDup_app; [exact Hnd|apply List.NoDup_cons; [intros []|apply List.NoDup_nil]|].
        intros a Ha [<-|[]]. contradiction.
      * rewrite !group_at_aset_other by exact Hne. apply Hg. exact Hj'.
  - injection Hperform as <-. cbn [System.registry]. revert Hgw.
    apply groups_wf_same; unfold Trackle_Prop_update; cbv zeta;
      destruct (valid_index _ _); try reflexivity; destruct (negb _); reflexivity.
  - injection Hperform as <-. cbn [System.registry]. revert Hgw.
    apply groups_wf_same; unfold Trackle_Prop_updateString; cbv zeta;
      destruct (valid_index _ _); try reflexivity;
      destruct (setStringValue _); try reflexivity;
      destruct newValue; try reflexivity; destruct (negb _); reflexivity.
  - injection Hperform as <-. cbn [System.registry]. revert Hgw.
    apply groups_wf_same; unfold Trackle_Prop_setDisabled; cbv zeta;
      destruct (valid_index _ _); reflexivity.
  - injection Hperform as <-. cbn [System.registry]. revert Hgw.
    apply groups_wf_same; unfold Trackle_Prop_setDebounceDelay; cbv zeta;
      destruct (valid_index _ _); reflexivity.
  - injection Hperform as <-. exact Hgw.
  - destruct (System.task sys); [discriminate|]. injection Hperform as <-.
    cbn [System.registry]. revert Hgw. apply groups_wf_fields; [reflexivity|].
    intros j. unfold task_start, for_loop. cbn [fst propGroups with_propGroups].
    apply wake_loop_fields.
  - destruct (System.task sys) as [t|] eqn:Et; [|discriminate]. injection Hperform as <-.
    cbn [System.registry]. destruct connected; [|exact Hgw].
    revert Hgw. apply groups_wf_fields.
    + unfold tick. destruct (st_toPublish _); reflexivity.
    + intros j. rewrite (pass_groups_wf trackleSyncStateSecure nowMs _ t Hwf j).
      unfold group_after_pass.
      destruct ((0 <=? j) && _); [|split; reflexivity].
      destruct (is_due _ _ _); split; reflexivity.
Qed.

Lemma perform_keeps_layout (c : System.call) (sys sys' : System.System) :
  System.invariant sys -> layout (System.registry sys) ->
  System.perform c sys = Some sys' -> layout (System.registry sys').
Proof.
  intros Hinv (Hk & Hs & Hg) Hperform.
  pose proof (perform_table_step c sys sys' Hinv Hperform) as Hstep.
  split; [exact (table_step_keys _ _ Hstep Hk)|].
  split; [exact (table_step_strings _ _ Hstep Hs)|].
  exact (perform_keeps_groups c sys sys' Hinv Hg Hperform).
Qed.

Lemma run_keeps_layout (cs : list System.call) :
  forall sys sys',
    System.invariant sys -> layout (System.registry sys) ->
    System.run cs sys = Some sys' -> layout (System.registry sys').
Proof.
  induction cs as [|c cs IH]; intros sys sys' Hinv Hlay Hrun; cbn in Hrun.
  - injection Hrun as <-. exact Hlay.
  - destruct (System.perform c sys) as [sys1|] eqn:E; [|discriminate].
    apply (IH sys1); [|exact (perform_keeps_layout c sys sys1 Hinv Hlay E)|exact Hrun].
    exact (perform_keeps_invariant c sys sys1 Hinv E).
Qed.

Lemma boot_layout : 0 <= TRACKLE_MAX_PROPS_NUM -> layout (System.registry System.boot).
Proof.
  intros Hp. split; [|split].
  - split; intros i; cbn; lia.
  - intros i Hi. cbn in Hi. lia.
  - split; [|intros j Hj; cbn in Hj; lia].
    intros j. cbn [System.registry System.boot propGroups initial].
    unfold group_at, aget. destruct (j <? 0); [cbn; rewrite length_replicate; lia|].
    destruct (replicate _ _ !! _) as [g|] eqn:E.
    + apply lookup_replicate in E as [-> _]. cbn. rewrite length_replicate. lia.
    + cbn. rewrite length_replicate. lia.
Qed.

Lemma reachable_layout (sys : System.System) :
  in_service sys -> layout (System.registry sys).
Proof.
  intros (Hp & Hg & cs & Hrun).
  exact (run_keeps_layout cs _ _ (boot_invariant Hp Hg) (boot_layout Hp) Hrun).
Qed.

(** *** Invariants of the interface *)

Lemma is_handle_index (s : State) (h : Z) :
  is_handle s h <-> 0 <= h - 1 < numPropsCreated s.
Proof. unfold is_handle. lia. Qed.

Lemma getKey_of (s : State) (h : Z) :
  is_handle s h -> Trackle_Prop_getKey s h = key (prop_at (props s) (h - 1)).
Proof.
  intros Hh. apply is_handle_index, valid_index_spec in Hh.
  unfold Trackle_Prop_getKey. cbv zeta. rewrite Hh. reflexivity.
Qed.

(** X13. In every state the firmware can reach, two different handles have
    different keys, and every key is shorter than the key array, so the
    copy made at creation stayed inside it. *)
Theorem keys_are_unique (sys : System.System) :
  in_service sys ->
  let s := System.registry sys in
  (forall h1 h2,
      is_handle s h1 -> is_handle s h2 ->
      Trackle_Prop_getKey s h1 = Trackle_Prop_getKey s h2 -> h1 = h2)
  /\ (forall h,
        is_handle s h ->
        strlen (Trackle_Prop_getKey s h) < TRACKLE_MAX_PROP_NAME_LENGTH).
Proof.
  intros Hserv s. destruct (reachable_layout sys Hserv) as ([Hdist Hfit] & _ & _).
  fold s in Hdist, Hfit. split.
  - intros h1 h2 H1 H2 Hk. rewrite !getKey_of in Hk by assumption.
    apply is_handle_index in H1, H2.
    pose proof (Hdist _ _ H1 H2 Hk). lia.
  - intros h Hh. rewrite getKey_of by exact Hh. apply Hfit, is_handle_index, Hh.
Qed.

(** X14. In every state the firmware can reach, a created property has both of
    its string buffers or none, and, its capacity not being negative,
    neither the string value nor the last published string is longer than
    the capacity: the copies made by an update and by the task stay inside
    the buffers allocated at creation. *)
Theorem strings_fit_their_buffers (sys : System.System) (i : Z) :
  in_service sys ->
  let s := System.registry sys in
  let p := prop_at (props s) i in
  0 <= i < numPropsCreated s ->
  (setStringValue p = None <-> lastPubStringValue p = None)
  /\ (0 <= stringValueMaxLength p ->
      forall sv,
        setStringValue p = Some sv \/ lastPubStringValue p = Some sv ->
        strlen sv <= stringValueMaxLength p).
Proof.
  intros Hserv s p Hi. destruct (reachable_layout sys Hserv) as (_ & Hstr & _).
  destruct (Hstr i Hi) as (Hpair & Hfs & Hfl). fold s p in Hpair, Hfs, Hfl.
  split; [exact Hpair|]. intros Hcap sv [Hsv|Hsv].
  - rewrite Hsv in Hfs. exact (Hfs Hcap).
  - rewrite Hsv in Hfl. exact (Hfl Hcap).
Qed.

(** X15. In every state the firmware can reach, the members of a created group
    are pairwise different indexes of created properties; a group
    therefore never holds more members than there are properties, and
    its member count never exceeds the length of its index array. *)
Theorem groups_hold_distinct_members (sys : System.System) (j : Z) :
  in_service sys ->
  let s := System.registry sys in
  let g := group_at (propGroups s) j in
  0 <= j < numPropGroupsCreated s ->
  List.NoDup (members g)
  /\ (forall k, In k (members g) -> 0 <= k < numPropsCreated s)
  /\ Z.of_nat (length (members g)) = propsWithin g
  /\ 0 <= propsWithin g <= numPropsCreated s
  /\ numPropsCreated s <= Z.of_nat (length (propsIndexes g)).
Proof.
  intros Hserv s g Hj. pose proof (in_service_wf sys Hserv) as Hwf.
  destruct (reachable_layout sys Hserv) as (_ & _ & Hgw). fold s in Hwf, Hgw.
  pose proof (members_count s j Hwf Hgw Hj) as Hcount. fold g in Hcount.
  destruct Hgw as [Hlen Hg]. destruct (Hg j Hj) as [Hw Hnd]. fold g in Hw, Hnd.
  destruct Hwf as (_ & _ & Hnum & _ & Hmem & _).
  split; [exact Hnd|]. split; [intros k Hk; exact (Hmem j k Hj Hk)|].
  split; [apply length_members; exact Hw|]. split; [exact Hcount|].
  unfold g. rewrite Hlen. lia.
Qed.

(** X16. What [Trackle_PropGroup_addProp] does in a state the firmware can
    reach, when the capacity test reads inside the table. An answer of true
    means the handles are valid and the property was not a member; the
    property is then appended to the members of the group, inside the
    index array, and nothing else changes. An answer of false leaves the
    registry as it was. *)
Theorem addProp_appends_one_member (sys : System.System) (propId propGroupId : Z)
  (r : State * bool) :
  in_service sys ->
  let s := System.registry sys in
  let g := group_at (propGroups s) (propGroupId - 1) in
  Trackle_PropGroup_addProp s propId propGroupId = Some r ->
  (snd r = false -> fst r = s)
  /\ (snd r = true ->
      let g' := group_at (propGroups (fst r)) (propGroupId - 1) in
      0 <= propGroupId - 1 < numPropGroupsCreated s
      /\ is_handle s propId
      /\ ~ In (propId - 1) (members g)
      /\ propsWithin g < Z.of_nat (length (propsIndexes g))
      /\ members g' = members g ++ [propId - 1]
      /\ onlyIfChanged g' = onlyIfChanged g
      /\ periodMs g' = periodMs g
      /\ latestWakeTimeMs g' = latestWakeTimeMs g
      /\ (forall j, j <> propGroupId - 1 ->
                    group_at (propGroups (fst r)) j = group_at (propGroups s) j)
      /\ props (fst r) = props s
      /\ numPropsCreated (fst r) = numPropsCreated s
      /\ numPropGroupsCreated (fst r) = numPropGroupsCreated s).
Proof.
  intros Hserv s g Hadd. pose proof (in_service_wf sys Hserv) as Hwf.
  destruct (reachable_layout sys Hserv) as (_ & _ & Hgw). fold s in Hwf, Hgw.
  apply addProp_cases in Hadd. fold g in Hadd.
  destruct Hadd as [[Hb Hs]|(Hb & Hj & Hk & Hnew & Hs)].
  - split; [intros _; exact Hs|]. intros Ht. congruence.
  - split; [intros Hf; congruence|]. intros _. cbv zeta.
    pose proof (addProp_slot_in_range s propGroupId (propId - 1) Hwf Hgw Hj Hk Hnew) as Hslot.
    fold g in Hslot. destruct Hwf as (_ & Hglen & _ & Hgnum & _).
    rewrite Hs. cbn [propGroups with_propGroups props numPropsCreated numPropGroupsCreated].
    rewrite group_at_aset_same by lia.
    split; [exact Hj|]. split; [apply is_handle_index; exact Hk|].
    split; [exact Hnew|]. split; [lia|]. split; [apply members_snoc; exact Hslot|].
    cbn [onlyIfChanged periodMs latestWakeTimeMs].
    repeat split; try reflexivity.
    intros j Hne. apply group_at_aset_other. congruence.
Qed.

Lemma table_step_kept (s s' : State) : table_step s s' -> kept s s'.
Proof.
  intros [[Hn Hev]|(Hn & Hold & _)]; split; try lia.
  - intros i Hi. destruct (Hev i Hi) as (Hk & Hc & Hsg & Hsc & Hnd & _).
    unfold fixed_part. congruence.
  - intros i Hi. rewrite (Hold i Hi). reflexivity.
Qed.

Lemma run_kept (cs : list System.call) :
  forall sys sys',
    System.invariant sys -> System.run cs sys = Some sys' ->
    kept (System.registry sys) (System.registry sys').
Proof.
  induction cs as [|c cs IH]; intros sys sys' Hinv Hrun; cbn in Hrun.
  - injection Hrun as <-. split; [lia|reflexivity].
  - destruct (System.perform c sys) as [sys1|] eqn:E; [|discriminate].
    pose proof (table_step_kept _ _ (perform_table_step c sys sys1 Hinv E)) as [Hn1 Hk1].
    destruct (IH sys1 sys' (perform_keeps_invariant c sys sys1 Hinv E) Hrun) as [Hn2 Hk2].
    split; [lia|]. intros i Hi. rewrite Hk2 by lia. apply Hk1. exact Hi.
Qed.

(** X17. Nothing the application or the task does later removes or renames a
    property: along any run from a state the firmware can reach, the
    number of properties never decreases, every handle stays valid, and
    its key, sign, scale and number of decimals read as before. *)
Theorem created_properties_are_permanent (cs : list System.call)
  (sys sys' : System.System) (h : Z) :
  in_service sys ->
  System.run cs sys = Some sys' ->
  let s := System.registry sys in
  let s' := System.registry sys' in
  is_handle s h ->
  Trackle_Props_getNumber s <= Trackle_Props_getNumber s'
  /\ is_handle s' h
  /\ Trackle_Prop_getKey s' h = Trackle_Prop_getKey s h
  /\ Trackle_Prop_isSigned s' h = Trackle_Prop_isSigned s h
  /\ Trackle_Prop_getScale s' h = Trackle_Prop_getScale s h
  /\ Trackle_Prop_getNumberOfDecimals s' h = Trackle_Prop_getNumberOfDecimals s h.
Proof.
  intros Hserv Hrun s s' Hh.
  pose proof Hserv as (Hp & Hg & Hreach).
  destruct (run_kept cs sys sys' (reachable_invariant sys Hp Hg Hreach) Hrun) as [Hn Hk].
  fold s s' in Hn, Hk. apply is_handle_index in Hh.
  specialize (Hk (h - 1) Hh). unfold fixed_part in Hk.
  injection Hk as Hkey _ Hsign Hscale Hdec.
  assert (Hh' : 0 <= h - 1 < numPropsCreated s') by lia.
  unfold Trackle_Props_getNumber, Trackle_Prop_getKey, Trackle_Prop_isSigned,
    Trackle_Prop_getScale, Trackle_Prop_getNumberOfDecimals. cbv zeta.
  rewrite (proj2 (valid_index_spec s _) Hh), (proj2 (valid_index_spec s' _) Hh').
  split; [exact Hn|]. split; [apply is_handle_index; exact Hh'|].
  repeat split; assumption.
Qed.

(** *** Updates and setters *)

Lemma other_handles_same (s : State) (ps : list Prop_t) (i h len : Z) (q : Prop_t) :
  h - 1 <> i -> readings (with_props (aset (props s) i q) s) h len = readings s h len.
Proof.
  intros Hne. apply readings_ext; [reflexivity|]. intros _. cbn [props with_props].
  apply prop_at_aset_other. congruence.
Qed.

(** X18. A numeric update, read back through the accessors. For a valid handle
    the call answers true exactly when the new value is not the stored
    one; afterwards the handle reads the new value and nothing else of
    what it read has changed, nor has what any other handle reads. An
    effective update starts a debounce at the time of the call; it neither
    sets the changed flag nor touches the last published value, which is
    left to the task. *)
Theorem update_then_read (nowMs : Z) (sys : System.System) (propID newValue len : Z) :
  in_service sys ->
  let s := System.registry sys in
  is_handle s propID ->
  let s' := fst (Trackle_Prop_update nowMs s propID newValue) in
  let p := prop_at (props s) (propID - 1) in
  let q := prop_at (props s') (propID - 1) in
  snd (Trackle_Prop_update nowMs s propID newValue)
  = negb (Trackle_Prop_getValue s propID =? newValue)
  /\ readings s' propID len
     = (Trackle_Prop_getKey s propID, newValue,
        Trackle_Prop_getStringValue s propID len, Trackle_Prop_isDisabled s propID,
        Trackle_Prop_isSigned s propID, Trackle_Prop_getScale s propID,
        Trackle_Prop_getNumberOfDecimals s propID)
  /\ (forall h, h <> propID -> readings s' h len = readings s h len)
  /\ Trackle_Props_getNumber s' = Trackle_Props_getNumber s
  /\ changed q = changed p
  /\ lastPubValue q = lastPubValue p
  /\ (Trackle_Prop_getValue s propID <> newValue ->
      debouncing q = true /\ latestSetTimeMs q = nowMs).
Proof.
  intros Hserv s Hh s' p q. pose proof (in_service_wf sys Hserv) as Hwf. fold s in Hwf.
  apply is_handle_index in Hh. pose proof (created_in_range s _ Hwf Hh) as Hin.
  assert (Hget : Trackle_Prop_getValue s propID = setValue p).
  { unfold Trackle_Prop_getValue. cbv zeta.
    rewrite (proj2 (valid_index_spec s _) Hh). reflexivity. }
  rewrite Hget.
  destruct (Z.eq_dec (setValue p) newValue) as [He|Hne].
  - assert (Hsame : Trackle_Prop_update nowMs s propID newValue = (s, false)).
    { unfold Trackle_Prop_update. cbv zeta. rewrite (proj2 (valid_index_spec s _) Hh).
      fold p. rewrite (proj2 (Z.eqb_eq _ _) He). reflexivity. }
    unfold q, s'. rewrite Hsame. cbn [fst snd]. fold p.
    rewrite (proj2 (Z.eqb_eq _ _) He).
    split; [reflexivity|]. split.
    + unfold readings. rewrite Hget. f_equal. f_equal. f_equal. f_equal. f_equal.
      f_equal. exact He.
    + repeat split; try reflexivity; contradiction.
  - unfold q, s'. rewrite (update_record nowMs s propID newValue Hwf Hh Hne).
    cbn [fst snd props with_props]. fold p.
    rewrite (proj2 (Z.eqb_neq _ _) Hne). rewrite prop_at_aset_same by exact Hin.
    split; [reflexivity|]. split.
    + rewrite readings_of by exact Hh. cbn [props with_props].
      rewrite prop_at_aset_same by exact Hin. fold p.
      pose proof (readings_of s propID len Hh) as Hr. cbv zeta in Hr. fold p in Hr.
      unfold readings in Hr. injection Hr as -> _ -> -> -> -> ->. reflexivity.
    + split; [|cbn; repeat split; reflexivity].
      intros h Hneq. apply (other_handles_same s (props s)). lia.
Qed.

(** X19. A string update, read back through the accessors. On a numeric
    property, or with a null pointer as the new value, the call answers
    false and changes nothing. On a string property holding [cur] it
    answers true exactly when the new string is not [cur] (the comparison
    is with the whole new string); it then stores the first
    [stringValueMaxLength] characters of the new string, which is what the
    string accessor reads back, and starts a debounce at the time of the
    call (the capacity and the length of the reader's buffer not being
    negative). What other handles read is unchanged. *)
Theorem updateString_then_read (nowMs : Z) (sys : System.System) (propID len : Z) :
  in_service sys ->
  let s := System.registry sys in
  is_handle s propID ->
  let p := prop_at (props s) (propID - 1) in
  (forall newValue,
      setStringValue p = None ->
      Trackle_Prop_updateString nowMs s propID newValue = (s, false))
  /\ Trackle_Prop_updateString nowMs s propID None = (s, false)
  /\ (forall cur new,
        setStringValue p = Some cur ->
        let s' := fst (Trackle_Prop_updateString nowMs s propID (Some new)) in
        let q := prop_at (props s') (propID - 1) in
        snd (Trackle_Prop_updateString nowMs s propID (Some new))
        = negb (String.eqb cur new)
        /\ (forall h, h <> propID -> readings s' h len = readings s h len)
        /\ (cur <> new -> 0 <= stringValueMaxLength p -> 0 <= len ->
            Trackle_Prop_getStringValue s' propID len
            = (true, Some (strncpy (strncpy new (stringValueMaxLength p)) len))
            /\ (strlen new <= stringValueMaxLength p -> strlen new <= len ->
                Trackle_Prop_getStringValue s' propID len = (true, Some new))
            /\ Trackle_Prop_getValue s' propID = Trackle_Prop_getValue s propID
            /\ debouncing q = true /\ latestSetTimeMs q = nowMs
            /\ changed q = changed p
            /\ lastPubStringValue q = lastPubStringValue p)).
Proof.
  intros Hserv s Hh p. pose proof (in_service_wf sys Hserv) as Hwf. fold s in Hwf.
  apply is_handle_index in Hh. pose proof (created_in_range s _ Hwf Hh) as Hin.
  pose proof (proj2 (valid_index_spec s _) Hh) as Hv.
  split; [|split].
  - intros newValue Hnone. unfold Trackle_Prop_updateString. cbv zeta.
    rewrite Hv. fold p. rewrite Hnone. reflexivity.
  - unfold Trackle_Prop_updateString. cbv zeta. rewrite Hv.
    destruct (setStringValue _); reflexivity.
  - intros cur new Hcur s' q.
    destruct (string_dec cur new) as [He|Hne].
    + assert (Hsame : Trackle_Prop_updateString nowMs s propID (Some new) = (s, false)).
      { unfold Trackle_Prop_updateString. cbv zeta. rewrite Hv. fold p. rewrite Hcur.
        unfold streq. rewrite (proj2 (String.eqb_eq _ _) He). reflexivity. }
      unfold q, s'. rewrite Hsame. cbn [fst snd].
      rewrite (proj2 (String.eqb_eq _ _) He).
      split; [reflexivity|]. split; [reflexivity|]. intros Hc. contradiction.
    + unfold q, s'. rewrite (updateString_record nowMs s propID cur new Hwf Hh Hcur Hne).
      cbn [fst snd props with_props]. fold p.
      rewrite (proj2 (String.eqb_neq _ _) Hne). rewrite prop_at_aset_same by exact Hin.
      split; [reflexivity|]. split.
      * intros h Hneq. apply (other_handles_same s (props s)). lia.
      * intros _ _ _.
        assert (Hread : Trackle_Prop_getStringValue
                          (with_props
                             (aset (props s) (propID - 1)
                                (set_setStringValue
                                   (Some (strncpy new (stringValueMaxLength p)))
                                   (set_latestSetTimeMs nowMs (set_debouncing true p)))) s)
                          propID len
                        = (true, Some (strncpy (strncpy new (stringValueMaxLength p)) len))).
        { unfold Trackle_Prop_getStringValue. cbv zeta.
          rewrite (proj2 (valid_index_spec _ (propID - 1))) by exact Hh.
          cbn [props with_props]. rewrite prop_at_aset_same by exact Hin. reflexivity. }
        split; [exact Hread|]. split.
        { intros Hcap Hlen. rewrite Hread. f_equal. f_equal. unfold strncpy.
          unfold strlen in Hcap, Hlen.
          rewrite (NotificationsFacts.substring_whole new
                     (Z.to_nat (stringValueMaxLength p))) by lia.
          rewrite NotificationsFacts.substring_whole by lia. reflexivity. }
        split.
        { unfold Trackle_Prop_getValue. cbv zeta. rewrite Hv.
          rewrite (proj2 (valid_index_spec _ (propID - 1))) by exact Hh.
          cbn [props with_props]. rewrite prop_at_aset_same by exact Hin. reflexivity. }
        cbn. repeat split; reflexivity.
Qed.

(** X20. The two setters, read back. For a valid handle both answer true;
    after [Trackle_Prop_setDisabled] the disabled flag reads as the
    argument, after [Trackle_Prop_setDebounceDelay] the record carries the
    new delay, and in both cases every other reading of every handle is as
    before. *)
Theorem setters_then_read (sys : System.System) (propID len : Z) (isDisabled : bool)
  (delay : Z) :
  in_service sys ->
  let s := System.registry sys in
  is_handle s propID ->
  let s1 := fst (Trackle_Prop_setDisabled s propID isDisabled) in
  let s2 := fst (Trackle_Prop_setDebounceDelay s propID delay) in
  snd (Trackle_Prop_setDisabled s propID isDisabled) = true
  /\ readings s1 propID len
     = (Trackle_Prop_getKey s propID, Trackle_Prop_getValue s propID,
        Trackle_Prop_getStringValue s propID len, isDisabled,
        Trackle_Prop_isSigned s propID, Trackle_Prop_getScale s propID,
        Trackle_Prop_getNumberOfDecimals s propID)
  /\ (forall h, h <> propID -> readings s1 h len = readings s h len)
  /\ snd (Trackle_Prop_setDebounceDelay s propID delay) = true
  /\ debounceDelayMs (prop_at (props s2) (propID - 1)) = delay
  /\ (forall h, readings s2 h len = readings s h len).
Proof.
  intros Hserv s Hh s1 s2. pose proof (in_service_wf sys Hserv) as Hwf. fold s in Hwf.
  apply is_handle_index in Hh. pose proof (created_in_range s _ Hwf Hh) as Hin.
  pose proof (proj2 (valid_index_spec s _) Hh) as Hv.
  unfold s1, s2, Trackle_Prop_setDisabled, Trackle_Prop_setDebounceDelay. cbv zeta.
  rewrite Hv. cbn [fst snd]. unfold upd_prop.
  pose proof (readings_of s propID len Hh) as Hr. cbv zeta in Hr.
  split; [reflexivity|]. split.
  { rewrite readings_of by exact Hh. cbn [props with_props].
    rewrite prop_at_aset_same by exact Hin.
    unfold readings in Hr. injection Hr as -> -> -> _ -> -> ->. reflexivity. }
  split.
  { intros h Hneq. apply (other_handles_same s (props s)). lia. }
  split; [reflexivity|]. split.
  { cbn [props with_props]. rewrite prop_at_aset_same by exact Hin. reflexivity. }
  intros h. destruct (Z.eq_dec h propID) as [->|Hneq].
  - rewrite !readings_of by exact Hh. cbn [props with_props].
    rewrite prop_at_aset_same by exact Hin. reflexivity.
  - apply (other_handles_same s (props s)). lia.
Qed.

(** X21. With a handle that names no created property, the four mutators of a
    property answer false and leave the registry as it was, and so does
    [Trackle_PropGroup_addProp], for a bad property handle as for a bad
    group handle. *)
Theorem mutators_reject_invalid_handles (nowMs : Z) (s : State) (propID : Z) :
  ~ is_handle s propID ->
  (forall v, Trackle_Prop_update nowMs s propID v = (s, false))
  /\ (forall v, Trackle_Prop_updateString nowMs s propID v = (s, false))
  /\ (forall b, Trackle_Prop_setDisabled s propID b = (s, false))
  /\ (forall d, Trackle_Prop_setDebounceDelay s propID d = (s, false))
  /\ (forall propGroupId,
        Trackle_PropGroup_addProp s propID propGroupId = Some (s, false))
  /\ (forall propId propGroupId,
        ~ (1 <= propGroupId <= numPropGroupsCreated s) ->
        Trackle_PropGroup_addProp s propId propGroupId = Some (s, false)).
Proof.
  intros Hh.
  assert (Hv : valid_index s (propID - 1) = false).
  { apply valid_index_false. intros H. apply Hh, is_handle_index, H. }
  unfold Trackle_Prop_update, Trackle_Prop_updateString, Trackle_Prop_setDisabled,
    Trackle_Prop_setDebounceDelay. cbv zeta. rewrite Hv.
  repeat (split; [reflexivity|]). split.
  - intros g. unfold Trackle_PropGroup_addProp. cbv zeta.
    assert (Hguard : (0 <=? g - 1) && (g - 1 <? numPropGroupsCreated s)
                     && (propID - 1 <? numPropsCreated s) && (0 <=? propID - 1) = false).
    { unfold valid_index in Hv. apply andb_false_iff in Hv as [Hv|Hv].
      - rewrite Hv. apply andb_false_r.
      - rewrite Hv. rewrite andb_false_r. reflexivity. }
    rewrite Hguard. reflexivity.
  - intros pid g Hg. unfold Trackle_PropGroup_addProp. cbv zeta.
    assert (Hguard : (0 <=? g - 1) && (g - 1 <? numPropGroupsCreated s) = false).
    { apply andb_false_iff. destruct (Z_le_gt_dec 1 g);
        [right; apply Z.ltb_ge|left; apply Z.leb_gt]; lia. }
    rewrite Hguard. reflexivity.
Qed.

(** *** From an update to the batch *)

Lemma zero_delay_elapsed (now start : Z) : isMsElapsed now start 0 = true.
Proof.
  unfold isMsElapsed, u32, modulus32.
  destruct (now <? start); apply Z.leb_le; apply Z.mod_pos_bound; lia.
Qed.

Lemma staged_visits_complete (nowMs : Z) (fr : bool) (ps : list Prop_t)
  (vs : list (bool * Z)) (k : Z) :
  disabled (prop_at ps k) = false ->
  changed (promoted nowMs (prop_at ps k)) = true ->
  value_differs (prop_at ps k) = true ->
  forall al,
    mem k al = false -> In k (map snd vs) ->
    In k (staged_visits nowMs fr ps al vs).
Proof.
  intros Hd Hc Hv. induction vs as [|[oic j] vs IH]; intros al Hal Hk; [destruct Hk|].
  rewrite staged_visits_cons. cbn [map snd] in Hk.
  destruct (Z.eq_dec j k) as [->|Hne].
  - destruct (promoted_fields nowMs (prop_at ps k)) as (Hd' & Hv' & _ & _).
    rewrite Hd', Hv', Hd, Hc, Hv, Hal. cbn. left. reflexivity.
  - destruct Hk as [Hk|Hk]; [contradiction|].
    destruct (negb _ && _).
    + right. apply IH; [|exact Hk]. rewrite mem_cons.
      rewrite (proj2 (Z.eqb_neq k j)) by congruence. exact Hal.
    + apply IH; assumption.
Qed.

Lemma pending_staged (publish : string -> bool) (nowMs : Z) (s : State) (t : Task) (k : Z) :
  System.registry_wf s -> jsonBuffer t = EmptyString ->
  In k (map snd (due_members nowMs s t)) ->
  disabled (prop_at (props s) k) = false ->
  changed (promoted nowMs (prop_at (props s) k)) = true ->
  value_differs (prop_at (props s) k) = true ->
  In k (staged nowMs s t)
  /\ snd (tick true publish nowMs s t) = Some (payload nowMs s t).
Proof.
  intros Hwf Hbuf Hvis Hd Hc Hv.
  assert (Hin : In k (staged nowMs s t)).
  { unfold staged. apply staged_visits_complete; try assumption. reflexivity. }
  split; [exact Hin|].
  destruct (batch_between_passes publish nowMs s t Hbuf) as [_ Hpay].
  { apply Hwf. }
  { apply due_members_in_range. exact Hwf. }
  rewrite Hpay. unfold payload. destruct (staged nowMs s t); [destruct Hin|reflexivity].
Qed.

Lemma pending_marked (publish : string -> bool) (nowMs : Z) (s : State) (t : Task) (k : Z) :
  System.registry_wf s -> jsonBuffer t = EmptyString ->
  In k (map snd (due_members nowMs s t)) ->
  disabled (prop_at (props s) k) = false ->
  changed (promoted nowMs (prop_at (props s) k)) = true ->
  value_differs (prop_at (props s) k) = true ->
  setToPublish (prop_at (st_props (staging nowMs s t)) k) = true
  /\ exists texts,
      snd (tick true publish nowMs s t) = Some (json_object texts)
      /\ In (member_text (prop_at (props s) k)) texts.
Proof.
  intros Hwf Hbuf Hvis Hd Hc Hv.
  destruct (pending_staged publish nowMs s t k Hwf Hbuf Hvis Hd Hc Hv) as [Hin Hpay].
  destruct (batch_between_passes publish nowMs s t Hbuf) as [Hmarks _].
  { apply Hwf. }
  { apply due_members_in_range. exact Hwf. }
  split; [apply Hmarks; exact Hin|].
  exists (map (fun k => member_text (prop_at (props s) k)) (staged nowMs s t)).
  split; [exact Hpay|].
  apply List.in_map_iff. exists k. split; [reflexivity|exact Hin].
Qed.

(** X22. A pending change is published by the next pass that visits it: in a
    state the firmware can reach, when a member of a due group is enabled,
    its value differs from the last published one and it is changed or
    its debounce delay has elapsed, a pass run while connected, whose
    text fits the JSON buffer, marks it as staged and hands to the publish
    call a flat object that holds its text. *)
Theorem pending_change_is_staged (publish : string -> bool) (nowMs : Z)
  (sys : System.System) (t : Task) (k : Z) :
  at_pass sys t ->
  let s := System.registry sys in
  let p := prop_at (props s) k in
  In k (map snd (due_members nowMs s t)) ->
  disabled p = false ->
  value_differs p = true ->
  changed p = true
  \/ (debouncing p = true
      /\ isMsElapsed nowMs (latestSetTimeMs p) (debounceDelayMs p) = true) ->
  strlen (Bounds.pass_text nowMs s t) < JSON_BUFFER_LEN ->
  setToPublish (prop_at (st_props (staging nowMs s t)) k) = true
  /\ exists texts,
      snd (tick true publish nowMs s t) = Some (json_object texts)
      /\ In (member_text p) texts.
Proof.
  intros Hat s p Hvis Hd Hv Hc _. destruct (at_pass_wf sys t Hat) as [Hwf Hbuf].
  apply pending_marked; try assumption.
  rewrite (proj2 (proj2 (proj2 (promoted_fields nowMs _)))). fold s p.
  destruct Hc as [->|[-> ->]]; [reflexivity|apply orb_true_r].
Qed.

(** Passes that leave a property alone keep the registry well formed, the
    buffer empty and the record of the property. *)
Lemma passes_without_keep (k : Z) (ps : list (bool * (string -> bool) * Z)) :
  forall s t s2 t2,
    System.registry_wf s -> jsonBuffer t = EmptyString ->
    passes_without k ps s t = Some (s2, t2) ->
    System.registry_wf s2 /\ jsonBuffer t2 = EmptyString
    /\ prop_at (props s2) k = prop_at (props s) k.
Proof.
  induction ps as [|[[connected publish] nowMs] ps IH]; intros s t s2 t2 Hwf Hbuf Hrun.
  - cbn in Hrun. injection Hrun as <- <-. auto.
  - cbn [passes_without] in Hrun.
    destruct (connected && _) eqn:Hguard; [discriminate|]. cbv zeta in Hrun.
    destruct (tick_keeps_invariant connected publish nowMs s t Hwf Hbuf) as [Hwf1 Hbuf1].
    destruct (IH _ _ _ _ Hwf1 Hbuf1 Hrun) as (Hwf2 & Hbuf2 & Hrec).
    split; [exact Hwf2|]. split; [exact Hbuf2|]. rewrite Hrec.
    destruct connected; [|reflexivity]. cbn [andb] in Hguard.
    apply orb_false_iff in Hguard as [Hvis _].
    rewrite (pass_records_wf publish nowMs s t Hwf Hbuf k), Hvis.
    destruct (mem k (staged nowMs s t)) eqn:Es; [|reflexivity].
    apply staged_mem_visited in Es. congruence.
Qed.

(** X23. From the call to the cloud: in a state the firmware can reach, with
    the task started, [Trackle_Prop_update] sets an enabled numeric
    property to a value that is neither the stored nor the last published
    one. Then, after any number of passes that do not visit the property
    (run while disconnected, or with none of its groups due), the first
    pass run while connected that finds a group of the property due and
    the debounce delay elapsed since the update (a delay of 0, the
    default, has always elapsed), and whose text fits the JSON buffer,
    marks the property as staged and hands to the publish call a flat
    object that holds the text of the property with the new value. *)
Theorem update_reaches_the_next_batch (publish : string -> bool) (setMs nowMs : Z)
  (sys : System.System) (t : Task) (propID newValue : Z)
  (ps : list (bool * (string -> bool) * Z)) (s2 : State) (t2 : Task) :
  at_pass sys t ->
  let s := System.registry sys in
  let p := prop_at (props s) (propID - 1) in
  let s1 := fst (Trackle_Prop_update setMs s propID newValue) in
  is_handle s propID ->
  disabled p = false ->
  setStringValue p = None ->
  newValue <> setValue p ->
  newValue <> lastPubValue p ->
  passes_without (propID - 1) ps s1 t = Some (s2, t2) ->
  debounceDelayMs p = 0 \/ isMsElapsed nowMs setMs (debounceDelayMs p) = true ->
  In (propID - 1) (map snd (due_members nowMs s2 t2)) ->
  strlen (Bounds.pass_text nowMs s2 t2) < JSON_BUFFER_LEN ->
  setToPublish (prop_at (st_props (staging nowMs s2 t2)) (propID - 1)) = true
  /\ exists texts,
      snd (tick true publish nowMs s2 t2) = Some (json_object texts)
      /\ In (member_text (set_setValue newValue p)) texts.
Proof.
  intros Hat s p s1 Hh Hd Hnum Hne Hpub Hidle Hdelay Hvis _.
  destruct (at_pass_wf sys t Hat) as [Hwf Hbuf]. fold s in Hwf.
  apply is_handle_index in Hh. pose proof (created_in_range s _ Hwf Hh) as Hin.
  assert (Hwf1 : System.registry_wf s1) by (apply update_keeps_wf; exact Hwf).
  assert (Hrec1 : prop_at (props s1) (propID - 1)
                  = set_setValue newValue (set_latestSetTimeMs setMs (set_debouncing true p))).
  { unfold s1.
    rewrite (update_record setMs s propID newValue Hwf Hh)
      by (intros H; apply Hne; symmetry; exact H).
    cbn [fst props with_props]. apply prop_at_aset_same. exact Hin. }
  destruct (passes_without_keep _ ps s1 t s2 t2 Hwf1 Hbuf Hidle) as (Hwf2 & Hbuf2 & Hkeep).
  assert (Hrec : prop_at (props s2) (propID - 1)
                 = set_setValue newValue (set_latestSetTimeMs setMs (set_debouncing true p)))
    by congruence.
  assert (Htext : member_text (prop_at (props s2) (propID - 1))
                  = member_text (set_setValue newValue p)).
  { rewrite Hrec. destruct p. reflexivity. }
  rewrite <- Htext.
  apply pending_marked; try assumption.
  - rewrite Hrec. exact Hd.
  - rewrite (proj2 (proj2 (proj2 (promoted_fields nowMs _)))), Hrec. cbn.
    destruct Hdelay as [->| ->]; [rewrite zero_delay_elapsed|]; apply orb_true_r.
  - rewrite Hrec. unfold value_differs. cbn. rewrite Hnum.
    apply negb_true_iff, Z.eqb_neq. exact Hpub.
Qed.

(** *** Groups along a run *)

Lemma groups_kept_same (s s' : State) :
  propGroups s' = propGroups s -> numPropGroupsCreated s' = numPropGroupsCreated s ->
  groups_kept s s'.
Proof.
  intros Hg Hn. split; [lia|]. intros j _. cbv zeta. rewrite Hg.
  split; [reflexivity|]. split; [reflexivity|]. exists []. symmetry. apply app_nil_r.
Qed.

Lemma groups_kept_fields (s s' : State) :
  numPropGroupsCreated s' = numPropGroupsCreated s ->
  (forall j,
      let g := group_at (propGroups s) j in
      let g' := group_at (propGroups s') j in
      onlyIfChanged g' = onlyIfChanged g /\ periodMs g' = periodMs g
      /\ propsIndexes g' = propsIndexes g /\ propsWithin g' = propsWithin g) ->
  groups_kept s s'.
Proof.
  intros Hn Hf. split; [lia|]. intros j _. cbv zeta.
  destruct (Hf j) as (Ho & Hp & Hi & Hw). split; [exact Ho|]. split; [exact Hp|].
  exists []. unfold members. rewrite Hi, Hw. symmetry. apply app_nil_r.
Qed.

Lemma wake_loop_policy (startMs : Z) (l : list Z) :
  forall gs j,
    let gs' := fold_left
                 (fun gs pgIdx => aset gs pgIdx (set_latestWakeTimeMs startMs (group_at gs pgIdx)))
                 l gs in
    onlyIfChanged (group_at gs' j) = onlyIfChanged (group_at gs j)
    /\ periodMs (group_at gs' j) = periodMs (group_at gs j).
Proof.
  induction l as [|i l IH]; intros gs j; cbn zeta; [split; reflexivity|].
  cbn [fold_left].
  destruct (IH (aset gs i (set_latestWakeTimeMs startMs (group_at gs i))) j) as [Ho Hp].
  cbn zeta in Ho, Hp. rewrite Ho, Hp.
  destruct (Z.eq_dec i j) as [->|Hne];
    [|rewrite group_at_aset_other by exact Hne; split; reflexivity].
  destruct (Z_lt_dec j 0) as [Hneg|Hpos];
    [|destruct (Z_lt_dec j (Z.of_nat (length gs))) as [Hin|Hout]].
  - rewrite aset_outside by lia. split; reflexivity.
  - rewrite group_at_aset_same by lia. split; reflexivity.
  - rewrite aset_outside by lia. split; reflexivity.
Qed.

Lemma perform_groups_kept (c : System.call) (sys sys' : System.System) :
  System.invariant sys -> groups_wf (System.registry sys) ->
  System.perform c sys = Some sys' ->
  groups_kept (System.registry sys) (System.registry sys').
Proof.
  intros [Hwf Hbuf] Hgw Hperform. destruct c; cbn in Hperform.
  - injection Hperform as <-. cbn [System.registry].
    apply groups_kept_same; unfold Trackle_Prop_create;
      destruct (_ <? _); try reflexivity; destruct (name_in_use _ _); try reflexivity;
      destruct (_ <? _); reflexivity.
  - injection Hperform as <-. cbn [System.registry].
    apply groups_kept_same; unfold Trackle_Prop_createString;
      destruct (_ <? _); try reflexivity; destruct (name_in_use _ _); try reflexivity;
      destruct (_ <? _); try reflexivity; destruct malloc1_ok; try reflexivity;
      destruct malloc2_ok; reflexivity.
  - injection Hperform as <-. cbn [System.registry]. unfold Trackle_PropGroup_create.
    destruct (numPropGroupsCreated _ <? _) eqn:Hcap;
      [|apply groups_kept_same; reflexivity].
    cbn [fst]. split; cbn [propGroups numPropGroupsCreated]; [lia|].
    intros j Hj. cbv zeta. rewrite group_at_aset_other by lia.
    split; [reflexivity|]. split; [reflexivity|]. exists []. symmetry. apply app_nil_r.
  - destruct (Trackle_PropGroup_addProp _ _ _) as [r|] eqn:E; [|discriminate].
    destruct r as [s' b]. injection Hperform as <-. cbn [System.registry].
    apply addProp_cases in E. cbn [fst snd] in E.
    destruct E as [[_ ->]|(_ & Hj & Hk & Hnew & ->)];
      [apply groups_kept_same; reflexivity|].
    pose proof (addProp_slot_in_range _ _ _ Hwf Hgw Hj Hk Hnew) as Hslot.
    destruct Hwf as (_ & Hglen & _ & Hgnum & _).
    split; cbn [propGroups numPropGroupsCreated with_propGroups]; [lia|].
    intros j Hj'. cbv zeta. destruct (Z.eq_dec (propGroupId - 1) j) as [<-|Hne].
    + rewrite group_at_aset_same by lia. cbn [onlyIfChanged periodMs].
      split; [reflexivity|]. split; [reflexivity|].
      exists [propId - 1]. apply members_snoc. exact Hslot.
    + rewrite group_at_aset_other by exact Hne.
      split; [reflexivity|]. split; [reflexivity|]. exists []. symmetry. apply app_nil_r.
  - injection Hperform as <-. cbn [System.registry].
    apply groups_kept_same; unfold Trackle_Prop_update; cbv zeta;
      destruct (valid_index _ _); try reflexivity; destruct (negb _); reflexivity.
  - injection Hperform as <-. cbn [System.registry].
    apply groups_kept_same; unfold Trackle_Prop_updateString; cbv zeta;
      destruct (valid_index _ _); try reflexivity;
      destruct (setStringValue _); try reflexivity;
      destruct newValue; try reflexivity; destruct (negb _); reflexivity.
  - injection Hperform as <-. cbn [System.registry].
    apply groups_kept_same; unfold Trackle_Prop_setDisabled; cbv zeta;
      destruct (valid_index _ _); reflexivity.
  - injection Hperform as <-. cbn [System.registry].
    apply groups_kept_same; unfold Trackle_Prop_setDebounceDelay; cbv zeta;
      destruct (valid_index _ _); reflexivity.
  - injection Hperform as <-. apply groups_kept_same; reflexivity.
  - destruct (System.task sys); [discriminate|]. injection Hperform as <-.
    cbn [System.registry]. apply groups_kept_fields; [reflexivity|].
    intros j. cbv zeta. unfold task_start, for_loop. cbn [fst propGroups with_propGroups].
    destruct (wake_loop_policy startMs (seqZ 0 (numPropGroupsCreated (System.registry sys)))
                (propGroups (System.registry sys)) j) as [Ho Hp].
    destruct (wake_loop_fields startMs (seqZ 0 (numPropGroupsCreated (System.registry sys)))
                (propGroups (System.registry sys)) j) as [Hi Hw].
    cbn zeta in Ho, Hp, Hi, Hw. auto.
  - destruct (System.task sys) as [t|] eqn:Et; [|discriminate]. injection Hperform as <-.
    cbn [System.registry]. destruct connected; [|apply groups_kept_same; reflexivity].
    apply groups_kept_fields.
    + unfold tick. destruct (st_toPublish _); reflexivity.
    + intros j. cbv zeta. rewrite (pass_groups_wf trackleSyncStateSecure nowMs _ t Hwf j).
      unfold group_after_pass.
      destruct ((0 <=? j) && _); [|auto].
      destruct (is_due _ _ _); auto.
Qed.

Lemma run_groups_kept (cs : list System.call) :
  forall sys sys',
    System.invariant sys -> layout (System.registry sys) ->
    System.run cs sys = Some sys' ->
    groups_kept (System.registry sys) (System.registry sys').
Proof.
  induction cs as [|c cs IH]; intros sys sys' Hinv Hlay Hrun; cbn in Hrun.
  - injection Hrun as <-. apply groups_kept_same; reflexivity.
  - destruct (System.perform c sys) as [sys1|] eqn:E; [|discriminate].
    pose proof (perform_groups_kept c sys sys1 Hinv (proj2 (proj2 Hlay)) E) as [Hn1 Hk1].
    destruct (IH sys1 sys' (perform_keeps_invariant c sys sys1 Hinv E)
                (perform_keeps_layout c sys sys1 Hinv Hlay E) Hrun) as [Hn2 Hk2].
    split; [lia|]. intros j Hj. cbv zeta.
    destruct (Hk1 j Hj) as (Ho1 & Hp1 & more1 & Hm1).
    destruct (Hk2 j) as (Ho2 & Hp2 & more2 & Hm2); [lia|].
    split; [congruence|]. split; [congruence|].
    exists (more1 ++ more2). rewrite Hm2, Hm1. symmetry. apply app_assoc.
Qed.

(** X24. Groups are permanent and only grow: along any run from a state the
    firmware can reach, the number of groups never decreases, and every
    created group keeps its policy and its period, while its members stay
    where they are in the order of publication, new ones being appended
    after them. *)
Theorem groups_only_grow (cs : list System.call) (sys sys' : System.System) (j : Z) :
  in_service sys ->
  System.run cs sys = Some sys' ->
  let s := System.registry sys in
  let s' := System.registry sys' in
  let g := group_at (propGroups s) j in
  let g' := group_at (propGroups s') j in
  0 <= j < numPropGroupsCreated s ->
  numPropGroupsCreated s <= numPropGroupsCreated s'
  /\ onlyIfChanged g' = onlyIfChanged g
  /\ periodMs g' = periodMs g
  /\ exists more, members g' = members g ++ more.
Proof.
  intros Hserv Hrun s s' g g' Hj. pose proof Hserv as (Hp & Hg & Hreach).
  destruct (run_groups_kept cs sys sys' (reachable_invariant sys Hp Hg Hreach)
              (reachable_layout sys Hserv) Hrun) as [Hn Hk].
  split; [exact Hn|]. exact (Hk j Hj).
Qed.

(** *** Passes under the first-run latch *)

Lemma latched_visits (nowMs : Z) (ps : list Prop_t) (vs : list (bool * Z)) :
  forall al,
    staged_visits nowMs true ps al vs
    = List.filter (fun k => negb (disabled (prop_at ps k))) (map snd vs).
Proof.
  induction vs as [|[oic k] vs IH]; intros al; [reflexivity|].
  rewrite staged_visits_cons. cbn [map snd List.filter].
  rewrite (proj1 (promoted_fields nowMs (prop_at ps k))).
  rewrite orb_true_r, andb_true_r.
  destruct (negb (disabled (prop_at ps k))); rewrite IH; reflexivity.
Qed.

Lemma latched_due_members (nowMs : Z) (gs : list PropGroup_t) (l : list Z) :
  map snd (visits nowMs true gs l) = flat_map (fun j => members (group_at gs j)) l.
Proof.
  induction l as [|j l IH]; [reflexivity|].
  unfold visits in *. cbn [flat_map]. rewrite List.map_app, IH. f_equal.
  unfold group_visits, is_due. rewrite orb_true_r.
  rewrite List.map_map. cbn [snd]. apply List.map_id.
Qed.

(** X25. While the first-run latch is set, that is until a publication has
    succeeded, a pass run while connected, whose text fits the JSON
    buffer, treats every created group as due and stages every enabled
    member of every group, whatever the periods, the policies and the
    changed flags: the properties it marks as staged are exactly the
    enabled members of the created groups, every created group is stamped
    with the time of the pass, and the publish call receives one flat
    object with the text of every enabled member, group after group, so
    that a property that is a member of two groups is sent twice. *)
Theorem latched_pass_stages_every_enabled_member (publish : string -> bool) (nowMs : Z)
  (sys : System.System) (t : Task) :
  at_pass sys t ->
  first_run t = true ->
  let s := System.registry sys in
  let all_members :=
    flat_map (fun j => members (group_at (propGroups s) j))
      (seqZ 0 (numPropGroupsCreated s)) in
  let sent :=
    List.filter (fun k => negb (disabled (prop_at (props s) k))) all_members in
  strlen (Bounds.pass_text nowMs s t) < JSON_BUFFER_LEN ->
  (forall k,
      setToPublish (prop_at (st_props (staging nowMs s t)) k) = true
      <-> In k all_members /\ disabled (prop_at (props s) k) = false)
  /\ (forall j,
        0 <= j < numPropGroupsCreated s ->
        latestWakeTimeMs
          (group_at (propGroups (fst (fst (tick true publish nowMs s t)))) j) = nowMs)
  /\ snd (tick true publish nowMs s t)
     = match sent with
       | [] => None
       | _ :: _ =>
           Some (json_object (map (fun k => member_text (prop_at (props s) k)) sent))
       end.
Proof.
  intros Hat Hfr s all_members sent _. destruct (at_pass_wf sys t Hat) as [Hwf Hbuf].
  fold s in Hwf.
  assert (Hst : staged nowMs s t = sent).
  { unfold staged, due_members. rewrite Hfr, latched_visits, latched_due_members.
    reflexivity. }
  destruct (batch_between_passes publish nowMs s t Hbuf) as [Hmarks Hpay].
  { apply Hwf. }
  { apply due_members_in_range. exact Hwf. }
  split; [|split].
  - intros k. rewrite Hmarks, Hst. unfold sent. rewrite List.filter_In.
    rewrite negb_true_iff. reflexivity.
  - intros j Hj. rewrite (pass_groups_wf publish nowMs s t Hwf j).
    rewrite (proj2 (Z.leb_le 0 j)) by lia.
    rewrite (proj2 (Z.ltb_lt j _)) by lia. cbn [andb].
    unfold group_after_pass, is_due. rewrite Hfr, orb_true_r. reflexivity.
  - rewrite Hpay, Hst. reflexivity.
Qed.

End WithConfig.

(** *** The theorems on the runs of the demo *)

Section OnTheDemo.

#[local] Existing Instance Demo.cfg.
#[local] Existing Instance Demo.ff.

Local Notation plant := (System.registry Demo.plant_system).
Local Notation quiet := (System.registry Cases.quiet_system).
Local Notation accept := (fun _ : string => true).

Lemma plant_in_service : in_service Demo.plant_system.
Proof.
  split; [cbn; lia|]. split; [cbn; lia|].
  exists Demo.plant_calls. vm_compute. reflexivity.
Qed.

Lemma quiet_in_service : in_service Cases.quiet_system.
Proof.
  split; [cbn; lia|]. split; [cbn; lia|].
  exists Cases.quiet_calls. vm_compute. reflexivity.
Qed.

Lemma latch_at_pass : at_pass Demo.latch_system Demo.latch_task.
Proof.
  split; [cbn; lia|]. split; [cbn; lia|]. split; [|vm_compute; reflexivity].
  exists Demo.latch_calls. vm_compute. reflexivity.
Qed.

Lemma plant_count : numPropsCreated plant = 4.
Proof. vm_compute. reflexivity. Qed.

Lemma quiet_count : numPropsCreated quiet = 1.
Proof. vm_compute. reflexivity. Qed.

Lemma create_then_read_witness :
  in_service Cases.quiet_system
  /\ snd (Trackle_Prop_create quiet "temp" 100 2 true) = 2
  /\ readings (fst (Trackle_Prop_create quiet "temp" 100 2 true))
       (snd (Trackle_Prop_create quiet "temp" 100 2 true)) 16
     = ("temp"%string, defaultValue quiet, (false, None), false, true, 100, 2)
  /\ snd (Trackle_Prop_create quiet "speed" 100 2 true) = Trackle_PropID_ERROR
  /\ fst (Trackle_Prop_create quiet "speed" 100 2 true) = quiet.
Proof.
  split; [exact quiet_in_service|].
  pose proof (create_then_read Cases.quiet_system "temp" 100 2 true 16 quiet_in_service)
    as Hnew.
  pose proof (create_then_read Cases.quiet_system "speed" 100 2 true 16 quiet_in_service)
    as Hdup.
  cbv zeta in Hnew, Hdup. destruct Hnew as [Hnew _]. destruct Hdup as [_ Hdup].
  destruct Hnew as (Hid & _ & Hread & _).
  { vm_compute. reflexivity. }
  { intros h Hh. unfold is_handle in Hh. rewrite quiet_count in Hh.
    assert (h = 1) by lia. subst h. vm_compute. discriminate. }
  { vm_compute. reflexivity. }
  destruct Hdup as [Herr Hsame].
  { right. left. exists 1. split; [unfold is_handle; rewrite quiet_count; lia|].
    vm_compute. reflexivity. }
  split; [rewrite Hid; vm_compute; reflexivity|].
  split; [exact Hread|]. split; [exact Herr|exact Hsame].
Defined.

Lemma createString_then_read_witness :
  in_service Cases.quiet_system
  /\ readings (fst (Trackle_Prop_createString true true quiet "label" 8))
       (snd (Trackle_Prop_createString true true quiet "label" 8)) 16
     = ("label"%string, defaultValue quiet, (true, Some EmptyString), false, false, 1, 0)
  /\ snd (Trackle_Prop_createString true false quiet "label" 8) = Trackle_PropID_ERROR
  /\ Trackle_Props_getNumber (fst (Trackle_Prop_createString true false quiet "label" 8))
     = Trackle_Props_getNumber quiet
  /\ name_in_use (fst (Trackle_Prop_createString true false quiet "label" 8)) "label"
     = name_in_use quiet "label".
Proof.
  split; [exact quiet_in_service|].
  pose proof (createString_then_read true true Cases.quiet_system "label" 8 16
                quiet_in_service) as Hnew.
  pose proof (createString_then_read true false Cases.quiet_system "label" 8 16
                quiet_in_service) as Hfail.
  cbv zeta in Hnew, Hfail. destruct Hnew as [Hnew _]. destruct Hfail as [_ Hfail].
  destruct Hnew as (_ & _ & Hread & _).
  { vm_compute. reflexivity. }
  { intros h Hh. unfold is_handle in Hh. rewrite quiet_count in Hh.
    assert (h = 1) by lia. subst h. vm_compute. discriminate. }
  { vm_compute. reflexivity. }
  { reflexivity. }
  { reflexivity. }
  { lia. }
  { lia. }
  destruct Hfail as (Herr & Hnum & _ & Hname).
  { right. right. right. right. reflexivity. }
  split; [exact Hread|]. split; [exact Herr|]. split; [exact Hnum|exact (Hname _)].
Defined.

Lemma keys_are_unique_witness :
  in_service Demo.plant_system
  /\ (forall h1 h2,
        is_handle plant h1 -> is_handle plant h2 ->
        Trackle_Prop_getKey plant h1 = Trackle_Prop_getKey plant h2 -> h1 = h2)
  /\ strlen (Trackle_Prop_getKey plant 2) < TRACKLE_MAX_PROP_NAME_LENGTH.
Proof.
  split; [exact plant_in_service|].
  pose proof (keys_are_unique Demo.plant_system plant_in_service) as H.
  cbv zeta in H. destruct H as [Hdist Hfit]. split; [exact Hdist|].
  apply Hfit. unfold is_handle. rewrite plant_count. lia.
Defined.

Lemma strings_fit_their_buffers_witness :
  0 <= 1 < numPropsCreated plant
  /\ setStringValue (prop_at (props plant) 1) = Some "running"%string
  /\ 0 <= stringValueMaxLength (prop_at (props plant) 1)
  /\ strlen "running" <= stringValueMaxLength (prop_at (props plant) 1).
Proof.
  assert (Hi : 0 <= 1 < numPropsCreated plant) by (rewrite plant_count; lia).
  assert (Hs : setStringValue (prop_at (props plant) 1) = Some "running"%string)
    by (vm_compute; reflexivity).
  assert (Hc : 0 <= stringValueMaxLength (prop_at (props plant) 1))
    by (vm_compute; discriminate).
  split; [exact Hi|]. split; [exact Hs|]. split; [exact Hc|].
  pose proof (strings_fit_their_buffers Demo.plant_system 1 plant_in_service) as H.
  cbv zeta in H. destruct (H Hi) as [_ Hfit].
  apply (Hfit Hc). left. exact Hs.
Defined.

Lemma groups_hold_distinct_members_witness :
  0 <= 0 < numPropGroupsCreated plant
  /\ members (group_at (propGroups plant) 0) = [0; 1]
  /\ List.NoDup (members (group_at (propGroups plant) 0))
  /\ propsWithin (group_at (propGroups plant) 0) <= numPropsCreated plant.
Proof.
  assert (Hj : 0 <= 0 < numPropGroupsCreated plant).
  { assert (Hn : numPropGroupsCreated plant = 2) by (vm_compute; reflexivity).
    rewrite Hn. lia. }
  split; [exact Hj|]. split; [vm_compute; reflexivity|].
  pose proof (groups_hold_distinct_members Demo.plant_system 0 plant_in_service) as H.
  cbv zeta in H. destruct (H Hj) as (Hnd & _ & _ & Hw & _).
  split; [exact Hnd|apply Hw].
Defined.

Lemma addProp_appends_one_member_witness :
  Trackle_PropGroup_addProp plant 4 1 = Some Cases.plant_grown
  /\ snd Cases.plant_grown = true
  /\ members (group_at (propGroups (fst Cases.plant_grown)) (1 - 1))
     = members (group_at (propGroups plant) (1 - 1)) ++ [4 - 1]
  /\ props (fst Cases.plant_grown) = props plant.
Proof.
  assert (Hadd : Trackle_PropGroup_addProp plant 4 1 = Some Cases.plant_grown)
    by (vm_compute; reflexivity).
  assert (Hb : snd Cases.plant_grown = true) by (vm_compute; reflexivity).
  split; [exact Hadd|]. split; [exact Hb|].
  pose proof (addProp_appends_one_member Demo.plant_system 4 1 Cases.plant_grown
                plant_in_service) as H.
  cbv zeta in H. destruct (H Hadd) as [_ Htrue].
  destruct (Htrue Hb) as (_ & _ & _ & _ & Hmem & _ & _ & _ & _ & Hprops & _).
  split; [exact Hmem|exact Hprops].
Defined.

Lemma created_properties_are_permanent_witness :
  System.run Cases.later_calls Cases.quiet_system = Some Cases.later_system
  /\ is_handle quiet 1
  /\ Trackle_Props_getNumber (System.registry Cases.later_system) = 2
  /\ is_handle (System.registry Cases.later_system) 1
  /\ Trackle_Prop_getKey (System.registry Cases.later_system) 1
     = Trackle_Prop_getKey quiet 1.
Proof.
  assert (Hrun : System.run Cases.later_calls Cases.quiet_system = Some Cases.later_system)
    by (vm_compute; reflexivity).
  assert (Hh : is_handle quiet 1) by (unfold is_handle; rewrite quiet_count; lia).
  split; [exact Hrun|]. split; [exact Hh|]. split; [vm_compute; reflexivity|].
  pose proof (created_properties_are_permanent Cases.later_calls Cases.quiet_system
                Cases.later_system 1 quiet_in_service Hrun) as H.
  cbv zeta in H. destruct (H Hh) as (_ & Hh' & Hkey & _).
  split; [exact Hh'|exact Hkey].
Defined.

Lemma update_then_read_witness :
  is_handle plant 1
  /\ snd (Trackle_Prop_update 1200 plant 1 200) = true
  /\ readings (fst (Trackle_Prop_update 1200 plant 1 200)) 1 16
     = (Trackle_Prop_getKey plant 1, 200, Trackle_Prop_getStringValue plant 1 16,
        Trackle_Prop_isDisabled plant 1, Trackle_Prop_isSigned plant 1,
        Trackle_Prop_getScale plant 1, Trackle_Prop_getNumberOfDecimals plant 1)
  /\ readings (fst (Trackle_Prop_update 1200 plant 1 200)) 3 16 = readings plant 3 16.
Proof.
  assert (Hh : is_handle plant 1) by (unfold is_handle; rewrite plant_count; lia).
  split; [exact Hh|].
  pose proof (update_then_read 1200 Demo.plant_system 1 200 16 plant_in_service) as H.
  cbv zeta in H. destruct (H Hh) as (Hans & Hread & Hothers & _).
  split; [rewrite Hans; vm_compute; reflexivity|]. split; [exact Hread|].
  apply Hothers. lia.
Defined.

Lemma updateString_then_read_witness :
  is_handle plant 2
  /\ setStringValue (prop_at (props plant) (2 - 1)) = Some "running"%string
  /\ snd (Trackle_Prop_updateString 1200 plant 2 (Some "maintenance"%string)) = true
  /\ Trackle_Prop_getStringValue
       (fst (Trackle_Prop_updateString 1200 plant 2 (Some "maintenance"%string))) 2 16
     = (true, Some "maintena"%string)
  /\ Trackle_Prop_updateString 1200 plant 2 None = (plant, false).
Proof.
  assert (Hh : is_handle plant 2) by (unfold is_handle; rewrite plant_count; lia).
  assert (Hcur : setStringValue (prop_at (props plant) (2 - 1)) = Some "running"%string)
    by (vm_compute; reflexivity).
  split; [exact Hh|]. split; [exact Hcur|].
  pose proof (updateString_then_read 1200 Demo.plant_system 2 16 plant_in_service) as H.
  cbv zeta in H. destruct (H Hh) as (_ & Hnull & Hstr).
  destruct (Hstr "running"%string "maintenance"%string Hcur) as (Hans & _ & Hnew).
  destruct Hnew as (Hread & _); [discriminate|vm_compute; discriminate|lia|].
  split; [rewrite Hans; vm_compute; reflexivity|].
  split; [rewrite Hread; vm_compute; reflexivity|exact Hnull].
Defined.

Lemma setters_then_read_witness :
  is_handle plant 1
  /\ readings (fst (Trackle_Prop_setDisabled plant 1 true)) 1 16
     = (Trackle_Prop_getKey plant 1, Trackle_Prop_getValue plant 1,
        Trackle_Prop_getStringValue plant 1 16, true,
        Trackle_Prop_isSigned plant 1, Trackle_Prop_getScale plant 1,
        Trackle_Prop_getNumberOfDecimals plant 1)
  /\ readings (fst (Trackle_Prop_setDebounceDelay plant 1 250)) 1 16 = readings plant 1 16
  /\ debounceDelayMs
       (prop_at (props (fst (Trackle_Prop_setDebounceDelay plant 1 250))) (1 - 1)) = 250.
Proof.
  assert (Hh : is_handle plant 1) by (unfold is_handle; rewrite plant_count; lia).
  split; [exact Hh|].
  pose proof (setters_then_read Demo.plant_system 1 16 true 250 plant_in_service) as H.
  cbv zeta in H. destruct (H Hh) as (_ & Hread & _ & _ & Hdelay & Hsame).
  split; [exact Hread|]. split; [exact (Hsame 1)|exact Hdelay].
Defined.

Lemma mutators_reject_invalid_handles_witness :
  ~ is_handle plant 9
  /\ Trackle_Prop_update 1200 plant 9 200 = (plant, false)
  /\ Trackle_Prop_setDisabled plant 9 true = (plant, false)
  /\ Trackle_PropGroup_addProp plant 9 1 = Some (plant, false).
Proof.
  assert (Hh : ~ is_handle plant 9) by (unfold is_handle; rewrite plant_count; lia).
  split; [exact Hh|].
  destruct (mutators_reject_invalid_handles 1200 plant 9 Hh) as (Hu & _ & Hd & _ & Ha & _).
  split; [exact (Hu 200)|]. split; [exact (Hd true)|exact (Ha 1)].
Defined.

Lemma pending_change_is_staged_witness :
  In 0 (map snd (due_members 1100 plant Demo.plant_task))
  /\ disabled (prop_at (props plant) 0) = false
  /\ value_differs (prop_at (props plant) 0) = true
  /\ debouncing (prop_at (props plant) 0) = true
  /\ strlen (Bounds.pass_text 1100 plant Demo.plant_task) < JSON_BUFFER_LEN
  /\ setToPublish (prop_at (st_props (staging 1100 plant Demo.plant_task)) 0) = true
  /\ exists texts,
      snd (tick true accept 1100 plant Demo.plant_task) = Some (json_object texts)
      /\ In (member_text (prop_at (props plant) 0)) texts.
Proof.
  assert (Hvis : In 0 (map snd (due_members 1100 plant Demo.plant_task)))
    by (vm_compute; auto).
  assert (Hd : disabled (prop_at (props plant) 0) = false) by (vm_compute; reflexivity).
  assert (Hv : value_differs (prop_at (props plant) 0) = true) by (vm_compute; reflexivity).
  assert (Hdeb : debouncing (prop_at (props plant) 0) = true) by (vm_compute; reflexivity).
  assert (He : isMsElapsed 1100 (latestSetTimeMs (prop_at (props plant) 0))
                 (debounceDelayMs (prop_at (props plant) 0)) = true)
    by (vm_compute; reflexivity).
  assert (Hfit : strlen (Bounds.pass_text 1100 plant Demo.plant_task) < JSON_BUFFER_LEN)
    by (vm_compute; reflexivity).
  split; [exact Hvis|]. split; [exact Hd|]. split; [exact Hv|]. split; [exact Hdeb|].
  split; [exact Hfit|].
  pose proof (pending_change_is_staged accept 1100 Demo.plant_system Demo.plant_task 0
                PassFacts.plant_at_pass) as H.
  cbv zeta in H. apply H; [exact Hvis|exact Hd|exact Hv| |exact Hfit].
  right. split; [exact Hdeb|exact He].
Defined.

Lemma update_reaches_the_next_batch_witness :
  is_handle quiet 1
  /\ passes_without (1 - 1)
       [(true, accept, 600); (false, accept, 700)]
       (fst (Trackle_Prop_update 500 quiet 1 50)) Cases.quiet_task
     = Some Cases.waited
  /\ In (1 - 1) (map snd (due_members 1100 (fst Cases.waited) (snd Cases.waited)))
  /\ strlen (Bounds.pass_text 1100 (fst Cases.waited) (snd Cases.waited))
     < JSON_BUFFER_LEN
  /\ setToPublish
       (prop_at (st_props (staging 1100 (fst Cases.waited) (snd Cases.waited))) (1 - 1))
     = true
  /\ exists texts,
      snd (tick true accept 1100 (fst Cases.waited) (snd Cases.waited))
      = Some (json_object texts)
      /\ In (quoted "speed" +++ ":50")%string texts.
Proof.
  assert (Hh : is_handle quiet 1) by (unfold is_handle; rewrite quiet_count; lia).
  assert (Hidle : passes_without (1 - 1)
                    [(true, accept, 600); (false, accept, 700)]
                    (fst (Trackle_Prop_update 500 quiet 1 50)) Cases.quiet_task
                  = Some (fst Cases.waited, snd Cases.waited))
    by (vm_compute; reflexivity).
  assert (Hvis : In (1 - 1)
                   (map snd (due_members 1100 (fst Cases.waited) (snd Cases.waited))))
    by (vm_compute; auto).
  assert (Hfit : strlen (Bounds.pass_text 1100 (fst Cases.waited) (snd Cases.waited))
                 < JSON_BUFFER_LEN) by (vm_compute; reflexivity).
  split; [exact Hh|]. split; [vm_compute; reflexivity|]. split; [exact Hvis|].
  split; [exact Hfit|].
  pose proof (update_reaches_the_next_batch accept 500 1100 Cases.quiet_system
                Cases.quiet_task 1 50 [(true, accept, 600); (false, accept, 700)]
                (fst Cases.waited) (snd Cases.waited) PassFacts.quiet_at_pass) as H.
  cbv zeta in H. destruct H as (Hmark & texts & Hpay & Htext).
  { exact Hh. }
  { vm_compute. reflexivity. }
  { vm_compute. reflexivity. }
  { vm_compute. discriminate. }
  { vm_compute. discriminate. }
  { exact Hidle. }
  { left. vm_compute. reflexivity. }
  { exact Hvis. }
  { exact Hfit. }
  split; [exact Hmark|]. exists texts. split; [exact Hpay|].
  assert (Heq : member_text
                  (set_setValue 50 (prop_at (props quiet) (1 - 1)))
                = (quoted "speed" +++ ":50")%string) by (vm_compute; reflexivity).
  rewrite <- Heq. exact Htext.
Defined.

Lemma groups_only_grow_witness :
  System.run Cases.grown_calls Demo.plant_system = Some Cases.grown_system
  /\ 0 <= 0 < numPropGroupsCreated plant
  /\ members (group_at (propGroups plant) 0) = [0; 1]
  /\ members (group_at (propGroups (System.registry Cases.grown_system)) 0) = [0; 1; 3]
  /\ periodMs (group_at (propGroups (System.registry Cases.grown_system)) 0)
     = periodMs (group_at (propGroups plant) 0)
  /\ exists more,
      members (group_at (propGroups (System.registry Cases.grown_system)) 0)
      = members (group_at (propGroups plant) 0) ++ more.
Proof.
  assert (Hrun : System.run Cases.grown_calls Demo.plant_system = Some Cases.grown_system)
    by (vm_compute; reflexivity).
  assert (Hj : 0 <= 0 < numPropGroupsCreated plant).
  { assert (Hn : numPropGroupsCreated plant = 2) by (vm_compute; reflexivity).
    rewrite Hn. lia. }
  split; [exact Hrun|]. split; [exact Hj|].
  split; [vm_compute; reflexivity|]. split; [vm_compute; reflexivity|].
  pose proof (groups_only_grow Cases.grown_calls Demo.plant_system Cases.grown_system 0
                plant_in_service Hrun) as H.
  cbv zeta in H. destruct (H Hj) as (_ & _ & Hp & Hmore).
  split; [exact Hp|exact Hmore].
Defined.

Lemma latched_pass_stages_every_enabled_member_witness :
  at_pass Cases.shared_system Cases.shared_task
  /\ first_run Cases.shared_task = true
  /\ members (group_at (propGroups (System.registry Cases.shared_system)) 0) = [0]
  /\ members (group_at (propGroups (System.registry Cases.shared_system)) 1) = [0; 1]
  /\ strlen (Bounds.pass_text 100 (System.registry Cases.shared_system) Cases.shared_task)
     < JSON_BUFFER_LEN
  /\ (setToPublish
        (prop_at
           (st_props (staging 100 (System.registry Cases.shared_system) Cases.shared_task))
           1) = true
      <-> In 1 [0; 0; 1]
          /\ disabled (prop_at (props (System.registry Cases.shared_system)) 1) = false)
  /\ snd (tick true accept 100 (System.registry Cases.shared_system) Cases.shared_task)
     = Some ("{" +++ quoted "a" +++ ":0," +++ quoted "a" +++ ":0,"
               +++ quoted "b" +++ ":0}")%string.
Proof.
  assert (Hat : at_pass Cases.shared_system Cases.shared_task).
  { split; [cbn; lia|]. split; [cbn; lia|]. split; [|vm_compute; reflexivity].
    exists Cases.shared_calls. vm_compute. reflexivity. }
  assert (Hfr : first_run Cases.shared_task = true) by (vm_compute; reflexivity).
  assert (Hfit : strlen (Bounds.pass_text 100 (System.registry Cases.shared_system)
                           Cases.shared_task) < JSON_BUFFER_LEN)
    by (vm_compute; reflexivity).
  assert (Hall : flat_map
                   (fun j => members (group_at (propGroups (System.registry Cases.shared_system)) j))
                   (seqZ 0 (numPropGroupsCreated (System.registry Cases.shared_system)))
                 = [0; 0; 1]) by (vm_compute; reflexivity).
  split; [exact Hat|]. split; [exact Hfr|].
  split; [vm_compute; reflexivity|]. split; [vm_compute; reflexivity|].
  split; [exact Hfit|].
  pose proof (latched_pass_stages_every_enabled_member accept 100 Cases.shared_system
                Cases.shared_task Hat Hfr) as H.
  cbv zeta in H. destruct (H Hfit) as (Hmarks & _ & Hpay).
  split.
  - rewrite <- Hall. exact (Hmarks 1).
  - rewrite Hpay. vm_compute. reflexivity.
Defined.

End OnTheDemo.

End InterfaceFacts.

(** ** The interface and the task of the notifications *)

Module ServiceFacts.

Import Int Libc Notifications Service.

Lemma notification_valid_index_spec (s : State) (i : Z) :
  valid_index s i = true <-> 0 <= i < numNotificationsCreated s.
Proof.
  unfold valid_index. rewrite andb_true_iff, Z.leb_le, Z.ltb_lt. reflexivity.
Qed.

Lemma notification_valid_index_false (s : State) (i : Z) :
  valid_index s i = false <-> ~ (0 <= i < numNotificationsCreated s).
Proof.
  rewrite <- notification_valid_index_spec. destruct (valid_index s i); split; congruence.
Qed.

Lemma at_aset_same (ns : list Notification_t) (i : Z) (n : Notification_t) :
  0 <= i < Z.of_nat (length ns) -> notification_at (aset ns i n) i = n.
Proof. intros Hi. apply aget_aset_same. exact Hi. Qed.

Lemma at_aset_other (ns : list Notification_t) (i j : Z) (n : Notification_t) :
  i <> j -> notification_at (aset ns i n) j = notification_at ns j.
Proof. intros Hne. apply aget_aset_other. exact Hne. Qed.

Lemma notification_readings_of (s : State) (h : Z) :
  0 <= h - 1 < numNotificationsCreated s ->
  readings s h
  = (let n := notification_at (notifications s) (h - 1) in (key n, level n, value n)).
Proof.
  intros Hh. apply notification_valid_index_spec in Hh.
  unfold readings, Trackle_Notification_getKey, Trackle_Notification_getLevel,
    Trackle_Notification_getValue. cbv zeta. rewrite Hh. reflexivity.
Qed.

Lemma notification_readings_ext (s s' : State) (h : Z) :
  numNotificationsCreated s' = numNotificationsCreated s ->
  (0 <= h - 1 < numNotificationsCreated s ->
   notification_at (notifications s') (h - 1) = notification_at (notifications s) (h - 1)) ->
  readings s' h = readings s h.
Proof.
  intros Hn Hrec. unfold readings, Trackle_Notification_getKey,
    Trackle_Notification_getLevel, Trackle_Notification_getValue. cbv zeta.
  assert (Hv : valid_index s' (h - 1) = valid_index s (h - 1)).
  { unfold valid_index. rewrite Hn. reflexivity. }
  rewrite Hv. destruct (valid_index s (h - 1)) eqn:E; [|reflexivity].
  apply notification_valid_index_spec in E. rewrite (Hrec E). reflexivity.
Qed.

(** The duplicate-name loop of the constructor. *)
Lemma name_free (s : State) (name : string) :
  existsb (fun aIdx => streq name (key (notification_at (notifications s) aIdx)))
    (seqZ 0 (numNotificationsCreated s)) = false
  <-> forall i, 0 <= i < numNotificationsCreated s ->
                key (notification_at (notifications s) i) <> name.
Proof.
  split.
  - intros H i Hi Hkey.
    assert (Ht : existsb (fun aIdx => streq name (key (notification_at (notifications s) aIdx)))
                   (seqZ 0 (numNotificationsCreated s)) = true).
    { apply List.existsb_exists. exists i. split.
      - apply list_elem_of_In, elem_of_seqZ. lia.
      - unfold streq. apply String.eqb_eq. congruence. }
    congruence.
  - intros H. apply not_true_is_false. intros Ht.
    apply List.existsb_exists in Ht as (i & Hi & Heq).
    apply list_elem_of_In, elem_of_seqZ in Hi.
    unfold streq in Heq. apply String.eqb_eq in Heq.
    apply (H i); [lia|congruence].
Qed.

Lemma name_taken (s : State) (name : string) :
  existsb (fun aIdx => streq name (key (notification_at (notifications s) aIdx)))
    (seqZ 0 (numNotificationsCreated s)) = true
  <-> exists h, is_handle s h /\ Trackle_Notification_getKey s h = name.
Proof.
  unfold is_handle. rewrite List.existsb_exists. split.
  - intros (i & Hi & Heq). apply list_elem_of_In, elem_of_seqZ in Hi.
    exists (i + 1). split; [lia|]. unfold Trackle_Notification_getKey. cbv zeta.
    replace (i + 1 - 1) with i by lia.
    rewrite (proj2 (notification_valid_index_spec s i)) by lia.
    unfold streq in Heq. apply String.eqb_eq in Heq. congruence.
  - intros (h & Hh & Hkey). exists (h - 1). split.
    + apply list_elem_of_In, elem_of_seqZ. lia.
    + unfold Trackle_Notification_getKey in Hkey. cbv zeta in Hkey.
      rewrite (proj2 (notification_valid_index_spec s (h - 1))) in Hkey by lia.
      unfold streq. apply String.eqb_eq. congruence.
Qed.

(** *** The constructor *)

Lemma notification_create_succeeds (s : State) (name eventName format_ : string)
  (scale_ numDecimals_ : Z) (sign_ : bool) (valueMap_ : option (list (option string)))
  (valueMapSize_ : Z) :
  numNotificationsCreated s < TRACKLE_MAX_NOTIFICATIONS_NUM ->
  (forall i, 0 <= i < numNotificationsCreated s ->
             key (notification_at (notifications s) i) <> name) ->
  strlen name < NOTIFICATION_NAME_LENGTH ->
  strlen eventName < NOTIFICATION_EVENT_LENGTH ->
  strlen format_ < NOTIFICATION_FORMAT_LENGTH ->
  Trackle_Notification_createWithValueMap s name eventName format_ scale_ numDecimals_
    sign_ valueMap_ valueMapSize_
  = (mkState
       (aset (notifications s) (numNotificationsCreated s)
          (mkNotification name eventName format_ false sign_ (-1) scale_ numDecimals_ 0
             valueMap_ valueMapSize_))
       (numNotificationsCreated s + 1),
     numNotificationsCreated s + 1).
Proof.
  intros Hcap Hfree Hn He Hf. unfold Trackle_Notification_createWithValueMap.
  rewrite (proj2 (Z.ltb_lt _ _) Hcap), (proj2 (name_free s name) Hfree).
  rewrite (proj2 (Z.ltb_lt _ _) Hn), (proj2 (Z.ltb_lt _ _) He), (proj2 (Z.ltb_lt _ _) Hf).
  reflexivity.
Qed.

(** Whatever the constructor wrote before it failed, the counter and the
    created notifications are as before. *)
Lemma notification_create_fails (s : State) (name eventName format_ : string)
  (scale_ numDecimals_ : Z) (sign_ : bool) (valueMap_ : option (list (option string)))
  (valueMapSize_ : Z) :
  TRACKLE_MAX_NOTIFICATIONS_NUM <= numNotificationsCreated s
  \/ (exists i, 0 <= i < numNotificationsCreated s
                /\ key (notification_at (notifications s) i) = name)
  \/ NOTIFICATION_NAME_LENGTH <= strlen name
  \/ NOTIFICATION_EVENT_LENGTH <= strlen eventName
  \/ NOTIFICATION_FORMAT_LENGTH <= strlen format_ ->
  let r := Trackle_Notification_createWithValueMap s name eventName format_ scale_
             numDecimals_ sign_ valueMap_ valueMapSize_ in
  snd r = Trackle_NotificationID_ERROR
  /\ numNotificationsCreated (fst r) = numNotificationsCreated s
  /\ length (notifications (fst r)) = length (notifications s)
  /\ (forall i, i <> numNotificationsCreated s ->
                notification_at (notifications (fst r)) i
                = notification_at (notifications s) i).
Proof.
  intros H. cbv zeta. unfold Trackle_Notification_createWithValueMap.
  destruct (numNotificationsCreated s <? TRACKLE_MAX_NOTIFICATIONS_NUM) eqn:Hcap;
    [|cbn; repeat split; reflexivity].
  destruct (existsb _ _) eqn:Hname; [cbn; repeat split; reflexivity|].
  destruct (strlen name <? NOTIFICATION_NAME_LENGTH) eqn:Hn;
    [|cbn; repeat split; reflexivity].
  destruct (strlen eventName <? NOTIFICATION_EVENT_LENGTH) eqn:He.
  2:{ cbn [fst snd notifications numNotificationsCreated]. rewrite length_aset.
      repeat split; try reflexivity. intros i Hi. apply at_aset_other. congruence. }
  destruct (strlen format_ <? NOTIFICATION_FORMAT_LENGTH) eqn:Hf.
  2:{ cbn [fst snd notifications numNotificationsCreated]. rewrite length_aset.
      repeat split; try reflexivity. intros i Hi. apply at_aset_other. congruence. }
  apply Z.ltb_lt in Hcap, Hn, He, Hf.
  pose proof (proj1 (name_free s name) Hname) as Hfree.
  destruct H as [H|[(i & Hi & Hk)|[H|[H|H]]]]; try lia.
  exfalso. exact (Hfree i Hi Hk).
Qed.

Lemma notification_create_table_step (s : State) (name eventName format_ : string)
  (scale_ numDecimals_ : Z) (sign_ : bool) (valueMap_ : option (list (option string)))
  (valueMapSize_ : Z) :
  wf s ->
  table_step s
    (fst (Trackle_Notification_createWithValueMap s name eventName format_ scale_
            numDecimals_ sign_ valueMap_ valueMapSize_)).
Proof.
  intros (Hlen & Hnum & _).
  assert (Hfail : TRACKLE_MAX_NOTIFICATIONS_NUM <= numNotificationsCreated s
                  \/ (exists i, 0 <= i < numNotificationsCreated s
                                /\ key (notification_at (notifications s) i) = name)
                  \/ NOTIFICATION_NAME_LENGTH <= strlen name
                  \/ NOTIFICATION_EVENT_LENGTH <= strlen eventName
                  \/ NOTIFICATION_FORMAT_LENGTH <= strlen format_ ->
                  table_step s
                    (fst (Trackle_Notification_createWithValueMap s name eventName format_
                            scale_ numDecimals_ sign_ valueMap_ valueMapSize_))).
  { intros H. destruct (notification_create_fails s name eventName format_ scale_ numDecimals_ sign_
                          valueMap_ valueMapSize_ H) as (_ & Hn & Hl & Hrec).
    split; [exact Hl|]. left. split; [exact Hn|].
    intros i Hi. rewrite Hrec by lia. reflexivity. }
  destruct (Z_lt_dec (numNotificationsCreated s) TRACKLE_MAX_NOTIFICATIONS_NUM) as [Hcap|Hcap];
    [|apply Hfail; lia].
  destruct (existsb (fun aIdx => streq name (key (notification_at (notifications s) aIdx)))
              (seqZ 0 (numNotificationsCreated s))) eqn:Hname.
  { apply Hfail. right. left. apply List.existsb_exists in Hname as (i & Hi & Heq).
    apply list_elem_of_In, elem_of_seqZ in Hi. exists i. split; [lia|].
    unfold streq in Heq. apply String.eqb_eq in Heq. congruence. }
  pose proof (proj1 (name_free s name) Hname) as Hfree.
  destruct (Z_lt_dec (strlen name) NOTIFICATION_NAME_LENGTH) as [Hn|Hn];
    [|apply Hfail; lia].
  destruct (Z_lt_dec (strlen eventName) NOTIFICATION_EVENT_LENGTH) as [He|He];
    [|apply Hfail; lia].
  destruct (Z_lt_dec (strlen format_) NOTIFICATION_FORMAT_LENGTH) as [Hf|Hf];
    [|apply Hfail; lia].
  rewrite notification_create_succeeds by assumption. unfold table_step.
  cbn [fst notifications numNotificationsCreated].
  split; [apply length_aset|]. right.
  split; [reflexivity|]. split; [exact Hcap|]. split.
  - intros i Hi. apply at_aset_other. lia.
  - cbv zeta. rewrite at_aset_same by lia. cbn [key event format].
    repeat split; try assumption.
Qed.

(** *** The update *)

Lemma notification_update_record (s : State) (notificationID newLevel value_ : Z) :
  0 <= notificationID - 1 < numNotificationsCreated s ->
  level (notification_at (notifications s) (notificationID - 1)) <> newLevel ->
  let n := notification_at (notifications s) (notificationID - 1) in
  Trackle_Notification_update s notificationID newLevel value_
  = (mkState
       (aset (notifications s) (notificationID - 1)
          (mkNotification (key n) (event n) (format n) true (sign n) value_ (scale n)
             (numDecimals n) newLevel (valueMap n) (valueMapSize n)))
       (numNotificationsCreated s),
     true).
Proof.
  intros Hh Hne. cbv zeta. unfold Trackle_Notification_update. cbv zeta.
  rewrite (proj2 (notification_valid_index_spec s _) Hh), (proj2 (Z.eqb_neq _ _) Hne). reflexivity.
Qed.

Lemma update_same (s : State) (notificationID newLevel value_ : Z) :
  ~ (0 <= notificationID - 1 < numNotificationsCreated s)
  \/ level (notification_at (notifications s) (notificationID - 1)) = newLevel ->
  fst (Trackle_Notification_update s notificationID newLevel value_) = s.
Proof.
  intros H. unfold Trackle_Notification_update. cbv zeta.
  destruct (valid_index s (notificationID - 1)) eqn:Hv; [|reflexivity].
  destruct H as [H|H]; [apply notification_valid_index_spec in Hv; contradiction|].
  rewrite (proj2 (Z.eqb_eq _ _) H). reflexivity.
Qed.

Lemma notification_update_table_step (s : State) (notificationID newLevel value_ : Z) :
  wf s -> table_step s (fst (Trackle_Notification_update s notificationID newLevel value_)).
Proof.
  intros (Hlen & Hnum & _).
  destruct (Z_le_gt_dec 0 (notificationID - 1)) as [H0|H0];
    [|rewrite update_same by (left; lia); split; [reflexivity|left; split; reflexivity]].
  destruct (Z_lt_dec (notificationID - 1) (numNotificationsCreated s)) as [H1|H1];
    [|rewrite update_same by (left; lia); split; [reflexivity|left; split; reflexivity]].
  destruct (Z.eq_dec (level (notification_at (notifications s) (notificationID - 1))) newLevel)
    as [He|Hne];
    [rewrite update_same by (right; exact He); split; [reflexivity|left; split; reflexivity]|].
  rewrite notification_update_record by (try lia; exact Hne). unfold table_step.
  cbn [fst notifications numNotificationsCreated].
  split; [apply length_aset|]. left. split; [reflexivity|].
  intros i Hi. destruct (Z.eq_dec (notificationID - 1) i) as [<-|Hd].
  - rewrite at_aset_same by lia. reflexivity.
  - rewrite at_aset_other by exact Hd. reflexivity.
Qed.

(** *** The pass of the task *)

Section Pass.

Context {ff : FloatFormat}.

Lemma message_ext (ns ns' : list Notification_t) (i : Z) :
  notification_at ns' i = notification_at ns i ->
  makeMessageStringFromNotification ns' i = makeMessageStringFromNotification ns i.
Proof. unfold makeMessageStringFromNotification. intros ->. reflexivity. Qed.

(** The loop of a pass, told from the registry [s0] the pass began with:
    [ns] is the table when the loop reaches the indexes [l]. *)
Lemma pass_loop (publish : string -> string -> bool) (s0 : State) (l : list Z) :
  forall ns out,
    List.NoDup l ->
    (forall i, In i l -> 0 <= i < Z.of_nat (length ns)) ->
    (forall i, In i l -> notification_at ns i = notification_at (notifications s0) i) ->
    (forall i, In i l ->
               changed (notification_at (notifications s0) i) = true ->
               makeMessageStringFromNotification (notifications s0) i <> None) ->
    exists ns',
      fold_left (notification_body publish) l (Some (ns, out))
      = Some (ns',
              out ++ map (sent s0)
                       (List.filter
                          (fun i => changed (notification_at (notifications s0) i)) l))
      /\ length ns' = length ns
      /\ forall j,
          notification_at ns' j
          = if Batch.mem j l
               && changed (notification_at (notifications s0) j)
               && publish (event (notification_at (notifications s0) j)) (message s0 j)
            then set_changed false (notification_at (notifications s0) j)
            else notification_at ns j.
Proof.
  induction l as [|i l IH]; intros ns out Hnd Hin Hsame Hrender.
  - exists ns. cbn. rewrite app_nil_r. auto.
  - apply List.NoDup_cons_iff in Hnd as [Hi Hnd]. cbn [fold_left List.filter].
    assert (Hni : notification_at ns i = notification_at (notifications s0) i)
      by (apply Hsame; left; reflexivity).
    assert (Hir : 0 <= i < Z.of_nat (length ns)) by (apply Hin; left; reflexivity).
    assert (Hmi : Batch.mem i l = false) by (apply PassFacts.mem_false_not_In; exact Hi).
    unfold notification_body at 2. rewrite Hni.
    destruct (changed (notification_at (notifications s0) i)) eqn:Hc.
    + rewrite (message_ext (notifications s0) ns i Hni).
      destruct (makeMessageStringFromNotification (notifications s0) i) as [m|] eqn:Hm.
      2:{ exfalso. apply (Hrender i (or_introl eq_refl) Hc). exact Hm. }
      set (n := notification_at (notifications s0) i) in *.
      set (ns1 := if publish (event n) m
                  then aset ns i
                         (mkNotification (key n) (event n) (format n) false (sign n)
                            (value n) (scale n) (numDecimals n) (level n) (valueMap n)
                            (valueMapSize n))
                  else ns).
      assert (Hl1 : length ns1 = length ns).
      { unfold ns1. destruct (publish _ _); [apply length_aset|reflexivity]. }
      assert (H1 : forall j, j <> i -> notification_at ns1 j = notification_at ns j).
      { intros j Hj. unfold ns1. destruct (publish _ _); [|reflexivity].
        apply at_aset_other. congruence. }
      destruct (IH ns1 (out ++ [(event n, m)]) Hnd) as (ns' & Hfold & Hlen & Hrec).
      { intros j Hj. rewrite Hl1. apply Hin. right. exact Hj. }
      { intros j Hj. rewrite H1 by (intros ->; contradiction). apply Hsame. right. exact Hj. }
      { intros j Hj. apply Hrender. right. exact Hj. }
      exists ns'. split; [|split; [congruence|]].
      * rewrite Hfold. f_equal. f_equal. rewrite <- app_assoc. f_equal.
        cbn [map app]. f_equal. unfold sent, message. fold n. rewrite Hm. reflexivity.
      * intros j. rewrite Hrec, SchedulerFacts.mem_cons.
        destruct (Z.eqb_spec j i) as [->|Hne]; cbn [orb].
        -- fold n. rewrite Hmi, Hc. cbn [andb]. unfold message. rewrite Hm.
           unfold ns1. destruct (publish (event n) m).
           ++ rewrite at_aset_same by exact Hir. reflexivity.
           ++ reflexivity.
        -- rewrite H1 by exact Hne. reflexivity.
    + destruct (IH ns out Hnd) as (ns' & Hfold & Hlen & Hrec).
      { intros j Hj. apply Hin. right. exact Hj. }
      { intros j Hj. apply Hsame. right. exact Hj. }
      { intros j Hj. apply Hrender. right. exact Hj. }
      exists ns'. split; [exact Hfold|]. split; [exact Hlen|].
      intros j. rewrite Hrec, SchedulerFacts.mem_cons.
      destruct (Z.eqb_spec j i) as [->|Hne]; cbn [orb]; [|reflexivity].
      rewrite Hmi, Hc. reflexivity.
Qed.

Lemma pass_outcome (publish : string -> string -> bool) (s : State) :
  wf s ->
  (forall i, In i (pending s) ->
             makeMessageStringFromNotification (notifications s) i <> None) ->
  exists s',
    tick publish s = Some (s', map (sent s) (pending s))
    /\ numNotificationsCreated s' = numNotificationsCreated s
    /\ length (notifications s') = length (notifications s)
    /\ forall i,
        notification_at (notifications s') i
        = if Batch.mem i (pending s) && publish (fst (sent s i)) (snd (sent s i))
          then set_changed false (notification_at (notifications s) i)
          else notification_at (notifications s) i.
Proof.
  intros (Hlen & Hnum & _) Hrender.
  destruct (pass_loop publish s (seqZ 0 (numNotificationsCreated s)) (notifications s) [])
    as (ns' & Hfold & Hl & Hrec).
  - apply NoDup_ListNoDup, NoDup_seqZ.
  - intros i Hi. apply list_elem_of_In, elem_of_seqZ in Hi. lia.
  - reflexivity.
  - intros i Hi Hc. apply Hrender. unfold pending. apply List.filter_In. split; assumption.
  - exists (mkState ns' (numNotificationsCreated s)).
    unfold tick, for_loop. rewrite Hfold. cbn [app].
    split; [reflexivity|]. split; [reflexivity|]. split; [exact Hl|].
    intros i. cbn [notifications]. rewrite Hrec. cbn [fst snd sent].
    assert (Hm : Batch.mem i (pending s)
                 = Batch.mem i (seqZ 0 (numNotificationsCreated s))
                   && changed (notification_at (notifications s) i)).
    { destruct (Batch.mem i (pending s)) eqn:E.
      - apply SchedulerFacts.mem_In in E. unfold pending in E.
        apply List.filter_In in E as [E1 E2].
        apply SchedulerFacts.mem_In in E1. rewrite E1, E2. reflexivity.
      - destruct (Batch.mem i (seqZ 0 _)) eqn:E1; [|reflexivity].
        destruct (changed _) eqn:E2; [|reflexivity].
        apply SchedulerFacts.mem_In in E1.
        assert (Hp : In i (pending s)) by (apply List.filter_In; split; assumption).
        apply SchedulerFacts.mem_In in Hp. congruence. }
    rewrite Hm. reflexivity.
Qed.

Lemma notification_tick_table_step (publish : string -> string -> bool) (s s' : State)
  (out : list (string * string)) :
  wf s -> tick publish s = Some (s', out) -> table_step s s'.
Proof.
  intros Hwf Htick.
  destruct (pass_outcome publish s Hwf) as (s1 & Ht & Hn & Hl & Hrec).
  { intros i Hi Hnone. unfold pending in Hi. apply List.filter_In in Hi as [Hi Hc].
    apply list_elem_of_In, elem_of_seqZ in Hi.
    unfold tick, for_loop in Htick.
    destruct (fold_left _ _ _) as [[ns o]|] eqn:E; [|discriminate].
    clear Htick. revert E.
    assert (Hgen : forall l ns0 o0,
               In i l ->
               (forall j, In j l -> notification_at ns0 j = notification_at (notifications s) j) ->
               List.NoDup l ->
               fold_left (notification_body publish) l (Some (ns0, o0)) <> Some (ns, o)).
    { induction l as [|j l IH]; intros ns0 o0 Hil Hsame Hnd; [destruct Hil|].
      apply List.NoDup_cons_iff in Hnd as [Hj Hnd]. cbn [fold_left].
      assert (Hnj : notification_at ns0 j = notification_at (notifications s) j)
        by (apply Hsame; left; reflexivity).
      destruct (Z.eq_dec j i) as [->|Hne].
      - unfold notification_body at 2. rewrite Hnj, Hc.
        rewrite (message_ext (notifications s) ns0 i Hnj), Hnone.
        rewrite NotificationsFacts.pass_without_result. discriminate.
      - destruct Hil as [Hil|Hil]; [contradiction|].
        unfold notification_body at 2. rewrite Hnj.
        destruct (changed (notification_at (notifications s) j)); [|apply IH; try assumption;
          intros x Hx; apply Hsame; right; exact Hx].
        destruct (makeMessageStringFromNotification ns0 j) as [m|];
          [|rewrite NotificationsFacts.pass_without_result; discriminate].
        apply IH; try assumption. intros x Hx.
        destruct (publish _ m); [|apply Hsame; right; exact Hx].
        rewrite at_aset_other by (intros ->; contradiction). apply Hsame. right. exact Hx. }
    intros E. apply (Hgen (seqZ 0 (numNotificationsCreated s)) (notifications s) []);
      [apply list_elem_of_In, elem_of_seqZ; lia|reflexivity
      |apply NoDup_ListNoDup, NoDup_seqZ|exact E]. }
  rewrite Ht in Htick. injection Htick as <- _.
  split; [exact Hl|]. left. split; [exact Hn|].
  intros i Hi. rewrite Hrec. destruct (_ && _); reflexivity.
Qed.

(** *** The invariant of a run *)

Lemma table_step_wf (s s' : State) : table_step s s' -> wf s -> wf s'.
Proof.
  intros [Hl Hstep] (Hlen & Hnum & Hdist & Hfit). unfold wf. rewrite Hl.
  split; [exact Hlen|].
  destruct Hstep as [[Hn Hfix]|(Hn & Hcap & Hold & Hnew)].
  - rewrite Hn. split; [exact Hnum|].
    assert (Hk : forall i, 0 <= i < numNotificationsCreated s ->
                 key (notification_at (notifications s') i)
                 = key (notification_at (notifications s) i)
                 /\ event (notification_at (notifications s') i)
                    = event (notification_at (notifications s) i)
                 /\ format (notification_at (notifications s') i)
                    = format (notification_at (notifications s) i)).
    { intros i Hi. specialize (Hfix i Hi). unfold fixed_part in Hfix.
      injection Hfix as -> -> -> _. auto. }
    split.
    + intros i j Hi Hj Heq.
      rewrite (proj1 (Hk i Hi)), (proj1 (Hk j Hj)) in Heq. exact (Hdist i j Hi Hj Heq).
    + intros i Hi. cbv zeta. destruct (Hk i Hi) as (-> & -> & ->). exact (Hfit i Hi).
  - rewrite Hn. split; [lia|]. cbv zeta in Hnew. destruct Hnew as (Hfresh & Hfits).
    split.
    + intros i j Hi Hj Heq.
      destruct (Z.eq_dec i (numNotificationsCreated s)) as [->|Hi'];
        destruct (Z.eq_dec j (numNotificationsCreated s)) as [->|Hj']; [reflexivity| | |].
      * rewrite (Hold j) in Heq by lia. exfalso. apply (Hfresh j); [lia|congruence].
      * rewrite (Hold i) in Heq by lia. exfalso. apply (Hfresh i); [lia|congruence].
      * rewrite (Hold i), (Hold j) in Heq by lia. apply Hdist; [lia|lia|exact Heq].
    + intros i Hi. cbv zeta.
      destruct (Z.eq_dec i (numNotificationsCreated s)) as [->|Hi']; [exact Hfits|].
      rewrite (Hold i) by lia. apply Hfit. lia.
Qed.

Lemma notification_perform_table_step (c : call) (s s' : State) :
  wf s -> perform c s = Some s' -> table_step s s'.
Proof.
  intros Hwf Hperform. destruct c; cbn in Hperform.
  - injection Hperform as <-. apply notification_create_table_step, Hwf.
  - injection Hperform as <-. apply notification_update_table_step, Hwf.
  - destruct (tick tracklePublishSecure s) as [[s1 out]|] eqn:E; [|discriminate].
    injection Hperform as <-. exact (notification_tick_table_step _ _ _ _ Hwf E).
Qed.

Lemma run_keeps_wf (cs : list call) :
  forall s s', wf s -> run cs s = Some s' -> wf s'.
Proof.
  induction cs as [|c cs IH]; intros s s' Hwf Hrun; cbn in Hrun.
  - injection Hrun as <-. exact Hwf.
  - destruct (perform c s) as [s1|] eqn:E; [|discriminate].
    apply (IH s1); [|exact Hrun].
    exact (table_step_wf _ _ (notification_perform_table_step c s s1 Hwf E) Hwf).
Qed.

Lemma initial_wf : wf initial.
Proof.
  split; [reflexivity|]. split; [unfold TRACKLE_MAX_NOTIFICATIONS_NUM; cbn; lia|].
  split; intros i; cbn; lia.
Qed.

Lemma reachable_wf (s : State) : reachable s -> wf s.
Proof. intros [cs Hrun]. exact (run_keeps_wf cs _ _ initial_wf Hrun). Qed.

(** *** The interface, read back *)

Lemma pending_spec (s : State) (i : Z) :
  In i (pending s)
  <-> 0 <= i < numNotificationsCreated s
      /\ changed (notification_at (notifications s) i) = true.
Proof.
  unfold pending. rewrite List.filter_In.
  split; intros [H1 H2]; (split; [|exact H2]).
  - apply list_elem_of_In, elem_of_seqZ in H1. lia.
  - apply list_elem_of_In, elem_of_seqZ. lia.
Qed.

Lemma pending_same (s s' : State) :
  numNotificationsCreated s' = numNotificationsCreated s ->
  (forall i, 0 <= i < numNotificationsCreated s ->
             changed (notification_at (notifications s') i)
             = changed (notification_at (notifications s) i)) ->
  pending s' = pending s.
Proof.
  intros Hn Hc. unfold pending. rewrite Hn. apply List.filter_ext_in.
  intros i Hi. apply list_elem_of_In, elem_of_seqZ in Hi. apply Hc. lia.
Qed.

(** X26. A new notification, read back through the accessors. The constructor
    succeeds exactly when the table has room, the name is not the key of a
    created notification, and name, event and format fit their arrays; the
    new handle is then the number of notifications created so far plus
    one, it reads the name, level 0 and value -1, every other handle reads
    as before, and the new notification is not pending, so the task
    publishes nothing for it before its first effective update. When the
    constructor fails it answers the error handle and nothing of it can be
    seen: the counter, what every handle reads and the pending
    notifications are as before. *)
Theorem notification_create_then_read (s : State) (name eventName format_ : string)
  (scale_ numDecimals_ : Z) (sign_ : bool) (valueMap_ : option (list (option string)))
  (valueMapSize_ : Z) :
  reachable s ->
  let r := Trackle_Notification_createWithValueMap s name eventName format_ scale_
             numDecimals_ sign_ valueMap_ valueMapSize_ in
  (numNotificationsCreated s < TRACKLE_MAX_NOTIFICATIONS_NUM ->
   (forall h, is_handle s h -> Trackle_Notification_getKey s h <> name) ->
   strlen name < NOTIFICATION_NAME_LENGTH ->
   strlen eventName < NOTIFICATION_EVENT_LENGTH ->
   strlen format_ < NOTIFICATION_FORMAT_LENGTH ->
   snd r = numNotificationsCreated s + 1
   /\ numNotificationsCreated (fst r) = numNotificationsCreated s + 1
   /\ readings (fst r) (snd r) = (name, 0, -1)
   /\ (forall h, h <> snd r -> readings (fst r) h = readings s h)
   /\ pending (fst r) = pending s)
  /\ (TRACKLE_MAX_NOTIFICATIONS_NUM <= numNotificationsCreated s
      \/ (exists h, is_handle s h /\ Trackle_Notification_getKey s h = name)
      \/ NOTIFICATION_NAME_LENGTH <= strlen name
      \/ NOTIFICATION_EVENT_LENGTH <= strlen eventName
      \/ NOTIFICATION_FORMAT_LENGTH <= strlen format_ ->
      snd r = Trackle_NotificationID_ERROR
      /\ numNotificationsCreated (fst r) = numNotificationsCreated s
      /\ (forall h, readings (fst r) h = readings s h)
      /\ pending (fst r) = pending s).
Proof.
  intros Hreach r. pose proof (reachable_wf s Hreach) as (Hlen & Hnum & _). split.
  - intros Hcap Hfree Hn He Hf.
    assert (Hfree' : forall i, 0 <= i < numNotificationsCreated s ->
                               key (notification_at (notifications s) i) <> name).
    { apply name_free. apply not_true_is_false. intros Ht.
      apply name_taken in Ht as (h & Hh & Hk). exact (Hfree h Hh Hk). }
    unfold r. rewrite notification_create_succeeds by assumption.
    cbn [fst snd numNotificationsCreated].
    split; [reflexivity|]. split; [reflexivity|]. split; [|split].
    + rewrite notification_readings_of by (cbn [numNotificationsCreated]; lia). cbn [notifications].
      replace (numNotificationsCreated s + 1 - 1) with (numNotificationsCreated s) by lia.
      rewrite at_aset_same by lia. reflexivity.
    + intros h Hh. unfold readings, Trackle_Notification_getKey,
        Trackle_Notification_getLevel, Trackle_Notification_getValue. cbv zeta.
      destruct (valid_index s (h - 1)) eqn:E.
      * apply notification_valid_index_spec in E.
        rewrite (proj2 (notification_valid_index_spec _ (h - 1))) by (cbn [numNotificationsCreated]; lia).
        cbn [notifications]. rewrite at_aset_other by lia. reflexivity.
      * apply notification_valid_index_false in E.
        rewrite (proj2 (notification_valid_index_false _ (h - 1))); [reflexivity|].
        cbn [numNotificationsCreated]. lia.
    + unfold pending. cbn [notifications numNotificationsCreated].
      rewrite seqZ_app by lia. rewrite List.filter_app.
      rewrite (seqZ_cons (0 + numNotificationsCreated s) 1) by lia.
      rewrite (seqZ_nil _ (Z.pred 1)) by lia. cbn [List.filter].
      replace (0 + numNotificationsCreated s) with (numNotificationsCreated s) by lia.
      rewrite at_aset_same by lia. cbn [changed]. rewrite app_nil_r.
      apply List.filter_ext_in. intros i Hi. apply list_elem_of_In, elem_of_seqZ in Hi.
      rewrite at_aset_other by lia. reflexivity.
  - intros Hfail.
    assert (Hfail' : TRACKLE_MAX_NOTIFICATIONS_NUM <= numNotificationsCreated s
                     \/ (exists i, 0 <= i < numNotificationsCreated s
                                   /\ key (notification_at (notifications s) i) = name)
                     \/ NOTIFICATION_NAME_LENGTH <= strlen name
                     \/ NOTIFICATION_EVENT_LENGTH <= strlen eventName
                     \/ NOTIFICATION_FORMAT_LENGTH <= strlen format_).
    { destruct Hfail as [H|[(h & Hh & Hk)|H]]; [left; exact H| |right; right; exact H].
      right. left. exists (h - 1). unfold is_handle in Hh. split; [lia|].
      unfold Trackle_Notification_getKey in Hk. cbv zeta in Hk.
      rewrite (proj2 (notification_valid_index_spec s (h - 1))) in Hk by lia. exact Hk. }
    destruct (notification_create_fails s name eventName format_ scale_ numDecimals_ sign_ valueMap_
                valueMapSize_ Hfail') as (Hid & Hn & _ & Hrec).
    fold r in Hid, Hn, Hrec. split; [exact Hid|]. split; [exact Hn|]. split.
    + intros h. apply notification_readings_ext; [exact Hn|]. intros Hh. apply Hrec. lia.
    + apply pending_same; [exact Hn|]. intros i Hi. rewrite Hrec by lia. reflexivity.
Qed.

(** X27. An effective update, read back through the accessors: for a valid
    handle and a level that is not the stored one, the handle then reads
    the new level and the new value under the same key, the notification
    is pending, and every other handle reads, and is pending or not, as
    before. *)
Theorem notification_update_then_read (s : State) (notificationID newLevel value_ : Z) :
  reachable s ->
  is_handle s notificationID ->
  Trackle_Notification_getLevel s notificationID <> newLevel ->
  let s' := fst (Trackle_Notification_update s notificationID newLevel value_) in
  readings s' notificationID
  = (Trackle_Notification_getKey s notificationID, newLevel, value_)
  /\ In (notificationID - 1) (pending s')
  /\ (forall h, h <> notificationID ->
                readings s' h = readings s h
                /\ (In (h - 1) (pending s') <-> In (h - 1) (pending s))).
Proof.
  intros Hreach Hh Hne s'. pose proof (reachable_wf s Hreach) as (Hlen & Hnum & _).
  unfold is_handle in Hh.
  assert (Hi : 0 <= notificationID - 1 < numNotificationsCreated s) by lia.
  assert (Hlevel : level (notification_at (notifications s) (notificationID - 1))
                   <> newLevel).
  { unfold Trackle_Notification_getLevel in Hne. cbv zeta in Hne.
    rewrite (proj2 (notification_valid_index_spec s _) Hi) in Hne. exact Hne. }
  unfold s'. rewrite (notification_update_record s notificationID newLevel value_ Hi Hlevel).
  cbn [fst]. split; [|split].
  - rewrite notification_readings_of by exact Hi. cbn [notifications].
    rewrite at_aset_same by lia. cbn.
    unfold Trackle_Notification_getKey. cbv zeta.
    rewrite (proj2 (notification_valid_index_spec s _) Hi). reflexivity.
  - apply pending_spec. cbn [notifications numNotificationsCreated].
    split; [exact Hi|]. rewrite at_aset_same by lia. reflexivity.
  - intros h Hneq. split.
    + apply notification_readings_ext; [reflexivity|]. intros _. cbn [notifications].
      apply at_aset_other. lia.
    + rewrite !pending_spec. cbn [notifications numNotificationsCreated].
      rewrite at_aset_other by lia. reflexivity.
Qed.

(** X28. One pass of the notifications task, in a state the firmware can reach
    and where every pending notification is rendered within the buffers:
    its format uses only the conversions [%s], [%u], [%d] and [%%], for
    the key, the level and the value text in this order, its value text
    fits the 32 bytes of the value buffer and its message fits the message
    buffer (the code writes both without a bound, and other formats are
    outside this development). Then the publish call receives, in the
    order of the handles, the event and the message of exactly the pending
    notifications; a notification stops being pending exactly when its
    publication succeeded, so a failed one is sent again by the next pass;
    nothing else changes, and in particular every handle reads as
    before. *)
Theorem pass_publishes_the_pending (publish : string -> string -> bool) (s : State) :
  reachable s ->
  (forall i, In i (pending s) -> Bounds.renders_in_buffers (notifications s) i) ->
  exists s',
    tick publish s = Some (s', map (sent s) (pending s))
    /\ (forall h, readings s' h = readings s h)
    /\ (forall i, In i (pending s')
                  <-> In i (pending s)
                      /\ publish (fst (sent s i)) (snd (sent s i)) = false)
    /\ (forall i, fixed_part (notification_at (notifications s') i)
                  = fixed_part (notification_at (notifications s) i)).
Proof.
  intros Hreach Hfit. pose proof (reachable_wf s Hreach) as Hwf.
  assert (Hrender : forall i, In i (pending s) ->
                              makeMessageStringFromNotification (notifications s) i <> None).
  { intros i Hi. destruct (Hfit i Hi) as (vb & m & _ & _ & Hm & _). congruence. }
  destruct (pass_outcome publish s Hwf Hrender) as (s' & Htick & Hn & Hl & Hrec).
  exists s'. split; [exact Htick|]. split; [|split].
  - intros h. unfold readings, Trackle_Notification_getKey,
      Trackle_Notification_getLevel, Trackle_Notification_getValue. cbv zeta.
    assert (Hv : valid_index s' (h - 1) = valid_index s (h - 1)).
    { unfold valid_index. rewrite Hn. reflexivity. }
    rewrite Hv, Hrec. destruct (valid_index s (h - 1)); [|reflexivity].
    destruct (_ && _); reflexivity.
  - intros i. rewrite (pending_spec s'), Hn, Hrec.
    destruct (Batch.mem i (pending s)) eqn:Em; cbn [andb].
    + apply SchedulerFacts.mem_In in Em. pose proof Em as Hp.
      apply pending_spec in Hp as [Hi Hc].
      destruct (publish (fst (sent s i)) (snd (sent s i))); cbn [changed set_changed].
      * split; [intros [_ H]; discriminate|intros [_ H]; discriminate].
      * split; [intros _; split; [exact Em|reflexivity]|intros _; split; assumption].
    + apply PassFacts.mem_false_not_In in Em. split.
      * intros H. exfalso. apply Em, pending_spec. exact H.
      * intros [H _]. contradiction.
  - intros i. rewrite Hrec. destruct (_ && _); reflexivity.
Qed.

(** X29. In every state the firmware can reach there are at most
    [TRACKLE_MAX_NOTIFICATIONS_NUM] notifications, two different handles
    have different keys, and key, event and format of every notification
    are shorter than their arrays, so the copies made at creation stayed
    inside them. *)
Theorem notification_keys_are_unique (s : State) :
  reachable s ->
  0 <= numNotificationsCreated s <= TRACKLE_MAX_NOTIFICATIONS_NUM
  /\ (forall h1 h2,
        is_handle s h1 -> is_handle s h2 ->
        Trackle_Notification_getKey s h1 = Trackle_Notification_getKey s h2 -> h1 = h2)
  /\ (forall h,
        is_handle s h ->
        let n := notification_at (notifications s) (h - 1) in
        strlen (Trackle_Notification_getKey s h) < NOTIFICATION_NAME_LENGTH
        /\ strlen (event n) < NOTIFICATION_EVENT_LENGTH
        /\ strlen (format n) < NOTIFICATION_FORMAT_LENGTH).
Proof.
  intros Hreach. destruct (reachable_wf s Hreach) as (_ & Hnum & Hdist & Hfit).
  assert (Hkey : forall h, is_handle s h ->
                 Trackle_Notification_getKey s h
                 = key (notification_at (notifications s) (h - 1))).
  { intros h Hh. unfold is_handle in Hh. unfold Trackle_Notification_getKey. cbv zeta.
    rewrite (proj2 (notification_valid_index_spec s (h - 1))) by lia. reflexivity. }
  split; [exact Hnum|]. split.
  - intros h1 h2 H1 H2 Hk. rewrite !Hkey in Hk by assumption.
    unfold is_handle in H1, H2.
    assert (h1 - 1 = h2 - 1) by (apply Hdist; [lia|lia|exact Hk]). lia.
  - intros h Hh. cbv zeta. rewrite Hkey by exact Hh. unfold is_handle in Hh.
    apply Hfit. lia.
Qed.

End Pass.

(** *** The theorems on the notification of the demo *)

Section OnTheDemo.

#[local] Existing Instance Demo.ff.

Local Notation accept := (fun _ _ : string => true).

Lemma over_reachable : reachable Demo.over_raised.
Proof. exists Cases.over_calls. vm_compute. reflexivity. Qed.

Lemma over_count : numNotificationsCreated Demo.over_raised = 1.
Proof. vm_compute. reflexivity. Qed.

Lemma notification_create_then_read_witness :
  reachable Demo.over_raised
  /\ snd (Trackle_Notification_createWithValueMap Demo.over_raised "door" "machine/door"
            "%s:%u:%s" 1 0 false None 0) = 2
  /\ readings
       (fst (Trackle_Notification_createWithValueMap Demo.over_raised "door" "machine/door"
               "%s:%u:%s" 1 0 false None 0))
       (snd (Trackle_Notification_createWithValueMap Demo.over_raised "door" "machine/door"
               "%s:%u:%s" 1 0 false None 0))
     = ("door"%string, 0, -1)
  /\ snd (Trackle_Notification_createWithValueMap Demo.over_raised "over" "machine/door"
            "%s:%u:%s" 1 0 false None 0) = Trackle_NotificationID_ERROR.
Proof.
  split; [exact over_reachable|].
  pose proof (notification_create_then_read Demo.over_raised "door" "machine/door"
                "%s:%u:%s" 1 0 false None 0 over_reachable) as Hnew.
  pose proof (notification_create_then_read Demo.over_raised "over" "machine/door"
                "%s:%u:%s" 1 0 false None 0 over_reachable) as Hdup.
  cbv zeta in Hnew, Hdup. destruct Hnew as [Hnew _]. destruct Hdup as [_ Hdup].
  destruct Hnew as (Hid & _ & Hread & _).
  { vm_compute. reflexivity. }
  { intros h Hh. unfold is_handle in Hh. rewrite over_count in Hh.
    assert (h = 1) by lia. subst h. vm_compute. discriminate. }
  { vm_compute. reflexivity. }
  { vm_compute. reflexivity. }
  { vm_compute. reflexivity. }
  destruct Hdup as [Herr _].
  { right. left. exists 1. split; [unfold is_handle; rewrite over_count; lia|].
    vm_compute. reflexivity. }
  split; [rewrite Hid; vm_compute; reflexivity|]. split; [exact Hread|exact Herr].
Defined.

Lemma notification_update_then_read_witness :
  is_handle Demo.over_raised 1
  /\ Trackle_Notification_getLevel Demo.over_raised 1 <> 2
  /\ readings (fst (Trackle_Notification_update Demo.over_raised 1 2 9)) 1
     = (Trackle_Notification_getKey Demo.over_raised 1, 2, 9)
  /\ In (1 - 1) (pending (fst (Trackle_Notification_update Demo.over_raised 1 2 9))).
Proof.
  assert (Hh : is_handle Demo.over_raised 1)
    by (unfold is_handle; rewrite over_count; lia).
  assert (Hne : Trackle_Notification_getLevel Demo.over_raised 1 <> 2)
    by (vm_compute; discriminate).
  split; [exact Hh|]. split; [exact Hne|].
  pose proof (notification_update_then_read Demo.over_raised 1 2 9 over_reachable Hh Hne)
    as H.
  cbv zeta in H. destruct H as (Hread & Hpend & _). split; [exact Hread|exact Hpend].
Defined.

Lemma alerts_reachable : reachable Cases.alerts.
Proof. exists Cases.alerts_calls. vm_compute. reflexivity. Qed.

Lemma pass_publishes_the_pending_witness :
  pending Cases.alerts = [0; 2]
  /\ Bounds.renders_in_buffers (notifications Cases.alerts) 0
  /\ Bounds.renders_in_buffers (notifications Cases.alerts) 2
  /\ exists s',
      tick Cases.over_only Cases.alerts
      = Some (s', [("machine/over"%string, "over:1:5"%string);
                   ("machine/mode"%string, ("mode:2:" +++ quoted "running")%string)])
      /\ (In 2 (pending s')
          <-> In 2 (pending Cases.alerts)
              /\ Cases.over_only (fst (sent Cases.alerts 2)) (snd (sent Cases.alerts 2))
                 = false)
      /\ (In 0 (pending s')
          <-> In 0 (pending Cases.alerts)
              /\ Cases.over_only (fst (sent Cases.alerts 0)) (snd (sent Cases.alerts 0))
                 = false)
      /\ readings s' 3 = readings Cases.alerts 3.
Proof.
  assert (Hp : pending Cases.alerts = [0; 2]) by (vm_compute; reflexivity).
  assert (H0 : Bounds.renders_in_buffers (notifications Cases.alerts) 0).
  { exists "5"%string, "over:1:5"%string.
    split; [vm_compute; reflexivity|]. split; [vm_compute; reflexivity|].
    split; vm_compute; reflexivity. }
  assert (H2 : Bounds.renders_in_buffers (notifications Cases.alerts) 2).
  { exists (quoted "running"), ("mode:2:" +++ quoted "running")%string.
    split; [vm_compute; reflexivity|]. split; [vm_compute; reflexivity|].
    split; vm_compute; reflexivity. }
  split; [exact Hp|]. split; [exact H0|]. split; [exact H2|].
  destruct (pass_publishes_the_pending Cases.over_only Cases.alerts alerts_reachable)
    as (s' & Htick & Hread & Hpend & _).
  { intros i Hi. rewrite Hp in Hi. destruct Hi as [<-|[<-|[]]]; assumption. }
  exists s'. split; [|split; [exact (Hpend 2)|split; [exact (Hpend 0)|exact (Hread 3)]]].
  rewrite Htick. vm_compute. reflexivity.
Defined.

Lemma notification_keys_are_unique_witness :
  reachable Demo.over_raised
  /\ numNotificationsCreated Demo.over_raised <= TRACKLE_MAX_NOTIFICATIONS_NUM
  /\ strlen (Trackle_Notification_getKey Demo.over_raised 1) < NOTIFICATION_NAME_LENGTH.
Proof.
  split; [exact over_reachable|].
  destruct (notification_keys_are_unique Demo.over_raised over_reachable)
    as (Hnum & _ & Hfit).
  split; [apply Hnum|].
  apply (Hfit 1). unfold is_handle. rewrite over_count. lia.
Defined.

End OnTheDemo.

End ServiceFacts.

(** ** Starting the tasks *)

Module StartFacts.

Import Start.

(** X30. The two start functions read the result of the task creation
    differently: the one of the properties answers true only for
    [pdTRUE], the one of the notifications for everything except
    [ESP_OK]. For any result that is neither, so for every error code of
    the creation, the first reports a failure and the second a success;
    and with the usual values ([pdTRUE] not being [ESP_OK]) a created
    task is reported as started by both. *)
Theorem start_answers_disagree {rtos : Constants} (taskCreationRes : Z) :
  taskCreationRes <> pdTRUE ->
  taskCreationRes <> ESP_OK ->
  Trackle_Props_startTask taskCreationRes = false
  /\ Trackle_Notifications_startTask taskCreationRes = true
  /\ (pdTRUE <> ESP_OK ->
      Trackle_Props_startTask pdTRUE = true
      /\ Trackle_Notifications_startTask pdTRUE = true
      /\ Trackle_Props_startTask ESP_OK = false
      /\ Trackle_Notifications_startTask ESP_OK = false).
Proof.
  intros Hp He. unfold Trackle_Props_startTask, Trackle_Notifications_startTask.
  rewrite (proj2 (Z.eqb_neq _ _) Hp), (proj2 (Z.eqb_neq _ _) He).
  split; [reflexivity|]. split; [reflexivity|]. intros Hne.
  rewrite !Z.eqb_refl, (proj2 (Z.eqb_neq _ _) Hne).
  assert (Hne' : ESP_OK <> pdTRUE) by congruence.
  rewrite (proj2 (Z.eqb_neq _ _) Hne'). repeat split; reflexivity.
Qed.

Lemma start_answers_disagree_witness :
  -1 <> pdTRUE (Constants := usual)
  /\ -1 <> ESP_OK (Constants := usual)
  /\ Trackle_Props_startTask (rtos := usual) (-1) = false
  /\ Trackle_Notifications_startTask (rtos := usual) (-1) = true.
Proof.
  assert (Hp : -1 <> pdTRUE (Constants := usual)) by (cbn; lia).
  assert (He : -1 <> ESP_OK (Constants := usual)) by (cbn; lia).
  split; [exact Hp|]. split; [exact He|].
  destruct (start_answers_disagree (rtos := usual) (-1) Hp He) as (H1 & H2 & _).
  split; assumption.
Defined.

End StartFacts.
